(** * The Debug viewlet (vs/workbench/contrib/debug/browser/debugViewlet.ts)

    A shallow embedding of the [DebugViewlet] class: its instance fields, the
    objects it shares with the workbench (the panels, whose identity matters),
    and its methods as functions in a small state monad over the whole
    [World].  Effects on collaborators that live outside the file (progress
    service, title area, instantiation service, disposal) are recorded, in
    order, in a trace. *)

From Stdlib Require Import ZArith.
From stdpp Require Import base option list strings gmap functions.

Open Scope string_scope.
Open Scope list_scope.

(** ** Values *)

(** [State] of vs/workbench/contrib/debug/common/debug. *)
Inductive State := Inactive | Initializing | Stopped | Running.

#[global] Instance State_eq_dec : EqDecision State.
Proof. solve_decision. Defined.

(** A JavaScript number as far as this file uses one: body sizes are only
    copied and compared with nothing, and [Number.POSITIVE_INFINITY] is the one
    literal. *)
Inductive number := Finite (z : Z) | POSITIVE_INFINITY.

(** Object identity ([===] on objects): the address of the object. *)
Definition loc := nat.

(** A [ViewletPanel] object.  [onDidChange] holds the tokens of the listeners
    this viewlet has subscribed to the panel's changed event and not yet
    disposed; each of them runs [updateBreakpointsMaxSize]. *)
Record ViewletPanel := {
  panel_id : string;
  isExpanded : bool;
  minimumBodySize : number;
  maximumBodySize : number;
  onDidChange : list nat
}.

Definition set_maximumBodySize (size : number) (p : ViewletPanel) : ViewletPanel :=
  {| panel_id := panel_id p; isExpanded := isExpanded p;
     minimumBodySize := minimumBodySize p; maximumBodySize := size;
     onDidChange := onDidChange p |}.

Definition set_isExpanded (b : bool) (p : ViewletPanel) : ViewletPanel :=
  {| panel_id := panel_id p; isExpanded := b;
     minimumBodySize := minimumBodySize p; maximumBodySize := maximumBodySize p;
     onDidChange := onDidChange p |}.

Definition set_onDidChange (f : list nat → list nat) (p : ViewletPanel) : ViewletPanel :=
  {| panel_id := panel_id p; isExpanded := isExpanded p;
     minimumBodySize := minimumBodySize p; maximumBodySize := maximumBodySize p;
     onDidChange := f (onDidChange p) |}.

(** The classes of action the file tells apart ([instanceof MenuItemAction],
    and the classes it instantiates). *)
Inductive ActionClass :=
  | StartAction | ConfigureAction | ToggleReplAction | SelectAndStartAction
  | FocusSessionAction | MenuItemAction | Separator | OtherAction.

#[global] Instance ActionClass_eq_dec : EqDecision ActionClass.
Proof. solve_decision. Defined.

Record IAction := {
  action_class : ActionClass;
  action_id : string;
  action_label : string;
  action_obj : nat
}.

Inductive MenuId := DebugToolbar | OtherMenu (n : nat).

Record IMenu := { menu_id : MenuId; menu_obj : nat }.

Inductive IActionItem :=
  | StartDebugActionItem (o : nat) (action : IAction)
  | FocusSessionActionItem (o : nat) (action : IAction)
  | MenuItemActionItem (o : nat) (action : IAction).

Record IProgressRunner := { runner_obj : nat; runner_infinite : bool }.

(** The three subscriptions the constructor registers. *)
Inductive ServiceEvent :=
  | onDidChangeState | onDidChangeWorkbenchState | onDidChangeConfiguration.

Inductive IDisposable :=
  | ListenerHandle (p : loc) (token : nat)
  | ServiceListener (e : ServiceEvent)
  | ActionHandle (a : IAction)
  | MenuHandle (m : IMenu).

(** What the viewlet does to its collaborators, in the order it does it. *)
Inductive Effect :=
  | ProgressShow (infinite : bool) (r : IProgressRunner)
  | ProgressDone (r : IProgressRunner)
  | UpdateTitleArea
  | CreateInstance (c : ActionClass) (o : nat)
  | CreateActionItem (i : IActionItem)
  | CreateMenu (m : IMenu)
  | Dispose (d : IDisposable)
  | SuperFocus
  | ItemFocus (i : IActionItem)
  | ViewFocus (p : loc).

(** The element type of [addPanels]' argument. *)
Record PanelToAdd := { panel : loc; panel_size : number; index : option nat }.

(** ** The world: the viewlet's fields and what it shares *)

Record World := {
  (* fields declared by DebugViewlet *)
  startDebugActionItem : option IActionItem;
  progressRunner : option IProgressRunner;
  breakpointView : option loc;
  panelListeners : gmap string IDisposable;
  debugToolbarMenu : option IMenu;
  (* inherited from the view container *)
  panels : list loc;
  toDispose : list IDisposable;
  (* the own properties the memoize decorator defines, by getter name *)
  memoized : gmap string IAction;
  (* collaborators *)
  debugService_state : State;
  toolBarLocation : string;
  heap : loc → ViewletPanel;
  nextObj : nat;
  trace : list Effect
}.

Definition set_startDebugActionItem (v : option IActionItem) (w : World) : World :=
  {| startDebugActionItem := v; progressRunner := progressRunner w;
     breakpointView := breakpointView w; panelListeners := panelListeners w;
     debugToolbarMenu := debugToolbarMenu w; panels := panels w;
     toDispose := toDispose w; memoized := memoized w;
     debugService_state := debugService_state w; toolBarLocation := toolBarLocation w;
     heap := heap w; nextObj := nextObj w; trace := trace w |}.

Definition set_progressRunner (v : option IProgressRunner) (w : World) : World :=
  {| startDebugActionItem := startDebugActionItem w; progressRunner := v;
     breakpointView := breakpointView w; panelListeners := panelListeners w;
     debugToolbarMenu := debugToolbarMenu w; panels := panels w;
     toDispose := toDispose w; memoized := memoized w;
     debugService_state := debugService_state w; toolBarLocation := toolBarLocation w;
     heap := heap w; nextObj := nextObj w; trace := trace w |}.

Definition set_breakpointView (v : option loc) (w : World) : World :=
  {| startDebugActionItem := startDebugActionItem w; progressRunner := progressRunner w;
     breakpointView := v; panelListeners := panelListeners w;
     debugToolbarMenu := debugToolbarMenu w; panels := panels w;
     toDispose := toDispose w; memoized := memoized w;
     debugService_state := debugService_state w; toolBarLocation := toolBarLocation w;
     heap := heap w; nextObj := nextObj w; trace := trace w |}.

Definition set_panelListeners (f : gmap string IDisposable → gmap string IDisposable)
    (w : World) : World :=
  {| startDebugActionItem := startDebugActionItem w; progressRunner := progressRunner w;
     breakpointView := breakpointView w; panelListeners := f (panelListeners w);
     debugToolbarMenu := debugToolbarMenu w; panels := panels w;
     toDispose := toDispose w; memoized := memoized w;
     debugService_state := debugService_state w; toolBarLocation := toolBarLocation w;
     heap := heap w; nextObj := nextObj w; trace := trace w |}.

Definition set_debugToolbarMenu (v : option IMenu) (w : World) : World :=
  {| startDebugActionItem := startDebugActionItem w; progressRunner := progressRunner w;
     breakpointView := breakpointView w; panelListeners := panelListeners w;
     debugToolbarMenu := v; panels := panels w;
     toDispose := toDispose w; memoized := memoized w;
     debugService_state := debugService_state w; toolBarLocation := toolBarLocation w;
     heap := heap w; nextObj := nextObj w; trace := trace w |}.

Definition set_panels (f : list loc → list loc) (w : World) : World :=
  {| startDebugActionItem := startDebugActionItem w; progressRunner := progressRunner w;
     breakpointView := breakpointView w; panelListeners := panelListeners w;
     debugToolbarMenu := debugToolbarMenu w; panels := f (panels w);
     toDispose := toDispose w; memoized := memoized w;
     debugService_state := debugService_state w; toolBarLocation := toolBarLocation w;
     heap := heap w; nextObj := nextObj w; trace := trace w |}.

Definition set_toDispose (f : list IDisposable → list IDisposable) (w : World) : World :=
  {| startDebugActionItem := startDebugActionItem w; progressRunner := progressRunner w;
     breakpointView := breakpointView w; panelListeners := panelListeners w;
     debugToolbarMenu := debugToolbarMenu w; panels := panels w;
     toDispose := f (toDispose w); memoized := memoized w;
     debugService_state := debugService_state w; toolBarLocation := toolBarLocation w;
     heap := heap w; nextObj := nextObj w; trace := trace w |}.

Definition set_memoized (f : gmap string IAction → gmap string IAction) (w : World) : World :=
  {| startDebugActionItem := startDebugActionItem w; progressRunner := progressRunner w;
     breakpointView := breakpointView w; panelListeners := panelListeners w;
     debugToolbarMenu := debugToolbarMenu w; panels := panels w;
     toDispose := toDispose w; memoized := f (memoized w);
     debugService_state := debugService_state w; toolBarLocation := toolBarLocation w;
     heap := heap w; nextObj := nextObj w; trace := trace w |}.

Definition set_debugService_state (v : State) (w : World) : World :=
  {| startDebugActionItem := startDebugActionItem w; progressRunner := progressRunner w;
     breakpointView := breakpointView w; panelListeners := panelListeners w;
     debugToolbarMenu := debugToolbarMenu w; panels := panels w;
     toDispose := toDispose w; memoized := memoized w;
     debugService_state := v; toolBarLocation := toolBarLocation w;
     heap := heap w; nextObj := nextObj w; trace := trace w |}.

Definition set_toolBarLocation (v : string) (w : World) : World :=
  {| startDebugActionItem := startDebugActionItem w; progressRunner := progressRunner w;
     breakpointView := breakpointView w; panelListeners := panelListeners w;
     debugToolbarMenu := debugToolbarMenu w; panels := panels w;
     toDispose := toDispose w; memoized := memoized w;
     debugService_state := debugService_state w; toolBarLocation := v;
     heap := heap w; nextObj := nextObj w; trace := trace w |}.

Definition set_heap (f : (loc → ViewletPanel) → (loc → ViewletPanel)) (w : World) : World :=
  {| startDebugActionItem := startDebugActionItem w; progressRunner := progressRunner w;
     breakpointView := breakpointView w; panelListeners := panelListeners w;
     debugToolbarMenu := debugToolbarMenu w; panels := panels w;
     toDispose := toDispose w; memoized := memoized w;
     debugService_state := debugService_state w; toolBarLocation := toolBarLocation w;
     heap := f (heap w); nextObj := nextObj w; trace := trace w |}.

Definition set_nextObj (v : nat) (w : World) : World :=
  {| startDebugActionItem := startDebugActionItem w; progressRunner := progressRunner w;
     breakpointView := breakpointView w; panelListeners := panelListeners w;
     debugToolbarMenu := debugToolbarMenu w; panels := panels w;
     toDispose := toDispose w; memoized := memoized w;
     debugService_state := debugService_state w; toolBarLocation := toolBarLocation w;
     heap := heap w; nextObj := v; trace := trace w |}.

Definition set_trace (f : list Effect → list Effect) (w : World) : World :=
  {| startDebugActionItem := startDebugActionItem w; progressRunner := progressRunner w;
     breakpointView := breakpointView w; panelListeners := panelListeners w;
     debugToolbarMenu := debugToolbarMenu w; panels := panels w;
     toDispose := toDispose w; memoized := memoized w;
     debugService_state := debugService_state w; toolBarLocation := toolBarLocation w;
     heap := heap w; nextObj := nextObj w; trace := f (trace w) |}.

(** ** The monad of methods *)

Definition M (A : Type) : Type := World → A * World.

#[global] Instance M_ret : MRet M := λ A a w, (a, w).
#[global] Instance M_bind : MBind M := λ A B f m w, let (a, w') := m w in f a w'.

Definition get {A} (f : World → A) : M A := λ w, (f w, w).
Definition modify (f : World → World) : M unit := λ w, (tt, f w).
Definition emit (e : Effect) : M unit := modify (set_trace (λ t, t ++ [e])).
Definition fresh : M nat := λ w, (nextObj w, set_nextObj (S (nextObj w)) w).

(** [for (const x of xs) body(x)]. *)
Fixpoint forEach {A} (xs : list A) (body : A → M unit) : M unit :=
  match xs with
  | [] => mret tt
  | x :: xs' => body x ≫= λ _, forEach xs' body
  end.

(** The world a method leaves, its result dropped. *)
Definition exec {A} (m : M A) (w : World) : World := (m w).2.
(** The result of a method called in [w]. *)
Definition result {A} (m : M A) (w : World) : A := (m w).1.

(** ** What the file imports *)

(** Constants and one helper that debugViewlet.ts imports from files that are
    not part of this development; the viewlet's behaviour is established for
    every value of them. *)
Class Imports := {
  BREAKPOINTS_VIEW_ID : string;
  StartAction_ID : string;
  StartAction_LABEL : string;
  ConfigureAction_ID : string;
  ConfigureAction_LABEL : string;
  SelectAndStartAction_ID : string;
  FocusSessionAction_ID : string;
  (* nls.localize(key, defaultMessage) *)
  nls_localize : string → string → string;
  (* DebugToolbar.getActions(menu, debugService, instantiationService): the
     actions the menu contributes, as the toolbar lists them *)
  DebugToolbar_getActions : IMenu → State → list IAction
}.

(** [ToggleReplAction.ID], declared at the end of the file. *)
Definition ToggleReplAction_ID : string := "debug.toggleRepl".

(** ** Collaborators *)

(** Modelled from the spec: the instantiation service's [createInstance] for
    an action class, which is outside this file; it constructs a new object of
    the class with the given id and label. *)
Definition createInstance (c : ActionClass) (id label : string) : M IAction :=
  o ← fresh;
  emit (CreateInstance c o);;
  mret {| action_class := c; action_id := id; action_label := label; action_obj := o |}.

(** Modelled from the spec: [Disposable._register] of the base class, which
    records what the viewlet owns for release on disposal and returns it. *)
Definition _register (d : IDisposable) : M unit :=
  modify (set_toDispose (λ l, l ++ [d])).

(** Modelled from the spec: the [memoize] decorator of
    vs/base/common/decorators, which is outside this file (memoized instances
    are created at most once per viewlet instance): the first read of the
    getter [key] runs its body and stores the value on the instance, later
    reads return the stored value. *)
Definition memoize (key : string) (body : M IAction) : M IAction :=
  λ w, match memoized w !! key with
       | Some v => (v, w)
       | None => let (v, w') := body w in (v, set_memoized (insert key v) w')
       end.

(** Modelled from the spec: [menuService.createMenu(id, contextKeyService)],
    a new menu object for the menu id. *)
Definition createMenu (id : MenuId) : M IMenu :=
  o ← fresh;
  let m := {| menu_id := id; menu_obj := o |} in
  emit (CreateMenu m);; mret m.

(** Modelled from the spec: the progress service, whose [show(infinite)]
    returns a handle with a [done()] method. *)
Definition progressService_show (infinite : bool) : M IProgressRunner :=
  o ← fresh;
  let r := {| runner_obj := o; runner_infinite := infinite |} in
  emit (ProgressShow infinite r);; mret r.

Definition runner_done (r : IProgressRunner) : M unit := emit (ProgressDone r).

(** Modelled from the spec: [updateTitleArea] of the base class refreshes the
    action bar; only the call is recorded. *)
Definition updateTitleArea : M unit := emit UpdateTitleArea.

(** Modelled from the spec: the panel's changed event, an emitter outside
    this file.  Subscribing adds a listener and returns the handle that
    removes it again. *)
Definition panel_onDidChange (p : loc) : M IDisposable :=
  t ← fresh;
  modify (set_heap (alter (set_onDidChange (λ l, l ++ [t])) p));;
  mret (ListenerHandle p t).

(** Modelled from the spec: [dispose] of vs/base/common/lifecycle on the
    result of a map lookup: nothing for an absent value, the handle's own
    [dispose()] otherwise; a listener handle takes its listener off the
    panel's event. *)
Definition dispose (d : option IDisposable) : M unit :=
  match d with
  | None => mret tt
  | Some d =>
      emit (Dispose d);;
      match d with
      | ListenerHandle p t =>
          modify (set_heap (alter (set_onDidChange (filter (λ t', t' ≠ t))) p))
      | _ => mret tt
      end
  end.

(** [this.panels.splice(index, 0, x)]. *)
Definition splice_in {A} (i : nat) (x : A) (l : list A) : list A :=
  take i l ++ x :: drop i l.

(** Modelled from the spec: [addPanels] of the base view container, which
    attaches each panel (at its index, at the end when none is given). *)
Definition super_addPanels (ps : list PanelToAdd) : M unit :=
  forEach ps (λ a,
    modify (set_panels (λ l, splice_in (default (length l) (index a)) (panel a) l))).

(** Modelled from the spec: [removePanels] of the base view container, after
    which the panels are no longer attached. *)
Definition super_removePanels (ps : list loc) : M unit :=
  forEach ps (λ p, modify (set_panels (filter (λ q, q ≠ p)))).

Section DebugViewlet.
Context {imports : Imports}.

(** ** The class *)

(** The fields as the constructor leaves them, in a workbench whose debug
    service is in [state], whose configuration has [location] for
    debug.toolBarLocation, and whose panels are [σ].  The base constructor,
    [super(...)], is outside this file and is not modelled: [toDispose] holds
    the three subscriptions this constructor registers, not what the base
    classes register before them. *)
Definition constructor (state : State) (location : string)
    (σ : loc → ViewletPanel) (next : nat) : World :=
  {| startDebugActionItem := None; progressRunner := None;
     breakpointView := None; panelListeners := ∅;
     debugToolbarMenu := None; panels := [];
     toDispose := [ServiceListener onDidChangeState;
                   ServiceListener onDidChangeWorkbenchState;
                   ServiceListener onDidChangeConfiguration];
     memoized := ∅;
     debugService_state := state; toolBarLocation := location;
     heap := λ p, set_onDidChange (λ _, []) (σ p); nextObj := next; trace := [] |}.

Definition focus : M unit :=
  emit SuperFocus;;
  item ← get startDebugActionItem;
  match item with
  | Some i => emit (ItemFocus i)
  | None => mret tt
  end.

Definition startAction : M IAction :=
  memoize "startAction"
    (a ← createInstance StartAction StartAction_ID StartAction_LABEL;
     _register (ActionHandle a);; mret a).

Definition configureAction : M IAction :=
  memoize "configureAction"
    (a ← createInstance ConfigureAction ConfigureAction_ID ConfigureAction_LABEL;
     _register (ActionHandle a);; mret a).

Definition toggleReplAction : M IAction :=
  memoize "toggleReplAction"
    (a ← createInstance ToggleReplAction ToggleReplAction_ID
           (nls_localize "debugConsoleAction" "Debug Console");
     _register (ActionHandle a);; mret a).

Definition selectAndStartAction : M IAction :=
  memoize "selectAndStartAction"
    (a ← createInstance SelectAndStartAction SelectAndStartAction_ID
           (nls_localize "startAdditionalSession" "Start Additional Session");
     _register (ActionHandle a);; mret a).

Definition showInitialDebugActions (w : World) : bool :=
  let state := debugService_state w in
  bool_decide (state = Inactive) || bool_decide (toolBarLocation w ≠ "docked").

Definition getActions : M (list IAction) :=
  initial ← get showInitialDebugActions;
  if initial : bool then
    a ← startAction; b ← configureAction; c ← toggleReplAction;
    mret [a; b; c]
  else
    menu ← get debugToolbarMenu;
    m ← match menu with
        | Some m => mret m
        | None =>
            m ← createMenu DebugToolbar;
            modify (set_debugToolbarMenu (Some m));;
            modify (set_toDispose (λ l, l ++ [MenuHandle m]));;
            mret m
        end;
    state ← get debugService_state;
    mret (DebugToolbar_getActions m state).

Definition getSecondaryActions : M (list IAction) :=
  initial ← get showInitialDebugActions;
  if initial : bool then mret []
  else
    a ← selectAndStartAction; b ← configureAction; c ← toggleReplAction;
    mret [a; b; c].

Definition getActionItem (action : IAction) : M (option IActionItem) :=
  if bool_decide (action_id action = StartAction_ID) then
    o ← fresh;
    let item := StartDebugActionItem o action in
    emit (CreateActionItem item);;
    modify (set_startDebugActionItem (Some item));;
    get startDebugActionItem
  else if bool_decide (action_id action = FocusSessionAction_ID) then
    o ← fresh;
    let item := FocusSessionActionItem o action in
    emit (CreateActionItem item);; mret (Some item)
  else if bool_decide (action_class action = MenuItemAction) then
    o ← fresh;
    let item := MenuItemActionItem o action in
    emit (CreateActionItem item);; mret (Some item)
  else mret None.

(** Modelled from the spec: [getView(id)] of the base view container, the
    lookup of a view by id among the attached panels, absent when none has
    the id. *)
Definition getView (id : string) : M (option loc) :=
  get (λ w, head (filter (λ p, panel_id (heap w p) = id) (panels w))).

Definition focusView (id : string) : M unit :=
  view ← getView id;
  match view with
  | Some v => emit (ViewFocus v)
  | None => mret tt
  end.

Definition onDebugServiceStateChange (state : State) : M unit :=
  runner ← get progressRunner;
  match runner with
  | Some r => runner_done r
  | None => mret tt
  end;;
  (if bool_decide (state = Initializing) then
     r ← progressService_show true;
     modify (set_progressRunner (Some r))
   else mret tt);;
  location ← get toolBarLocation;
  if bool_decide (location = "docked") then updateTitleArea else mret tt.

Definition updateBreakpointsMaxSize : M unit :=
  λ w, match breakpointView w with
       | Some bp =>
           let allOtherCollapsed :=
             forallb (λ view, negb (isExpanded (heap w view)) || bool_decide (view = bp))
                     (panels w) in
           let size := if allOtherCollapsed then POSITIVE_INFINITY
                       else minimumBodySize (heap w bp) in
           (tt, set_heap (alter (set_maximumBodySize size) bp) w)
       | None => (tt, w)
       end.

(** The body of [addPanels]' loop over the panels. *)
Definition addPanels_each (a : PanelToAdd) : M unit :=
  let p := panel a in
  id ← get (λ w, panel_id (heap w p));
  if bool_decide (id = BREAKPOINTS_VIEW_ID) then
    modify (set_breakpointView (Some p));;
    updateBreakpointsMaxSize
  else
    d ← panel_onDidChange p;
    modify (set_panelListeners (insert id d)).

Definition addPanels (ps : list PanelToAdd) : M unit :=
  super_addPanels ps;;
  forEach ps addPanels_each.

(** The body of [removePanels]' loop over the panels. *)
Definition removePanels_each (p : loc) : M unit :=
  id ← get (λ w, panel_id (heap w p));
  d ← get (λ w, panelListeners w !! id);
  dispose d;;
  modify (set_panelListeners (delete id)).

Definition removePanels (ps : list loc) : M unit :=
  super_removePanels ps;;
  forEach ps removePanels_each.

(** ** Events *)

(** The panel's changed event fires: every listener subscribed by
    [addPanels] and still in place runs. *)
Definition fire_onDidChange (p : loc) : M unit :=
  ls ← get (λ w, onDidChange (heap w p));
  forEach ls (λ _, updateBreakpointsMaxSize).

(** Modelled from the spec: a panel is expanded or collapsed and notifies
    its listeners. *)
Definition setExpanded (p : loc) (b : bool) : M unit :=
  modify (set_heap (alter (set_isExpanded b) p));;
  fire_onDidChange p.

(** What can happen to a viewlet after its construction: the workbench calls
    one of its methods, or one of the events it listens to fires. *)
Inductive Call :=
  | call_focus
  | call_focusView (id : string)
  | call_getActions
  | call_getSecondaryActions
  | call_getActionItem (action : IAction)
  | call_addPanels (ps : list PanelToAdd)
  | call_removePanels (ps : list loc)
  | debugStateChanged (state : State)
  | workbenchStateChanged
  | configurationChanged (toolBarLocation' : option string)
  | panelChanged (p : loc)
  | panelSetExpanded (p : loc) (b : bool).

Definition step (c : Call) : M unit :=
  match c with
  | call_focus => focus
  | call_focusView id => focusView id
  | call_getActions => getActions ≫= λ _, mret tt
  | call_getSecondaryActions => getSecondaryActions ≫= λ _, mret tt
  | call_getActionItem a => getActionItem a ≫= λ _, mret tt
  | call_addPanels ps => addPanels ps
  | call_removePanels ps => removePanels ps
  | debugStateChanged s =>
      (* the debug service changes state, then notifies *)
      modify (set_debugService_state s);; onDebugServiceStateChange s
  | workbenchStateChanged => updateTitleArea
  | configurationChanged (Some v) =>
      (* e.affectsConfiguration('debug.toolBarLocation') *)
      modify (set_toolBarLocation v);; updateTitleArea
  | configurationChanged None => mret tt
  | panelChanged p => fire_onDidChange p
  | panelSetExpanded p b => setExpanded p b
  end.

Definition run (cs : list Call) (w : World) : World :=
  foldl (λ w c, exec (step c) w) w cs.

End DebugViewlet.

(** ** Vocabulary of the properties *)

(** The objects of class [c] the trace shows the instantiation service to
    have created, and the menus the menu service has created. *)
Definition instances (c : ActionClass) (t : list Effect) : list nat :=
  omap (λ e, match e with
             | CreateInstance c' o => if decide (c' = c) then Some o else None
             | _ => None
             end) t.

Definition menus (t : list Effect) : list IMenu :=
  omap (λ e, match e with CreateMenu m => Some m | _ => None end) t.

Arguments instances : simpl never.
Arguments menus : simpl never.

(** Every attached panel other than [bp] is collapsed. *)
Definition all_other_collapsed (w : World) (bp : loc) : Prop :=
  ∀ v, v ∈ panels w → v ≠ bp → isExpanded (heap w v) = false.

(** The sizing rule holds of [bp] in [w]: unbounded when every other attached
    panel is collapsed, clamped to its minimum body size otherwise. *)
Definition sized (w : World) (bp : loc) : Prop :=
  (all_other_collapsed w bp → maximumBodySize (heap w bp) = POSITIVE_INFINITY)
  ∧ (¬ all_other_collapsed w bp →
       maximumBodySize (heap w bp) = minimumBodySize (heap w bp)).

(** The panels a call names. *)
Definition named (c : Call) : list loc :=
  match c with
  | call_addPanels ps => panel <$> ps
  | call_removePanels ps => ps
  | _ => []
  end.

(** Distinct panels among [l] have distinct ids. *)
Definition distinct_ids (σ : loc → ViewletPanel) (l : list loc) : Prop :=
  ∀ p q, p ∈ l → q ∈ l → panel_id (σ p) = panel_id (σ q) → p = q.

Section Invariants.
Context {imports : Imports}.

(** The memoized getters: the property the decorator stores the instance
    under, and the class and id of the instance. *)
Definition memoized_getters : list (string * ActionClass * string) :=
  [ ("startAction", StartAction, StartAction_ID);
    ("configureAction", ConfigureAction, ConfigureAction_ID);
    ("toggleReplAction", ToggleReplAction, ToggleReplAction_ID);
    ("selectAndStartAction", SelectAndStartAction, SelectAndStartAction_ID) ].

(** A getter either has not run, and no instance of its class exists, or
    holds the one instance ever created, which the viewlet owns. *)
Definition memo_inv (w : World) (g : string * ActionClass * string) : Prop :=
  match memoized w !! g.1.1 with
  | None => instances g.1.2 (trace w) = []
  | Some a =>
      action_class a = g.1.2 ∧ action_id a = g.2
      ∧ instances g.1.2 (trace w) = [action_obj a]
      ∧ ActionHandle a ∈ toDispose w
  end.

Definition menu_inv (w : World) : Prop :=
  match debugToolbarMenu w with
  | None => menus (trace w) = []
  | Some m =>
      menu_id m = DebugToolbar ∧ menus (trace w) = [m] ∧ MenuHandle m ∈ toDispose w
  end.

Definition owned_inv (w : World) : Prop :=
  Forall (memo_inv w) memoized_getters ∧ menu_inv w.

(** What a call on the panels leaves alone. *)
Definition owned_frame (w w' : World) : Prop :=
  memoized w' = memoized w
  ∧ debugToolbarMenu w' = debugToolbarMenu w
  ∧ toDispose w' = toDispose w
  ∧ (∀ c, instances c (trace w') = instances c (trace w))
  ∧ menus (trace w') = menus (trace w).

(** What a call that is not on the panels leaves alone. *)
Definition panels_frame (w w' : World) : Prop :=
  panels w' = panels w
  ∧ panelListeners w' = panelListeners w
  ∧ breakpointView w' = breakpointView w
  ∧ ∀ p, panel_id (heap w' p) = panel_id (heap w p)
         ∧ onDidChange (heap w' p) = onDidChange (heap w p).

(** Every entry of the panel-listener map is the live subscription to a
    non-breakpoints panel, under that panel's id, and the panel is attached
    (or, while [removePanels] runs, one of those it has still to go
    through). *)
Definition entries_ok (w : World) (rest : list loc) : Prop :=
  ∀ k d, panelListeners w !! k = Some d →
    ∃ p t, d = ListenerHandle p t ∧ panel_id (heap w p) = k
           ∧ k ≠ BREAKPOINTS_VIEW_ID
           ∧ t ∈ onDidChange (heap w p)
           ∧ (p ∈ panels w ∨ p ∈ rest).

(** Every attached non-breakpoints panel has an entry under its id (or,
    while [addPanels] runs, is one of those it has still to go through). *)
Definition covered (w : World) (rest : list loc) : Prop :=
  ∀ p, p ∈ panels w → panel_id (heap w p) ≠ BREAKPOINTS_VIEW_ID →
    is_Some (panelListeners w !! panel_id (heap w p)) ∨ p ∈ rest.

Definition listeners_inv (w : World) : Prop := entries_ok w [] ∧ covered w [].

(** What disposing of a handle does. *)
Definition released (d : IDisposable) (w : World) : World :=
  match d with
  | ListenerHandle q t =>
      set_heap (alter (set_onDidChange (filter (λ t', t' ≠ t))) q)
        (set_trace (λ tr, tr ++ [Dispose d]) w)
  | _ => set_trace (λ tr, tr ++ [Dispose d]) w
  end.

(** No panel has changed its id. *)
Definition same_ids (w w' : World) : Prop :=
  ∀ p, panel_id (heap w' p) = panel_id (heap w p).

(** Nothing the sizing rule reads has changed, nor the stored breakpoints
    panel. *)
Definition same_geometry (w w' : World) : Prop :=
  panels w' = panels w
  ∧ breakpointView w' = breakpointView w
  ∧ ∀ p, panel_id (heap w' p) = panel_id (heap w p)
         ∧ isExpanded (heap w' p) = isExpanded (heap w p)
         ∧ minimumBodySize (heap w' p) = minimumBodySize (heap w p)
         ∧ maximumBodySize (heap w' p) = maximumBodySize (heap w p).

(** The listeners in place stay in place. *)
Definition listeners_kept (w w' : World) : Prop :=
  ∀ p t, t ∈ onDidChange (heap w p) → t ∈ onDidChange (heap w' p).

(** The call attaches a panel that has the breakpoints view's id. *)
Definition attaches_breakpoints (w : World) (c : Call) : Prop :=
  match c with
  | call_addPanels ps =>
      Exists (λ a, panel_id (heap w (panel a)) = BREAKPOINTS_VIEW_ID) ps
  | _ => False
  end.

Definition is_action (c : ActionClass) (id : string) (a : IAction) : Prop :=
  action_class a = c ∧ action_id a = id.

(** Among [l], a panel that has not the breakpoints id shares its id with
    no other panel. *)
Definition siblings_apart (σ : loc → ViewletPanel) (l : list loc) : Prop :=
  Forall (λ p, panel_id (σ p) ≠ BREAKPOINTS_VIEW_ID →
               Forall (λ q, panel_id (σ p) = panel_id (σ q) → p = q) l) l.

(** The call keeps the panels of one id apart: [addPanels] leaves no two
    panels of one id, other than the breakpoints id, attached together, and
    [removePanels] names no panel whose id a sibling has that stays
    attached. *)
Definition apart (w : World) (c : Call) : Prop :=
  match c with
  | call_addPanels ps => siblings_apart (heap w) (panels w ++ (panel <$> ps))
  | call_removePanels ps =>
      Forall (λ p, p ∉ ps → panel_id (heap w p) ≠ BREAKPOINTS_VIEW_ID →
                   Forall (λ q, panel_id (heap w p) ≠ panel_id (heap w q)) ps)
             (panels w)
  | _ => True
  end.

(** Every call of [cs], made in turn from [w], keeps the panels of one id
    apart. *)
Fixpoint apart_along (cs : list Call) (w : World) : Prop :=
  match cs with
  | [] => True
  | c :: cs => apart w c ∧ apart_along cs (exec (step c) w)
  end.

(** The call attaches no panel twice either: the ids, other than the
    breakpoints id, of the panels [addPanels] is given are pairwise distinct
    and no attached panel has one of them. *)
Definition once (w : World) (c : Call) : Prop :=
  match c with
  | call_addPanels ps =>
      let siblings :=
        filter (λ p, panel_id (heap w p) ≠ BREAKPOINTS_VIEW_ID) (panel <$> ps) in
      NoDup ((λ p, panel_id (heap w p)) <$> siblings)
      ∧ Forall (λ a, Forall (λ p, panel_id (heap w a) ≠ panel_id (heap w p)) (panels w))
               siblings
  | _ => apart w c
  end.

Fixpoint once_along (cs : list Call) (w : World) : Prop :=
  match cs with
  | [] => True
  | c :: cs => once w c ∧ once_along cs (exec (step c) w)
  end.

#[global] Instance siblings_apart_dec σ l : Decision (siblings_apart σ l).
Proof. unfold siblings_apart. apply _. Defined.

#[global] Instance apart_dec w c : Decision (apart w c).
Proof. destruct c; cbn; apply _. Defined.

#[global] Instance apart_along_dec cs w : Decision (apart_along cs w).
Proof. revert w. induction cs as [|c cs IH]; intros w; cbn; apply _. Defined.

#[global] Instance once_dec w c : Decision (once w c).
Proof. destruct c; cbn; apply _. Defined.

#[global] Instance once_along_dec cs w : Decision (once_along cs w).
Proof. revert w. induction cs as [|c cs IH]; intros w; cbn; apply _. Defined.

(** A panel's listeners are the handle stored under its id, when that is a
    subscription to this panel, and none otherwise. *)
Definition single (w : World) : Prop :=
  ∀ p, onDidChange (heap w p) =
       match panelListeners w !! panel_id (heap w p) with
       | Some (ListenerHandle q t) => if decide (q = p) then [t] else []
       | _ => []
       end.

End Invariants.

(** ** A workbench to run the viewlet in *)

Definition example_imports : Imports :=
  {| BREAKPOINTS_VIEW_ID := "workbench.debug.breakPointsView";
     StartAction_ID := "workbench.action.debug.start";
     StartAction_LABEL := "Start Debugging";
     ConfigureAction_ID := "workbench.action.debug.configure";
     ConfigureAction_LABEL := "Configure";
     SelectAndStartAction_ID := "workbench.action.debug.selectandstart";
     FocusSessionAction_ID := "workbench.action.debug.focusProcess";
     nls_localize := λ _ message, message;
     DebugToolbar_getActions := λ m s,
       [ {| action_class := MenuItemAction;
            action_id := "workbench.action.debug.continue";
            action_label := "Continue"; action_obj := 1000 + menu_obj m |} ] |}.

(** Panel 0 is a breakpoints panel, 1 an expanded and 2 a collapsed sibling;
    3 is a second breakpoints panel, and every other panel shares one id. *)
Definition example_panels (p : loc) : ViewletPanel :=
  match p with
  | 0 => {| panel_id := "workbench.debug.breakPointsView"; isExpanded := true;
            minimumBodySize := Finite 120; maximumBodySize := Finite 400;
            onDidChange := [] |}
  | 1 => {| panel_id := "workbench.debug.variablesView"; isExpanded := true;
            minimumBodySize := Finite 120; maximumBodySize := POSITIVE_INFINITY;
            onDidChange := [] |}
  | 2 => {| panel_id := "workbench.debug.watchExpressionsView"; isExpanded := false;
            minimumBodySize := Finite 120; maximumBodySize := POSITIVE_INFINITY;
            onDidChange := [] |}
  | 3 => {| panel_id := "workbench.debug.breakPointsView"; isExpanded := true;
            minimumBodySize := Finite 80; maximumBodySize := Finite 300;
            onDidChange := [] |}
  | _ => {| panel_id := "workbench.debug.callStackView"; isExpanded := true;
            minimumBodySize := Finite 120; maximumBodySize := POSITIVE_INFINITY;
            onDidChange := [] |}
  end.

Definition attach (p : loc) : PanelToAdd :=
  {| panel := p; panel_size := Finite 200; index := None |}.

(** The viewlet just constructed, with the debug service in [state] and the
    toolbar configured at [location]. *)
Definition example_viewlet (state : State) (location : string) : World :=
  constructor state location example_panels 0.

(** The breakpoints panel and an expanded sibling attached together. *)
Definition two_panels : World :=
  exec (addPanels (imports := example_imports) [attach 0; attach 1])
       (example_viewlet Inactive "docked").

(** The breakpoints panel attached alone, then the expanded sibling. *)
Definition sibling_attached_later : World :=
  run (imports := example_imports)
      [call_addPanels [attach 0]; call_addPanels [attach 1]]
      (example_viewlet Inactive "docked").

(** Two panels of one id attached, then the first of them detached. *)
Definition shared_id_detached : World :=
  run (imports := example_imports)
      [call_addPanels [attach 4; attach 5]; call_removePanels [4]]
      (example_viewlet Inactive "docked").

(** Both panels of [two_panels] detached, the breakpoints panel first. *)
Definition all_detached : World :=
  run (imports := example_imports)
      [call_removePanels [0]; call_removePanels [1]] two_panels.

(** A panel is detached and another panel of its id attached in its
    place. *)
Definition detach_then_recreate : list Call :=
  [call_addPanels [attach 0; attach 4]; call_removePanels [4];
   call_addPanels [attach 5]].

(** Two panels of one id attached, then the first of them detached. *)
Definition shared_id_calls : list Call :=
  [call_addPanels [attach 4; attach 5]; call_removePanels [4]].

(** The same beside the breakpoints panel. *)
Definition shared_id_beside_breakpoints : list Call :=
  [call_addPanels [attach 0; attach 4; attach 5]; call_removePanels [4]].

(** A panel is attached, and a panel of its id that is not attached is
    detached. *)
Definition twin_detached : list Call :=
  [call_addPanels [attach 4]; call_removePanels [5]].

(** The same beside the breakpoints panel. *)
Definition twin_detached_beside_breakpoints : list Call :=
  [call_addPanels [attach 0; attach 4]; call_removePanels [5]].

(** A panel is attached twice and detached once. *)
Definition attached_twice : list Call :=
  [call_addPanels [attach 1]; call_addPanels [attach 1]; call_removePanels [1]].

(** A debug session is started with the toolbar docked, and the action
    lists are read before and after. *)
Definition session_calls : list Call :=
  [call_getActions; call_getSecondaryActions; debugStateChanged Initializing;
   debugStateChanged Running; call_getActions; call_getActions;
   call_getSecondaryActions].

(** ** Vocabulary of the further properties *)

#[global] Instance IProgressRunner_eq_dec : EqDecision IProgressRunner.
Proof. solve_decision. Defined.

(** The progress indicators the trace shows and has not ended since. *)
Definition showing (t : list Effect) : list IProgressRunner :=
  foldl (λ acc e, match e with
                  | ProgressShow _ r => acc ++ [r]
                  | ProgressDone r => filter (λ r', r' ≠ r) acc
                  | _ => acc
                  end) [] t.

(** The start-debug action items the trace shows to have been created. *)
Definition start_items (t : list Effect) : list IActionItem :=
  omap (λ e, match e with
             | CreateActionItem (StartDebugActionItem o a) =>
                 Some (StartDebugActionItem o a)
             | _ => None
             end) t.

(** The calls an effect can come from. *)
Definition emits (c : Call) (e : Effect) : Prop :=
  match e with
  | ProgressShow _ _ | ProgressDone _ => ∃ s, c = debugStateChanged s
  | UpdateTitleArea =>
      (∃ s, c = debugStateChanged s) ∨ c = workbenchStateChanged
      ∨ ∃ v, c = configurationChanged (Some v)
  | CreateInstance _ _ | CreateMenu _ =>
      c = call_getActions ∨ c = call_getSecondaryActions
  | CreateActionItem _ => ∃ a, c = call_getActionItem a
  | Dispose _ => ∃ ps, c = call_removePanels ps
  | SuperFocus | ItemFocus _ => c = call_focus
  | ViewFocus _ => ∃ id, c = call_focusView id
  end.

(** The trace has grown by effects that satisfy [P], and no object
    identity has been given back. *)
Definition footprint (P : Effect → Prop) (w w' : World) : Prop :=
  (∃ es, trace w' = trace w ++ es ∧ Forall P es) ∧ (nextObj w ≤ nextObj w')%nat.

(** The call neither attaches nor detaches a panel. *)
Definition keeps_panels (c : Call) : Prop :=
  match c with
  | call_addPanels _ | call_removePanels _ => False
  | _ => True
  end.

(** The fields the panel methods and the action lists never assign. *)
Definition same_fields (w w' : World) : Prop :=
  startDebugActionItem w' = startDebugActionItem w
  ∧ progressRunner w' = progressRunner w
  ∧ debugService_state w' = debugService_state w
  ∧ toolBarLocation w' = toolBarLocation w.

Section FurtherInvariants.
Context {imports : Imports}.

(** At most one indicator is showing; it is the stored runner, an
    indeterminate one, and the debug service is initializing. *)
Definition progress_inv (w : World) : Prop :=
  match showing (trace w) with
  | [] => True
  | [r] => progressRunner w = Some r ∧ debugService_state w = Initializing
           ∧ runner_infinite r = true
  | _ => False
  end.

(** The stored item is the start-debug action item created last, for an
    action of the Start action's id. *)
Definition focus_inv (w : World) : Prop :=
  startDebugActionItem w = list.last (start_items (trace w))
  ∧ Forall (λ i, ∃ o a, i = StartDebugActionItem o a ∧ action_id a = StartAction_ID)
           (start_items (trace w)).

(** The panels of the breakpoints id that a call attaches, in the order of
    the batch. *)
Definition breakpoints_attached (σ : loc → ViewletPanel) (c : Call) : list loc :=
  match c with
  | call_addPanels ps =>
      filter (λ p, panel_id (σ p) = BREAKPOINTS_VIEW_ID) (panel <$> ps)
  | _ => []
  end.

(** The panels a call expands or collapses. *)
Definition expanded_by (c : Call) : list loc :=
  match c with
  | panelSetExpanded p _ => [p]
  | _ => []
  end.

(** Every panel has kept its id and its minimum body size; but for
    those in [E], its expansion; and but for those in [B], its maximum body
    size. *)
Definition writes (B E : list loc) (w w' : World) : Prop :=
  ∀ p, panel_id (heap w' p) = panel_id (heap w p)
       ∧ minimumBodySize (heap w' p) = minimumBodySize (heap w p)
       ∧ (p ∉ E → isExpanded (heap w' p) = isExpanded (heap w p))
       ∧ (p ∉ B → maximumBodySize (heap w' p) = maximumBodySize (heap w p)).

End FurtherInvariants.

(** Every listener token in place was handed out before. *)
Definition tokens_fresh (w : World) : Prop :=
  ∀ p t, t ∈ onDidChange (heap w p) → (t < nextObj w)%nat.

(** The handles disposed of so far, in order. *)
Definition disposed (t : list Effect) : list IDisposable :=
  omap (λ e, match e with Dispose d => Some d | _ => None end) t.

(** No handle was disposed of twice, and the handles in the listener map
    are live: subscriptions not disposed of, each under one key. *)
Definition dispose_inv (w : World) : Prop :=
  NoDup (disposed (trace w))
  ∧ (∀ d, d ∈ disposed (trace w) →
       ∃ p t, d = ListenerHandle p t ∧ (t < nextObj w)%nat)
  ∧ (∀ k d, panelListeners w !! k = Some d →
       (∃ p t, d = ListenerHandle p t ∧ (t < nextObj w)%nat)
       ∧ (d ∉ disposed (trace w))
       ∧ ∀ k', panelListeners w !! k' = Some d → k' = k).

(** How many of the objects the viewlet registers for disposal the trace
    shows to have been created. *)
Definition owned_total (t : list Effect) : nat :=
  length (instances StartAction t) + length (instances ConfigureAction t)
  + length (instances ToggleReplAction t) + length (instances SelectAndStartAction t)
  + length (menus t).

(** What the viewlet has registered for disposal is what it had, with the
    objects created since added, one entry each. *)
Definition disposal_frame (w w' : World) : Prop :=
  toDispose w `prefix_of` toDispose w'
  ∧ length (toDispose w') + owned_total (trace w)
    = length (toDispose w) + owned_total (trace w').

(** * Properties *)

Section Properties.
Context {imports : Imports}.

Ltac run_monad :=
  unfold exec, result, mbind, M_bind, mret, M_ret, get, modify, emit, fresh in *;
  cbn in *.

(** ** Sequencing and loops *)

Lemma exec_bind {A B} (m : M A) (f : A → M B) (w : World) :
  exec (m ≫= f) w = exec (f (result m w)) (exec m w).
Proof. unfold exec, result, mbind, M_bind. by destruct (m w). Qed.

Lemma result_bind {A B} (m : M A) (f : A → M B) (w : World) :
  result (m ≫= f) w = result (f (result m w)) (exec m w).
Proof. unfold exec, result, mbind, M_bind. by destruct (m w). Qed.

Lemma exec_forEach_cons {A} (x : A) (xs : list A) (body : A → M unit) (w : World) :
  exec (forEach (x :: xs) body) w = exec (forEach xs body) (exec (body x) w).
Proof. cbn [forEach]. by rewrite exec_bind. Qed.

Lemma exec_forEach_app {A} (xs ys : list A) (body : A → M unit) (w : World) :
  exec (forEach (xs ++ ys) body) w = exec (forEach ys body) (exec (forEach xs body) w).
Proof.
  revert w. induction xs as [|x xs IH]; intros w; [done|].
  by rewrite <- app_comm_cons, !exec_forEach_cons, IH.
Qed.

Lemma forEach_frame {A} (R : relation World) `{!Reflexive R, !Transitive R}
    (xs : list A) (body : A → M unit) :
  (∀ x w, x ∈ xs → R w (exec (body x) w)) →
  ∀ w, R w (exec (forEach xs body) w).
Proof.
  induction xs as [|x xs IH]; intros Hbody w; [done|].
  rewrite exec_forEach_cons. etrans; [apply Hbody; left|apply IH].
  intros y w' Hy. apply Hbody. by right.
Qed.

(** ** The trace *)

Lemma instances_snoc (c : ActionClass) (t : list Effect) (e : Effect) :
  instances c (t ++ [e]) =
  instances c t ++ match e with
                   | CreateInstance c' o => if decide (c' = c) then [o] else []
                   | _ => []
                   end.
Proof.
  unfold instances. rewrite omap_app. f_equal.
  destruct e; cbn; try done. by destruct (decide _).
Qed.

Lemma menus_snoc (t : list Effect) (e : Effect) :
  menus (t ++ [e]) = menus t ++ match e with CreateMenu m => [m] | _ => [] end.
Proof. unfold menus. rewrite omap_app. f_equal. by destruct e. Qed.

(** ** Frames *)

#[local] Instance owned_frame_refl : Reflexive owned_frame.
Proof. by intros w. Qed.

#[local] Instance owned_frame_trans : Transitive owned_frame.
Proof.
  intros w1 w2 w3 (?&?&?&Hi&?) (?&?&?&Hi'&?).
  do 3 (split; [congruence|]). split; [|congruence].
  intros c. by rewrite Hi', Hi.
Qed.

#[local] Instance panels_frame_refl : Reflexive panels_frame.
Proof. by intros w. Qed.

#[local] Instance panels_frame_trans : Transitive panels_frame.
Proof.
  intros w1 w2 w3 (?&?&?&Hi) (?&?&?&Hi').
  do 3 (split; [congruence|]). intros p. split.
  - rewrite (proj1 (Hi' p)). apply Hi.
  - rewrite (proj2 (Hi' p)). apply Hi.
Qed.

Lemma owned_frame_updateBreakpointsMaxSize (w : World) :
  owned_frame w (exec updateBreakpointsMaxSize w).
Proof. unfold updateBreakpointsMaxSize, exec. by destruct (breakpointView w). Qed.

Ltac frame_trace :=
  unfold owned_frame; cbn;
  repeat split; try done; intros;
  rewrite ?instances_snoc, ?menus_snoc; cbn; rewrite ?app_nil_r; done.

Lemma owned_frame_addPanels (ps : list PanelToAdd) (w : World) :
  owned_frame w (exec (addPanels ps) w).
Proof.
  unfold addPanels. rewrite exec_bind. trans (exec (super_addPanels ps) w).
  - apply (forEach_frame owned_frame). intros a w' _. by run_monad.
  - apply (forEach_frame owned_frame). intros a w' _.
    unfold addPanels_each. rewrite exec_bind. unfold result at 1, get at 1; cbn.
    case_bool_decide.
    + rewrite exec_bind. etrans; [|apply owned_frame_updateBreakpointsMaxSize].
      by run_monad.
    + by run_monad.
Qed.

Lemma owned_frame_removePanels (ps : list loc) (w : World) :
  owned_frame w (exec (removePanels ps) w).
Proof.
  unfold removePanels. rewrite exec_bind. trans (exec (super_removePanels ps) w).
  - apply (forEach_frame owned_frame). intros a w' _. by run_monad.
  - apply (forEach_frame owned_frame). intros a w' _.
    unfold removePanels_each, dispose. run_monad.
    destruct (panelListeners w' !! _) as [[]|]; cbn; frame_trace.
Qed.

Lemma owned_frame_fire (p : loc) (w : World) :
  owned_frame w (exec (fire_onDidChange p) w).
Proof.
  unfold fire_onDidChange. rewrite exec_bind.
  apply (forEach_frame owned_frame). intros. apply owned_frame_updateBreakpointsMaxSize.
Qed.

Lemma owned_frame_step (c : Call) (w : World) :
  c ≠ call_getActions → c ≠ call_getSecondaryActions →
  owned_frame w (exec (step c) w).
Proof.
  intros H1 H2. destruct c; try done; cbn [step].
  - unfold focus. run_monad. destruct (startDebugActionItem w); cbn; frame_trace.
  - unfold focusView, getView. run_monad. destruct (head _); cbn; frame_trace.
  - unfold getActionItem. run_monad.
    repeat (case_bool_decide; cbn); frame_trace.
  - apply owned_frame_addPanels.
  - apply owned_frame_removePanels.
  - unfold onDebugServiceStateChange, runner_done, progressService_show, updateTitleArea.
    run_monad.
    destruct (progressRunner w); cbn; repeat (case_bool_decide; cbn); frame_trace.
  - unfold updateTitleArea. run_monad. frame_trace.
  - destruct toolBarLocation' as [v|]; unfold updateTitleArea; run_monad; frame_trace.
  - apply owned_frame_fire.
  - unfold setExpanded. rewrite exec_bind. etrans; [|apply owned_frame_fire]. by run_monad.
Qed.

(** ** Memoized getters *)

(** The shape the four getters share. *)
Lemma memoize_hit key body w a :
  memoized w !! key = Some a → memoize key body w = (a, w).
Proof. intros H. unfold memoize. by rewrite H. Qed.

Lemma memoize_created key c id label w :
  memoized w !! key = None →
  let a := {| action_class := c; action_id := id; action_label := label;
              action_obj := nextObj w |} in
  memoize key (a ← createInstance c id label; _register (ActionHandle a);; mret a) w =
  (a, set_memoized (insert key a)
        (set_toDispose (λ l, l ++ [ActionHandle a])
           (set_trace (λ t, t ++ [CreateInstance c (nextObj w)])
              (set_nextObj (S (nextObj w)) w)))).
Proof. intros H. unfold memoize, createInstance, _register. by rewrite H. Qed.

Lemma elem_of_memoized_getters g :
  g ∈ memoized_getters ↔
  g = ("startAction", StartAction, StartAction_ID)
  ∨ g = ("configureAction", ConfigureAction, ConfigureAction_ID)
  ∨ g = ("toggleReplAction", ToggleReplAction, ToggleReplAction_ID)
  ∨ g = ("selectAndStartAction", SelectAndStartAction, SelectAndStartAction_ID).
Proof. unfold memoized_getters. rewrite !elem_of_cons, elem_of_nil. tauto. Qed.

(** Distinct getters have distinct properties and distinct classes. *)
Lemma memoized_getters_apart g g' :
  g ∈ memoized_getters → g' ∈ memoized_getters →
  (g.1.1 = g'.1.1 → g = g') ∧ (g.1.2 = g'.1.2 → g = g').
Proof.
  rewrite !elem_of_memoized_getters.
  intros [-> | [-> | [-> | ->]]] [-> | [-> | [-> | ->]]]; split; cbn; intros; done.
Qed.

Lemma memoize_owned_inv key c id label w :
  (key, c, id) ∈ memoized_getters →
  owned_inv w →
  let m := memoize key (a ← createInstance c id label;
                        _register (ActionHandle a);; mret a) in
  owned_inv (exec m w)
  ∧ memoized (exec m w) !! key = Some (result m w)
  ∧ action_class (result m w) = c ∧ action_id (result m w) = id
  ∧ panels_frame w (exec m w)
  ∧ debugService_state (exec m w) = debugService_state w
  ∧ toolBarLocation (exec m w) = toolBarLocation w
  ∧ debugToolbarMenu (exec m w) = debugToolbarMenu w
  ∧ (∀ key' a, memoized w !! key' = Some a → memoized (exec m w) !! key' = Some a).
Proof.
  intros Hin [Hmemo Hmenu] m.
  destruct (memoized w !! key) as [a|] eqn:Hkey.
  - unfold exec, result, m. rewrite (memoize_hit _ _ _ _ Hkey). cbn.
    pose proof (proj1 (list.Forall_forall _ _) Hmemo _ Hin) as Hg.
    unfold memo_inv in Hg. cbn in Hg. rewrite Hkey in Hg.
    destruct Hg as (?&?&?&?).
    split; [by split|].
    repeat split; done.
  - unfold exec, result, m. rewrite (memoize_created _ _ _ _ _ Hkey). cbn.
    split; [|repeat split; try done].
    + split.
      * rewrite list.Forall_forall in Hmemo |- *. intros g Hg.
        pose proof (Hmemo _ Hg) as Hold.
        pose proof (memoized_getters_apart _ _ Hin Hg) as [Hk Hc]. cbn in Hk, Hc.
        unfold memo_inv in *. cbn.
        destruct (decide (key = g.1.1)) as [Heq|Hne].
        -- specialize (Hk Heq). subst g. cbn in *.
           rewrite lookup_insert_eq. cbn. rewrite Hkey in Hold.
           rewrite instances_snoc, Hold, decide_True by done.
           repeat split; try done. (rewrite elem_of_app, elem_of_cons; auto).
        -- rewrite lookup_insert_ne by done.
           assert (c ≠ g.1.2) as Hcne by (intros Heq; apply Hne; by rewrite <- (Hc Heq)).
           rewrite instances_snoc, decide_False, app_nil_r by done.
           destruct (memoized w !! g.1.1); [|done].
           destruct Hold as (?&?&?&?). repeat split; try done. (rewrite elem_of_app, elem_of_cons; auto).
      * unfold menu_inv in *. cbn. rewrite menus_snoc, app_nil_r.
        destruct (debugToolbarMenu w); [|done].
        destruct Hmenu as (?&?&?). repeat split; try done. (rewrite elem_of_app, elem_of_cons; auto).
    + by rewrite lookup_insert_eq.
    + intros key' a Ha. rewrite lookup_insert_ne; [done|congruence].
Qed.

(** ** The action lists *)

Lemma getActions_initial (w : World) :
  showInitialDebugActions w = true →
  getActions w =
  (a ← startAction; b ← configureAction; c ← toggleReplAction; mret [a; b; c]) w.
Proof. intros H. unfold getActions, mbind, M_bind, get. by rewrite H. Qed.

Lemma getActions_docked (w : World) :
  showInitialDebugActions w = false →
  getActions w =
  match debugToolbarMenu w with
  | Some m => (DebugToolbar_getActions m (debugService_state w), w)
  | None =>
      let m := {| menu_id := DebugToolbar; menu_obj := nextObj w |} in
      (DebugToolbar_getActions m (debugService_state w),
       set_toDispose (λ l, l ++ [MenuHandle m])
         (set_debugToolbarMenu (Some m)
            (set_trace (λ t, t ++ [CreateMenu m])
               (set_nextObj (S (nextObj w)) w))))
  end.
Proof.
  intros H. unfold getActions, createMenu. run_monad. rewrite H.
  by destruct (debugToolbarMenu w).
Qed.

Lemma getSecondaryActions_initial (w : World) :
  showInitialDebugActions w = true → getSecondaryActions w = ([], w).
Proof. intros H. unfold getSecondaryActions, mbind, M_bind, get. by rewrite H. Qed.

Lemma getSecondaryActions_docked (w : World) :
  showInitialDebugActions w = false →
  getSecondaryActions w =
  (a ← selectAndStartAction; b ← configureAction; c ← toggleReplAction;
   mret [a; b; c]) w.
Proof. intros H. unfold getSecondaryActions, mbind, M_bind, get. by rewrite H. Qed.

(** Three memoized getters read in a row. *)
Lemma three_getters (w : World) k1 c1 i1 l1 k2 c2 i2 l2 k3 c3 i3 l3 :
  (k1, c1, i1) ∈ memoized_getters → (k2, c2, i2) ∈ memoized_getters →
  (k3, c3, i3) ∈ memoized_getters →
  owned_inv w →
  let g k c i l := memoize k (a ← createInstance c i l;
                              _register (ActionHandle a);; mret a) in
  let m := a ← g k1 c1 i1 l1; b ← g k2 c2 i2 l2; c ← g k3 c3 i3 l3; mret [a; b; c] in
  owned_inv (exec m w)
  ∧ panels_frame w (exec m w)
  ∧ debugToolbarMenu (exec m w) = debugToolbarMenu w
  ∧ (∀ key a, memoized w !! key = Some a → memoized (exec m w) !! key = Some a)
  ∧ ∃ a b c, result m w = [a; b; c]
      ∧ is_action c1 i1 a ∧ is_action c2 i2 b ∧ is_action c3 i3 c
      ∧ memoized (exec m w) !! k1 = Some a
      ∧ memoized (exec m w) !! k2 = Some b
      ∧ memoized (exec m w) !! k3 = Some c.
Proof.
  intros H1 H2 H3 Hinv g m.
  destruct (memoize_owned_inv k1 c1 i1 l1 w H1 Hinv)
    as (Hinv1 & Hm1 & Hc1 & Hi1 & Hf1 & _ & _ & Hmenu1 & Hst1).
  fold (g k1 c1 i1 l1) in Hinv1, Hm1, Hc1, Hi1, Hf1, Hmenu1, Hst1.
  set (w1 := exec (g k1 c1 i1 l1) w) in *.
  destruct (memoize_owned_inv k2 c2 i2 l2 w1 H2 Hinv1)
    as (Hinv2 & Hm2 & Hc2 & Hi2 & Hf2 & _ & _ & Hmenu2 & Hst2).
  fold (g k2 c2 i2 l2) in Hinv2, Hm2, Hc2, Hi2, Hf2, Hmenu2, Hst2.
  set (w2 := exec (g k2 c2 i2 l2) w1) in *.
  destruct (memoize_owned_inv k3 c3 i3 l3 w2 H3 Hinv2)
    as (Hinv3 & Hm3 & Hc3 & Hi3 & Hf3 & _ & _ & Hmenu3 & Hst3).
  fold (g k3 c3 i3 l3) in Hinv3, Hm3, Hc3, Hi3, Hf3, Hmenu3, Hst3.
  set (w3 := exec (g k3 c3 i3 l3) w2) in *.
  assert (He : exec m w = w3).
  { unfold m. by rewrite !exec_bind. }
  assert (Hr : result m w = [result (g k1 c1 i1 l1) w; result (g k2 c2 i2 l2) w1;
                             result (g k3 c3 i3 l3) w2]).
  { unfold m. by rewrite !result_bind. }
  rewrite He, Hr. split; [done|]. split; [by repeat (etrans; [eassumption|])|].
  split; [congruence|]. split; [by auto|].
  eexists _, _, _. split; [done|]. unfold is_action. repeat split; auto.
Qed.

Lemma in_getters_start : ("startAction", StartAction, StartAction_ID) ∈ memoized_getters.
Proof. apply elem_of_memoized_getters. auto. Qed.
Lemma in_getters_configure :
  ("configureAction", ConfigureAction, ConfigureAction_ID) ∈ memoized_getters.
Proof. apply elem_of_memoized_getters. auto. Qed.
Lemma in_getters_toggleRepl :
  ("toggleReplAction", ToggleReplAction, ToggleReplAction_ID) ∈ memoized_getters.
Proof. apply elem_of_memoized_getters. auto. Qed.
Lemma in_getters_selectAndStart :
  ("selectAndStartAction", SelectAndStartAction, SelectAndStartAction_ID) ∈ memoized_getters.
Proof. apply elem_of_memoized_getters. auto 10. Qed.

Lemma owned_inv_frame (w w' : World) :
  owned_frame w w' → owned_inv w → owned_inv w'.
Proof.
  intros (Hm & Hmenu & Hd & Hi & Hms) [Hmemo Hmi]. split.
  - eapply list.Forall_impl; [exact Hmemo|]. intros g Hg.
    unfold memo_inv in *. by rewrite Hm, Hd, Hi.
  - unfold menu_inv in *. by rewrite Hmenu, Hd, Hms.
Qed.

Lemma owned_inv_getActions (w : World) :
  owned_inv w →
  owned_inv (exec getActions w)
  ∧ (∀ key a, memoized w !! key = Some a →
       memoized (exec getActions w) !! key = Some a)
  ∧ (∀ m, debugToolbarMenu w = Some m → debugToolbarMenu (exec getActions w) = Some m).
Proof.
  intros Hinv. destruct (showInitialDebugActions w) eqn:Hshow.
  - unfold exec. rewrite (getActions_initial _ Hshow).
    destruct (three_getters w _ _ _ StartAction_LABEL _ _ _ ConfigureAction_LABEL
                _ _ _ (nls_localize "debugConsoleAction" "Debug Console")
                in_getters_start in_getters_configure in_getters_toggleRepl Hinv)
      as (H1 & _ & H2 & H3 & _).
    split; [exact H1|]. split; [exact H3|]. intros m Hm.
    unfold exec in H2. unfold startAction, configureAction, toggleReplAction.
    by rewrite H2.
  - unfold exec. rewrite (getActions_docked _ Hshow).
    destruct Hinv as [Hmemo Hmenu].
    destruct (debugToolbarMenu w) as [m|] eqn:Hm; cbn.
    { unfold menu_inv in Hmenu. rewrite Hm in Hmenu.
      split; [split; [done|by unfold menu_inv; rewrite Hm]|]. by rewrite Hm. }
    split; [split|done].
    + eapply list.Forall_impl; [exact Hmemo|]. intros g Hg. unfold memo_inv in *. cbn.
      rewrite instances_snoc, app_nil_r.
      destruct (memoized w !! g.1.1); [|done].
      destruct Hg as (?&?&?&?). repeat split; try done.
      rewrite elem_of_app; auto.
    + unfold menu_inv in *. cbn. rewrite Hm in Hmenu.
      rewrite menus_snoc, Hmenu. repeat split; try done.
      rewrite elem_of_app, elem_of_cons; auto.
Qed.

Lemma owned_inv_getSecondaryActions (w : World) :
  owned_inv w →
  owned_inv (exec getSecondaryActions w)
  ∧ (∀ key a, memoized w !! key = Some a →
       memoized (exec getSecondaryActions w) !! key = Some a)
  ∧ (∀ m, debugToolbarMenu w = Some m →
       debugToolbarMenu (exec getSecondaryActions w) = Some m).
Proof.
  intros Hinv. destruct (showInitialDebugActions w) eqn:Hshow.
  - unfold exec. by rewrite (getSecondaryActions_initial _ Hshow).
  - unfold exec. rewrite (getSecondaryActions_docked _ Hshow).
    destruct (three_getters w _ _ _
                (nls_localize "startAdditionalSession" "Start Additional Session")
                _ _ _ ConfigureAction_LABEL
                _ _ _ (nls_localize "debugConsoleAction" "Debug Console")
                in_getters_selectAndStart in_getters_configure in_getters_toggleRepl Hinv)
      as (H1 & _ & H2 & H3 & _).
    split; [exact H1|]. split; [exact H3|]. intros m Hm.
    unfold exec in H2. unfold selectAndStartAction, configureAction, toggleReplAction.
    by rewrite H2.
Qed.

Lemma exec_discard {A} (m : M A) (w : World) :
  exec (m ≫= λ _, mret tt) w = exec m w.
Proof. unfold exec, mbind, M_bind, mret, M_ret. by destruct (m w). Qed.

Lemma owned_inv_step (c : Call) (w : World) :
  owned_inv w →
  owned_inv (exec (step c) w)
  ∧ (∀ key a, memoized w !! key = Some a →
       memoized (exec (step c) w) !! key = Some a)
  ∧ (∀ m, debugToolbarMenu w = Some m → debugToolbarMenu (exec (step c) w) = Some m).
Proof.
  intros Hinv.
  assert (c ≠ call_getActions → c ≠ call_getSecondaryActions →
          owned_inv (exec (step c) w)
          ∧ (∀ key a, memoized w !! key = Some a →
               memoized (exec (step c) w) !! key = Some a)
          ∧ (∀ m, debugToolbarMenu w = Some m →
               debugToolbarMenu (exec (step c) w) = Some m)) as Hother.
  { intros H1 H2. pose proof (owned_frame_step c w H1 H2) as Hf.
    split; [by eapply owned_inv_frame|].
    destruct Hf as (Hm & Hmenu & _). by rewrite Hm, Hmenu. }
  destruct c; try (by apply Hother); cbn [step]; rewrite exec_discard.
  - by apply owned_inv_getActions.
  - by apply owned_inv_getSecondaryActions.
Qed.

Lemma owned_inv_constructor state location σ next :
  owned_inv (constructor state location σ next).
Proof.
  split; [|done]. unfold memoized_getters, memo_inv. cbn.
  repeat constructor.
Qed.

Lemma owned_inv_run (cs : list Call) (w : World) :
  owned_inv w →
  owned_inv (run cs w)
  ∧ (∀ key a, memoized w !! key = Some a → memoized (run cs w) !! key = Some a)
  ∧ (∀ m, debugToolbarMenu w = Some m → debugToolbarMenu (run cs w) = Some m).
Proof.
  revert w. induction cs as [|c cs IH]; intros w Hinv; [done|].
  change (run (c :: cs) w) with (run cs (exec (step c) w)).
  destruct (owned_inv_step c w Hinv) as (H1 & H2 & H3).
  destruct (IH _ H1) as (H4 & H5 & H6). auto.
Qed.

Lemma getter_stable key c id label (w : World) (cs : list Call) :
  (key, c, id) ∈ memoized_getters → owned_inv w →
  let m := memoize key (a ← createInstance c id label;
                        _register (ActionHandle a);; mret a) in
  result m (run cs (exec m w)) = result m w.
Proof.
  intros Hin Hinv m.
  destruct (memoize_owned_inv key c id label w Hin Hinv) as (Hinv1 & Hm & _).
  destruct (owned_inv_run cs _ Hinv1) as (_ & Hst & _).
  unfold result at 1, m at 1. by rewrite (memoize_hit _ _ _ _ (Hst _ _ Hm)).
Qed.

(** C3.  In every state the viewlet can be in, [getActions] returns the Start,
    Configure and ToggleDebugConsole actions, in that order, when
    [showInitialDebugActions] holds (they are the memoized instances), and
    otherwise what [DebugToolbar.getActions] lists for the viewlet's debug
    toolbar menu, the menu created for [MenuId.DebugToolbar]. *)
Theorem getActions_spec state location σ next (cs : list Call) :
  let w := run cs (constructor state location σ next) in
  if showInitialDebugActions w then
    ∃ a b c, result getActions w = [a; b; c]
      ∧ is_action StartAction StartAction_ID a
      ∧ is_action ConfigureAction ConfigureAction_ID b
      ∧ is_action ToggleReplAction ToggleReplAction_ID c
      ∧ memoized (exec getActions w) !! "startAction" = Some a
      ∧ memoized (exec getActions w) !! "configureAction" = Some b
      ∧ memoized (exec getActions w) !! "toggleReplAction" = Some c
  else
    ∃ m, menu_id m = DebugToolbar
      ∧ debugToolbarMenu (exec getActions w) = Some m
      ∧ result getActions w = DebugToolbar_getActions m (debugService_state w).
Proof.
  intros w.
  destruct (owned_inv_run cs _ (owned_inv_constructor state location σ next))
    as (Hinv & _). fold w in Hinv.
  destruct (showInitialDebugActions w) eqn:Hshow.
  - unfold result, exec. rewrite (getActions_initial _ Hshow).
    by destruct (three_getters w _ _ _ StartAction_LABEL _ _ _ ConfigureAction_LABEL
                _ _ _ (nls_localize "debugConsoleAction" "Debug Console")
                in_getters_start in_getters_configure in_getters_toggleRepl Hinv)
      as (_ & _ & _ & _ & H).
  - unfold result, exec. rewrite (getActions_docked _ Hshow).
    destruct Hinv as [_ Hmenu]. unfold menu_inv in Hmenu.
    destruct (debugToolbarMenu w) as [m|] eqn:Hm; cbn.
    + exists m. by destruct Hmenu as (? & _).
    + by exists {| menu_id := DebugToolbar; menu_obj := nextObj w |}.
Qed.

(** C5.  In every state the viewlet can be in, [getSecondaryActions] returns
    the empty list when [showInitialDebugActions] holds, and otherwise the
    Select-and-Start, Configure and ToggleDebugConsole actions, in that
    order. *)
Theorem getSecondaryActions_spec state location σ next (cs : list Call) :
  let w := run cs (constructor state location σ next) in
  if showInitialDebugActions w then
    result getSecondaryActions w = []
  else
    ∃ a b c, result getSecondaryActions w = [a; b; c]
      ∧ is_action SelectAndStartAction SelectAndStartAction_ID a
      ∧ is_action ConfigureAction ConfigureAction_ID b
      ∧ is_action ToggleReplAction ToggleReplAction_ID c
      ∧ memoized (exec getSecondaryActions w) !! "selectAndStartAction" = Some a
      ∧ memoized (exec getSecondaryActions w) !! "configureAction" = Some b
      ∧ memoized (exec getSecondaryActions w) !! "toggleReplAction" = Some c.
Proof.
  intros w.
  destruct (owned_inv_run cs _ (owned_inv_constructor state location σ next))
    as (Hinv & _). fold w in Hinv.
  destruct (showInitialDebugActions w) eqn:Hshow.
  - unfold result. by rewrite (getSecondaryActions_initial _ Hshow).
  - unfold result, exec. rewrite (getSecondaryActions_docked _ Hshow).
    by destruct (three_getters w _ _ _
                (nls_localize "startAdditionalSession" "Start Additional Session")
                _ _ _ ConfigureAction_LABEL
                _ _ _ (nls_localize "debugConsoleAction" "Debug Console")
                in_getters_selectAndStart in_getters_configure in_getters_toggleRepl Hinv)
      as (_ & _ & _ & _ & H).
Qed.

Lemma getter_registers key c id label (w : World) (cs : list Call) :
  (key, c, id) ∈ memoized_getters → owned_inv w →
  let m := memoize key (a ← createInstance c id label;
                        _register (ActionHandle a);; mret a) in
  is_action c id (result m w)
  ∧ instances c (trace (run cs (exec m w))) = [action_obj (result m w)]
  ∧ ActionHandle (result m w) ∈ toDispose (run cs (exec m w)).
Proof.
  intros Hin Hinv m.
  destruct (memoize_owned_inv key c id label w Hin Hinv) as (Hinv1 & Hm & Hc & Hid & _).
  fold m in Hinv1, Hm, Hc, Hid.
  destruct (owned_inv_run cs _ Hinv1) as ([Hmemo _] & Hst & _).
  rewrite list.Forall_forall in Hmemo. specialize (Hmemo _ Hin).
  unfold memo_inv in Hmemo. cbn in Hmemo. rewrite (Hst _ _ Hm) in Hmemo.
  by destruct Hmemo as (_ & _ & ? & ?).
Qed.

(** C8.  Whatever is called on a viewlet after its construction: the
    instantiation service has created at most one action of each of the four
    memoized classes and the menu service at most one menu; each one created
    is among what the viewlet disposes; a getter read again, after any
    further calls, returns the instance of its first read; and the menu a
    [getActions] outside initial mode leaves stored stays the stored one.
    Reading a getter leaves its instance created, once, and registered for
    disposal, and so does [getActions] outside initial mode for the menu;
    they stay so whatever is called afterwards. *)
Theorem created_at_most_once state location σ next (cs : list Call) :
  let w := run cs (constructor state location σ next) in
  ((length (instances StartAction (trace w)) ≤ 1)%nat
   ∧ (length (instances ConfigureAction (trace w)) ≤ 1)%nat
   ∧ (length (instances ToggleReplAction (trace w)) ≤ 1)%nat
   ∧ (length (instances SelectAndStartAction (trace w)) ≤ 1)%nat
   ∧ (length (menus (trace w)) ≤ 1)%nat)
  ∧ (∀ c o, c ∈ [StartAction; ConfigureAction; ToggleReplAction; SelectAndStartAction] →
       o ∈ instances c (trace w) →
       ∃ a, action_class a = c ∧ action_obj a = o ∧ ActionHandle a ∈ toDispose w)
  ∧ (∀ m, m ∈ menus (trace w) →
       debugToolbarMenu w = Some m ∧ MenuHandle m ∈ toDispose w)
  ∧ (∀ cs',
       result startAction (run cs' (exec startAction w)) = result startAction w
       ∧ result configureAction (run cs' (exec configureAction w))
         = result configureAction w
       ∧ result toggleReplAction (run cs' (exec toggleReplAction w))
         = result toggleReplAction w
       ∧ result selectAndStartAction (run cs' (exec selectAndStartAction w))
         = result selectAndStartAction w)
  ∧ (∀ cs', showInitialDebugActions w = false →
       ∃ m, debugToolbarMenu (exec getActions w) = Some m
            ∧ debugToolbarMenu (run cs' (exec getActions w)) = Some m
            ∧ menus (trace (run cs' (exec getActions w))) = [m])
  ∧ (∀ cs',
       (is_action StartAction StartAction_ID (result startAction w)
        ∧ instances StartAction (trace (run cs' (exec startAction w)))
          = [action_obj (result startAction w)]
        ∧ ActionHandle (result startAction w)
          ∈ toDispose (run cs' (exec startAction w)))
       ∧ (is_action ConfigureAction ConfigureAction_ID (result configureAction w)
          ∧ instances ConfigureAction (trace (run cs' (exec configureAction w)))
            = [action_obj (result configureAction w)]
          ∧ ActionHandle (result configureAction w)
            ∈ toDispose (run cs' (exec configureAction w)))
       ∧ (is_action ToggleReplAction ToggleReplAction_ID (result toggleReplAction w)
          ∧ instances ToggleReplAction (trace (run cs' (exec toggleReplAction w)))
            = [action_obj (result toggleReplAction w)]
          ∧ ActionHandle (result toggleReplAction w)
            ∈ toDispose (run cs' (exec toggleReplAction w)))
       ∧ (is_action SelectAndStartAction SelectAndStartAction_ID
            (result selectAndStartAction w)
          ∧ instances SelectAndStartAction
              (trace (run cs' (exec selectAndStartAction w)))
            = [action_obj (result selectAndStartAction w)]
          ∧ ActionHandle (result selectAndStartAction w)
            ∈ toDispose (run cs' (exec selectAndStartAction w)))
       ∧ (showInitialDebugActions w = false →
          ∃ m, debugToolbarMenu (exec getActions w) = Some m
               ∧ menu_id m = DebugToolbar
               ∧ menus (trace (run cs' (exec getActions w))) = [m]
               ∧ MenuHandle m ∈ toDispose (run cs' (exec getActions w)))).
Proof.
  intros w.
  destruct (owned_inv_run cs _ (owned_inv_constructor state location σ next))
    as (Hinv & _). fold w in Hinv.
  pose proof Hinv as [Hmemo Hmenu].
  rewrite list.Forall_forall in Hmemo.
  assert (Hg : ∀ g, g ∈ memoized_getters →
            (length (instances g.1.2 (trace w)) ≤ 1)%nat
            ∧ ∀ o, o ∈ instances g.1.2 (trace w) →
                ∃ a, action_class a = g.1.2 ∧ action_obj a = o
                     ∧ ActionHandle a ∈ toDispose w).
  { intros g Hin. specialize (Hmemo g Hin). unfold memo_inv in Hmemo.
    destruct (memoized w !! g.1.1) as [a|].
    - destruct Hmemo as (Hc & _ & -> & Hd). split; [cbn; lia|].
      intros o Ho. apply list_elem_of_singleton in Ho as ->. by exists a.
    - rewrite Hmemo. split; [cbn; lia|]. intros o Ho. by apply elem_of_nil in Ho. }
  assert (Hm : (length (menus (trace w)) ≤ 1)%nat
               ∧ ∀ m, m ∈ menus (trace w) →
                   debugToolbarMenu w = Some m ∧ MenuHandle m ∈ toDispose w).
  { unfold menu_inv in Hmenu. destruct (debugToolbarMenu w) as [m|].
    - destruct Hmenu as (_ & -> & ?). split; [cbn; lia|].
      intros m' Hm'. by apply list_elem_of_singleton in Hm' as ->.
    - rewrite Hmenu. split; [cbn; lia|]. intros m' Hm'. by apply elem_of_nil in Hm'. }
  split; [|split; [|split; [|split; [|split]]]].
  - split; [apply (Hg _ in_getters_start)|].
    split; [apply (Hg _ in_getters_configure)|].
    split; [apply (Hg _ in_getters_toggleRepl)|].
    split; [apply (Hg _ in_getters_selectAndStart)|apply Hm].
  - intros c o Hc. rewrite !elem_of_cons, elem_of_nil in Hc.
    destruct Hc as [-> | [-> | [-> | [-> | []]]]].
    + apply (Hg _ in_getters_start).
    + apply (Hg _ in_getters_configure).
    + apply (Hg _ in_getters_toggleRepl).
    + apply (Hg _ in_getters_selectAndStart).
  - apply Hm.
  - intros cs'. repeat split.
    + apply (getter_stable _ _ _ _ _ _ in_getters_start Hinv).
    + apply (getter_stable _ _ _ _ _ _ in_getters_configure Hinv).
    + apply (getter_stable _ _ _ _ _ _ in_getters_toggleRepl Hinv).
    + apply (getter_stable _ _ _ _ _ _ in_getters_selectAndStart Hinv).
  - intros cs' Hshow.
    destruct (owned_inv_getActions w Hinv) as (Hinv1 & _ & _).
    assert (∃ m, debugToolbarMenu (exec getActions w) = Some m) as [m Hsome].
    { unfold exec. rewrite (getActions_docked _ Hshow).
      destruct (debugToolbarMenu w) eqn:E; cbn; eauto. }
    exists m. split; [done|].
    destruct (owned_inv_run cs' _ Hinv1) as ([_ Hmenu'] & _ & Hst).
    specialize (Hst _ Hsome). split; [done|].
    unfold menu_inv in Hmenu'. rewrite Hst in Hmenu'. by destruct Hmenu' as (_ & ? & _).
  - intros cs'.
    split; [apply (getter_registers _ _ _ _ _ _ in_getters_start Hinv)|].
    split; [apply (getter_registers _ _ _ _ _ _ in_getters_configure Hinv)|].
    split; [apply (getter_registers _ _ _ _ _ _ in_getters_toggleRepl Hinv)|].
    split; [apply (getter_registers _ _ _ _ _ _ in_getters_selectAndStart Hinv)|].
    intros Hshow.
    destruct (owned_inv_getActions w Hinv) as (Hinv1 & _ & _).
    assert (∃ m, debugToolbarMenu (exec getActions w) = Some m) as [m Hsome].
    { unfold exec. rewrite (getActions_docked _ Hshow).
      destruct (debugToolbarMenu w) eqn:E; cbn; eauto. }
    exists m. split; [done|].
    destruct (owned_inv_run cs' _ Hinv1) as ([_ Hmenu'] & _ & Hst).
    specialize (Hst _ Hsome).
    unfold menu_inv in Hmenu'. rewrite Hst in Hmenu'. exact Hmenu'.
Qed.

(** ** The panels *)

Lemma alter_at (f : ViewletPanel → ViewletPanel) (p q : loc) (σ : loc → ViewletPanel) :
  alter f p σ q = if decide (p = q) then f (σ q) else σ q.
Proof.
  destruct (decide (p = q)) as [->|Hne].
  - apply fn_lookup_alter.
  - by apply fn_lookup_alter_ne.
Qed.

Lemma allOtherCollapsed_spec (w : World) (bp : loc) :
  forallb (λ view, negb (isExpanded (heap w view)) || bool_decide (view = bp)) (panels w)
  = true ↔ all_other_collapsed w bp.
Proof.
  unfold all_other_collapsed. rewrite forallb_forall. split.
  - intros H v Hv Hne. apply list_elem_of_In, H in Hv.
    apply orb_true_iff in Hv as [Hv|Hv].
    + by apply negb_true_iff in Hv.
    + by apply bool_decide_eq_true in Hv.
  - intros H v Hv. apply list_elem_of_In in Hv.
    destruct (decide (v = bp)) as [->|Hne].
    + rewrite bool_decide_eq_true_2 by done. apply orb_true_r.
    + by rewrite (H v Hv Hne).
Qed.

(** What [updateBreakpointsMaxSize] does: one assignment to the stored
    panel's maximum body size, and nothing else. *)
Lemma updateBreakpointsMaxSize_eq (w : World) :
  exec updateBreakpointsMaxSize w =
  match breakpointView w with
  | Some bp =>
      set_heap (alter (set_maximumBodySize
        (if forallb (λ view, negb (isExpanded (heap w view)) || bool_decide (view = bp))
                    (panels w)
         then POSITIVE_INFINITY else minimumBodySize (heap w bp))) bp) w
  | None => w
  end.
Proof. unfold exec, updateBreakpointsMaxSize. by destruct (breakpointView w). Qed.

Lemma panels_frame_updateBreakpointsMaxSize (w : World) :
  panels_frame w (exec updateBreakpointsMaxSize w).
Proof.
  rewrite updateBreakpointsMaxSize_eq. destruct (breakpointView w) as [bp|]; [|done].
  repeat split; try done; cbn; rewrite alter_at; by destruct (decide _).
Qed.

Lemma updateBreakpointsMaxSize_sized (w : World) (bp : loc) :
  breakpointView w = Some bp → sized (exec updateBreakpointsMaxSize w) bp.
Proof.
  intros Hbp. rewrite updateBreakpointsMaxSize_eq, Hbp.
  assert (Hiff : ∀ size,
    all_other_collapsed (set_heap (alter (set_maximumBodySize size) bp) w) bp
    ↔ all_other_collapsed w bp).
  { intros size. unfold all_other_collapsed. cbn.
    split; intros H v Hv Hne; specialize (H v Hv Hne);
      rewrite alter_at in *; by destruct (decide _). }
  unfold sized. rewrite Hiff. cbn. rewrite alter_at, decide_True by done. cbn.
  destruct (forallb _ _) eqn:Hall.
  - split; [done|]. intros Hn. by apply allOtherCollapsed_spec in Hall.
  - split; [|done]. intros Hy. apply allOtherCollapsed_spec in Hy. congruence.
Qed.

Lemma panels_frame_fire (p : loc) (w : World) :
  panels_frame w (exec (fire_onDidChange p) w).
Proof.
  unfold fire_onDidChange. rewrite exec_bind.
  apply (forEach_frame panels_frame). intros. apply panels_frame_updateBreakpointsMaxSize.
Qed.

Lemma panels_frame_setExpanded (p : loc) (b : bool) (w : World) :
  panels_frame w (exec (setExpanded p b) w).
Proof.
  unfold setExpanded. rewrite exec_bind.
  etrans; [|apply panels_frame_fire].
  repeat split; try done; cbn; rewrite alter_at; by destruct (decide _).
Qed.

Lemma panels_frame_memoize key c id label (w : World) :
  panels_frame w
    (exec (memoize key (a ← createInstance c id label;
                        _register (ActionHandle a);; mret a)) w).
Proof.
  unfold exec. destruct (memoized w !! key) as [a|] eqn:Hkey.
  - by rewrite (memoize_hit _ _ _ _ Hkey).
  - by rewrite (memoize_created _ _ _ _ _ Hkey).
Qed.

Lemma panels_frame_three_getters (w : World) k1 c1 i1 l1 k2 c2 i2 l2 k3 c3 i3 l3 :
  let g k c i l := memoize k (a ← createInstance c i l;
                              _register (ActionHandle a);; mret a) in
  panels_frame w
    (exec (a ← g k1 c1 i1 l1; b ← g k2 c2 i2 l2; c ← g k3 c3 i3 l3; mret [a; b; c]) w).
Proof.
  intros g. rewrite !exec_bind.
  etrans; [apply (panels_frame_memoize k1 c1 i1 l1)|].
  etrans; [apply (panels_frame_memoize k2 c2 i2 l2)|].
  etrans; [apply (panels_frame_memoize k3 c3 i3 l3)|]. done.
Qed.

(** Every call but [addPanels] and [removePanels] leaves the attached
    panels, the listener map, the breakpoints reference and every panel's id
    and listeners as they are. *)
Lemma panels_frame_step (c : Call) (w : World) :
  (∀ ps, c ≠ call_addPanels ps) → (∀ ps, c ≠ call_removePanels ps) →
  panels_frame w (exec (step c) w).
Proof.
  intros Ha Hr. destruct c; cbn [step]; try done.
  - unfold focus. run_monad. by destruct (startDebugActionItem w).
  - unfold focusView, getView. run_monad. by destruct (head _).
  - rewrite exec_discard.
    destruct (showInitialDebugActions w) eqn:Hshow.
    + unfold exec. rewrite (getActions_initial _ Hshow).
      apply panels_frame_three_getters.
    + unfold exec. rewrite (getActions_docked _ Hshow).
      by destruct (debugToolbarMenu w).
  - rewrite exec_discard.
    destruct (showInitialDebugActions w) eqn:Hshow.
    + unfold exec. by rewrite (getSecondaryActions_initial _ Hshow).
    + unfold exec. rewrite (getSecondaryActions_docked _ Hshow).
      apply panels_frame_three_getters.
  - unfold getActionItem. run_monad. by repeat (case_bool_decide; cbn).
  - by destruct (Ha ps).
  - by destruct (Hr ps).
  - unfold onDebugServiceStateChange, runner_done, progressService_show, updateTitleArea.
    run_monad.
    by destruct (progressRunner w); cbn; repeat (case_bool_decide; cbn).
  - by destruct toolBarLocation' as [v|].
  - apply panels_frame_fire.
  - apply panels_frame_setExpanded.
Qed.

(** *** Attaching and detaching *)

Lemma addPanels_each_eq (a : PanelToAdd) (w : World) :
  exec (addPanels_each a) w =
  let p := panel a in
  let id := panel_id (heap w p) in
  if bool_decide (id = BREAKPOINTS_VIEW_ID) then
    exec updateBreakpointsMaxSize (set_breakpointView (Some p) w)
  else
    set_panelListeners (insert id (ListenerHandle p (nextObj w)))
      (set_heap (alter (set_onDidChange (λ l, l ++ [nextObj w])) p)
         (set_nextObj (S (nextObj w)) w)).
Proof.
  unfold addPanels_each, panel_onDidChange. cbn zeta.
  rewrite exec_bind. unfold result at 1, get at 1. cbn.
  case_bool_decide; [|done]. by rewrite exec_bind.
Qed.

Lemma removePanels_each_eq (p : loc) (w : World) :
  exec (removePanels_each p) w =
  let id := panel_id (heap w p) in
  set_panelListeners (delete id)
    match panelListeners w !! id with
    | Some d => released d w
    | None => w
    end.
Proof.
  unfold removePanels_each, dispose, released. run_monad.
  by destruct (panelListeners w !! _) as [[]|].
Qed.

Lemma elem_of_splice_in {A} (i : nat) (x y : A) (l : list A) :
  y ∈ splice_in i x l ↔ y = x ∨ y ∈ l.
Proof.
  unfold splice_in. rewrite elem_of_app, elem_of_cons.
  assert (y ∈ l ↔ y ∈ take i l ∨ y ∈ drop i l) as ->; [|tauto].
  by rewrite <- elem_of_app, take_drop.
Qed.

Lemma super_addPanels_eq (ps : list PanelToAdd) (w : World) :
  ∃ l, exec (super_addPanels ps) w = set_panels (λ _, l) w
       ∧ ∀ q, q ∈ l ↔ q ∈ panels w ∨ q ∈ panel <$> ps.
Proof.
  unfold super_addPanels. revert w. induction ps as [|a ps IH]; intros w.
  - exists (panels w). split; [by destruct w|]. intros q. rewrite fmap_nil, elem_of_nil. tauto.
  - rewrite exec_forEach_cons.
    destruct (IH (exec (modify (set_panels (λ l,
                splice_in (default (length l) (index a)) (panel a) l))) w))
      as (l & -> & Hl).
    exists l. split; [done|]. intros q. rewrite Hl. cbn.
    rewrite elem_of_splice_in, elem_of_cons. tauto.
Qed.

Lemma super_removePanels_eq (ps : list loc) (w : World) :
  ∃ l, exec (super_removePanels ps) w = set_panels (λ _, l) w
       ∧ ∀ q, q ∈ l ↔ q ∈ panels w ∧ q ∉ ps.
Proof.
  unfold super_removePanels. revert w. induction ps as [|p ps IH]; intros w.
  - exists (panels w). split; [by destruct w|]. intros q. rewrite elem_of_nil. tauto.
  - rewrite exec_forEach_cons.
    destruct (IH (exec (modify (set_panels (filter (λ q, q ≠ p)))) w)) as (l & -> & Hl).
    exists l. split; [done|]. intros q. rewrite Hl. cbn.
    rewrite list_elem_of_filter, elem_of_cons. tauto.
Qed.

Lemma addPanels_eq (ps : list PanelToAdd) (w : World) :
  exec (addPanels ps) w = exec (forEach ps addPanels_each) (exec (super_addPanels ps) w).
Proof. unfold addPanels. by rewrite exec_bind. Qed.

Lemma removePanels_eq (ps : list loc) (w : World) :
  exec (removePanels ps) w =
  exec (forEach ps removePanels_each) (exec (super_removePanels ps) w).
Proof. unfold removePanels. by rewrite exec_bind. Qed.

(** No call changes the id of a panel. *)
#[local] Instance same_ids_refl : Reflexive same_ids.
Proof. by intros w p. Qed.

#[local] Instance same_ids_trans : Transitive same_ids.
Proof. intros w1 w2 w3 H H' p. by rewrite H', H. Qed.

Lemma same_ids_addPanels (ps : list PanelToAdd) (w : World) :
  same_ids w (exec (addPanels ps) w).
Proof.
  rewrite addPanels_eq. trans (exec (super_addPanels ps) w).
  - by destruct (super_addPanels_eq ps w) as (l & -> & _).
  - apply (forEach_frame same_ids). intros a w' _. rewrite addPanels_each_eq. cbn zeta.
    case_bool_decide.
    + intros p. by rewrite (proj1 (proj2 (proj2 (proj2
        (panels_frame_updateBreakpointsMaxSize _))) p)).
    + intros p. cbn. rewrite alter_at. by destruct (decide _).
Qed.

Lemma same_ids_released (d : IDisposable) (w : World) : same_ids w (released d w).
Proof.
  destruct d; try done. intros q. cbn. rewrite alter_at. by destruct (decide _).
Qed.

Lemma same_ids_removePanels (ps : list loc) (w : World) :
  same_ids w (exec (removePanels ps) w).
Proof.
  rewrite removePanels_eq. trans (exec (super_removePanels ps) w).
  - by destruct (super_removePanels_eq ps w) as (l & -> & _).
  - apply (forEach_frame same_ids). intros a w' _. rewrite removePanels_each_eq. cbn zeta.
    destruct (panelListeners w' !! _) as [d|]; [|done].
    intros q. apply (same_ids_released d w' q).
Qed.

Lemma same_ids_step (c : Call) (w : World) : same_ids w (exec (step c) w).
Proof.
  assert ((∀ ps, c ≠ call_addPanels ps) → (∀ ps, c ≠ call_removePanels ps) →
          same_ids w (exec (step c) w)) as Hother.
  { intros Ha Hr p. apply (panels_frame_step c w Ha Hr). }
  destruct c; try (by apply Hother); cbn [step].
  - apply same_ids_addPanels.
  - apply same_ids_removePanels.
Qed.

Lemma same_ids_run (cs : list Call) (w : World) : same_ids w (run cs w).
Proof.
  revert w. induction cs as [|c cs IH]; intros w; [done|].
  change (run (c :: cs) w) with (run cs (exec (step c) w)).
  etrans; [apply same_ids_step|apply IH].
Qed.

(** *** The listener map *)

Lemma entries_ok_frame (w w' : World) (rest : list loc) :
  panels_frame w w' → entries_ok w rest → entries_ok w' rest.
Proof.
  intros (Hp & Hl & _ & Hh) H k d Hk. rewrite Hl in Hk.
  destruct (H k d Hk) as (p & t & ? & ? & ? & ? & ?). exists p, t.
  destruct (Hh p) as [-> ->]. by rewrite Hp.
Qed.

Lemma covered_frame (w w' : World) (rest : list loc) :
  panels_frame w w' → covered w rest → covered w' rest.
Proof.
  intros (Hp & Hl & _ & Hh) H p. rewrite Hp, Hl, (proj1 (Hh p)). apply H.
Qed.

Lemma addPanels_each_inv (a : PanelToAdd) (w : World) :
  entries_ok w [] → panel a ∈ panels w →
  let w' := exec (addPanels_each a) w in
  entries_ok w' [] ∧ panels w' = panels w
  ∧ ∀ rest, covered w (panel a :: rest) → covered w' rest.
Proof.
  intros He Ha. cbn zeta. rewrite addPanels_each_eq. cbn zeta.
  case_bool_decide as Hid.
  - pose proof (panels_frame_updateBreakpointsMaxSize
                  (set_breakpointView (Some (panel a)) w)) as Hf.
    split; [by apply (entries_ok_frame _ _ _ Hf)|]. split; [apply Hf|].
    intros rest Hc. apply (covered_frame _ _ _ Hf). intros p Hp Hne.
    destruct (Hc p Hp Hne) as [?|Hin]; [by left|].
    apply elem_of_cons in Hin as [->|?]; [done|by right].
  - split; [|split; [done|]].
    + intros k d Hk. cbn in Hk |- *.
      destruct (decide (panel_id (heap w (panel a)) = k)) as [<-|Hne].
      * rewrite lookup_insert_eq in Hk. injection Hk as <-.
        exists (panel a), (nextObj w). rewrite alter_at, decide_True by done. cbn.
        repeat split; try done; [|by left].
        rewrite elem_of_app, elem_of_cons; auto.
      * rewrite lookup_insert_ne in Hk by done.
        destruct (He k d Hk) as (p & t & ? & ? & ? & ? & Hin). exists p, t.
        rewrite alter_at. destruct (decide (panel a = p)); cbn; repeat split; try done.
        rewrite elem_of_app; auto.
    + intros rest Hc p Hp Hne. cbn in Hp, Hne |- *.
      assert (panel_id (alter (set_onDidChange (λ l, l ++ [nextObj w])) (panel a)
                          (heap w) p) = panel_id (heap w p)) as Hsame.
      { rewrite alter_at. by destruct (decide _). }
      rewrite Hsame in Hne |- *.
      destruct (Hc p Hp Hne) as [Hs|Hin].
      * left. rewrite lookup_insert_is_Some. destruct (decide
          (panel_id (heap w (panel a)) = panel_id (heap w p))); auto.
      * apply elem_of_cons in Hin as [->|?]; [|by right].
        left. rewrite lookup_insert_eq. by eexists.
Qed.

Lemma addPanels_loop_inv (ps : list PanelToAdd) (w : World) :
  entries_ok w [] → (∀ a, a ∈ ps → panel a ∈ panels w) →
  let w' := exec (forEach ps addPanels_each) w in
  entries_ok w' [] ∧ panels w' = panels w
  ∧ (covered w (panel <$> ps) → covered w' []).
Proof.
  revert w. induction ps as [|a ps IH]; intros w He Hin; [done|].
  cbn zeta. rewrite exec_forEach_cons.
  destruct (addPanels_each_inv a w He) as (He' & Hp' & Hc'); [apply Hin; by left|].
  destruct (IH _ He') as (? & ? & Hc'').
  - intros b Hb. rewrite Hp'. apply Hin. by right.
  - split; [done|]. split; [congruence|]. intros Hc. by apply Hc'', Hc'.
Qed.

Lemma listeners_inv_addPanels (ps : list PanelToAdd) (w : World) :
  entries_ok w [] →
  let w' := exec (addPanels ps) w in
  entries_ok w' []
  ∧ (∀ q, q ∈ panels w' ↔ q ∈ panels w ∨ q ∈ panel <$> ps)
  ∧ (covered w [] → covered w' []).
Proof.
  intros He. cbn zeta. rewrite addPanels_eq.
  destruct (super_addPanels_eq ps w) as (l & -> & Hl).
  destruct (addPanels_loop_inv ps (set_panels (λ _, l) w)) as (He' & Hp' & Hc').
  - intros k d Hk. destruct (He k d Hk) as (p & t & ? & ? & ? & ? & [Hin|Hin]).
    + exists p, t. repeat split; try done. left. cbn. apply Hl. by left.
    + by apply elem_of_nil in Hin.
  - intros a Ha. cbn. apply Hl. right. by apply list_elem_of_fmap_2.
  - split; [done|]. split; [intros q; rewrite Hp'; apply Hl|].
    intros Hc. apply Hc'. intros p Hp Hne. cbn in Hp. apply Hl in Hp as [Hp|Hp]; [|by right].
    destruct (Hc p Hp Hne) as [?|Hin]; [by left|by apply elem_of_nil in Hin].
Qed.

Lemma removePanels_each_inv (p : loc) (rest : list loc) (w : World) :
  entries_ok w (p :: rest) →
  let w' := exec (removePanels_each p) w in
  entries_ok w' rest ∧ panels w' = panels w ∧ same_ids w w'
  ∧ ((∀ q, q ∈ panels w → panel_id (heap w q) ≠ BREAKPOINTS_VIEW_ID →
          panel_id (heap w q) ≠ panel_id (heap w p)) →
     covered w [] → covered w' []).
Proof.
  intros He. cbn zeta. rewrite removePanels_each_eq. cbn zeta.
  set (id := panel_id (heap w p)).
  assert (Hrel : ∀ q, panel_id (heap w q) ≠ id →
            ∀ w0, w0 = match panelListeners w !! id with
                       | Some d => released d w | None => w end →
            heap w0 q = heap w q).
  { intros q Hq w0 ->. destruct (panelListeners w !! id) as [d|] eqn:Hd; [|done].
    destruct (He id d Hd) as (q0 & t0 & -> & Hid & _). cbn.
    rewrite alter_at, decide_False; [done|]. intros ->. done. }
  assert (Hids : ∀ q, panel_id (heap match panelListeners w !! id with
                       | Some d => released d w | None => w end q)
                      = panel_id (heap w q)).
  { intros q. destruct (panelListeners w !! id) as [d|]; [|done].
    apply same_ids_released. }
  assert (Hpanels : panels match panelListeners w !! id with
                       | Some d => released d w | None => w end = panels w).
  { by destruct (panelListeners w !! id) as [[]|]. }
  assert (Hmap : panelListeners match panelListeners w !! id with
                       | Some d => released d w | None => w end = panelListeners w).
  { by destruct (panelListeners w !! id) as [[]|]. }
  split; [|split; [|split]].
  - intros k d Hk. cbn in Hk |- *. rewrite Hmap in Hk.
    apply lookup_delete_Some in Hk as [Hne Hk].
    destruct (He k d Hk) as (q & t & ? & Hq & ? & ? & Hin). exists q, t.
    rewrite Hpanels, (Hrel q); [|congruence|done].
    repeat split; try done.
    destruct Hin as [?|Hin]; [by left|].
    apply elem_of_cons in Hin as [->|?]; [|by right]. by destruct Hne.
  - done.
  - intros q. apply Hids.
  - intros Hfresh Hc q Hq Hne. cbn in Hq, Hne |- *.
    rewrite Hpanels in Hq. rewrite Hids in Hne |- *. rewrite Hmap.
    destruct (Hc q Hq Hne) as [Hs|Hin]; [|by apply elem_of_nil in Hin].
    left. rewrite lookup_delete_ne; [done|]. intros Heq. by apply (Hfresh q Hq Hne).
Qed.

Lemma removePanels_loop_inv (ps : list loc) (w : World) :
  entries_ok w ps →
  let w' := exec (forEach ps removePanels_each) w in
  entries_ok w' [] ∧ panels w' = panels w ∧ same_ids w w'
  ∧ ((∀ q p, q ∈ panels w → p ∈ ps → panel_id (heap w q) ≠ BREAKPOINTS_VIEW_ID →
          panel_id (heap w q) ≠ panel_id (heap w p)) →
     covered w [] → covered w' []).
Proof.
  revert w. induction ps as [|p ps IH]; intros w He; [done|].
  cbn zeta. rewrite exec_forEach_cons.
  destruct (removePanels_each_inv p ps w He) as (He' & Hp' & Hi' & Hc').
  destruct (IH _ He') as (He'' & Hp'' & Hi'' & Hc'').
  split; [done|]. split; [congruence|]. split; [by etrans|].
  intros Hfresh Hc. apply Hc''.
  - intros q r Hq Hr. rewrite !Hi'. rewrite Hp' in Hq. apply Hfresh; [done|by right].
  - apply Hc'; [|done]. intros q Hq. apply Hfresh; [done|by left].
Qed.

Lemma listeners_inv_removePanels (ps : list loc) (w : World) :
  entries_ok w [] →
  let w' := exec (removePanels ps) w in
  entries_ok w' []
  ∧ (∀ q, q ∈ panels w' ↔ q ∈ panels w ∧ q ∉ ps)
  ∧ ((∀ p q, p ∈ panels w → p ∉ ps → q ∈ ps →
          panel_id (heap w p) ≠ BREAKPOINTS_VIEW_ID →
          panel_id (heap w p) ≠ panel_id (heap w q)) →
     covered w [] → covered w' []).
Proof.
  intros He. cbn zeta. rewrite removePanels_eq.
  destruct (super_removePanels_eq ps w) as (l & -> & Hl).
  destruct (removePanels_loop_inv ps (set_panels (λ _, l) w)) as (He' & Hp' & Hi' & Hc').
  - intros k d Hk. destruct (He k d Hk) as (p & t & ? & ? & ? & ? & [Hin|Hin]).
    + exists p, t. repeat split; try done. cbn. rewrite Hl.
      destruct (decide (p ∈ ps)); auto.
    + by apply elem_of_nil in Hin.
  - split; [done|]. split; [intros q; rewrite Hp'; apply Hl|].
    intros Hd Hc. apply Hc'.
    + intros q p Hq Hp Hne. cbn in Hq, Hne |- *. apply Hl in Hq as [Hq Hnot].
      by apply Hd.
    + intros p Hp Hne. cbn in Hp. apply Hl in Hp as [Hp _]. by apply Hc.
Qed.

Lemma distinct_ids_same (w w' : World) (l : list loc) :
  same_ids w w' → distinct_ids (heap w) l → distinct_ids (heap w') l.
Proof. intros Hs Hd p q Hp Hq. rewrite !Hs. by apply Hd. Qed.

(** One call keeps the map in step with the attached panels. *)
Lemma listeners_step (c : Call) (w : World) (l : list loc) :
  entries_ok w [] →
  entries_ok (exec (step c) w) []
  ∧ (distinct_ids (heap w) l → panels w ⊆ l → named c ⊆ l → covered w [] →
     covered (exec (step c) w) [] ∧ panels (exec (step c) w) ⊆ l).
Proof.
  intros He.
  assert ((∀ ps, c ≠ call_addPanels ps) → (∀ ps, c ≠ call_removePanels ps) →
          entries_ok (exec (step c) w) []
          ∧ (distinct_ids (heap w) l → panels w ⊆ l → named c ⊆ l → covered w [] →
             covered (exec (step c) w) [] ∧ panels (exec (step c) w) ⊆ l)) as Hother.
  { intros Ha Hr. pose proof (panels_frame_step c w Ha Hr) as Hf.
    split; [by apply (entries_ok_frame _ _ _ Hf)|]. intros _ Hsub _ Hc.
    split; [by apply (covered_frame _ _ _ Hf)|]. by rewrite (proj1 Hf). }
  destruct c; try (by apply Hother); cbn [step named].
  - destruct (listeners_inv_addPanels ps w He) as (He' & Hp' & Hc').
    split; [done|]. intros _ Hsub Hnamed Hc. split; [by apply Hc'|].
    intros q Hq. apply Hp' in Hq as [Hq|Hq]; [by apply Hsub|by apply Hnamed].
  - destruct (listeners_inv_removePanels ps w He) as (He' & Hp' & Hc').
    split; [done|]. intros Hd Hsub Hnamed Hc. split.
    + apply Hc'; [|done]. intros p q Hp Hnp Hq _ Heq. apply Hnp.
      rewrite (Hd p q); [done|by apply Hsub|by apply Hnamed|done].
    + intros q Hq. apply Hp' in Hq as [Hq _]. by apply Hsub.
Qed.

Lemma listeners_run (cs : list Call) (w : World) (l : list loc) :
  entries_ok w [] →
  entries_ok (run cs w) []
  ∧ (distinct_ids (heap w) l → panels w ⊆ l → cs ≫= named ⊆ l → covered w [] →
     covered (run cs w) [] ∧ panels (run cs w) ⊆ l).
Proof.
  revert w. induction cs as [|c cs IH]; intros w He; [by auto|].
  change (run (c :: cs) w) with (run cs (exec (step c) w)).
  destruct (listeners_step c w l He) as (He' & Hc').
  destruct (IH _ He') as (He'' & Hc'').
  split; [done|]. intros Hd Hsub Hnamed Hc.
  rewrite bind_cons in Hnamed.
  destruct Hc' as [Hc1 Hp1]; try done.
  { intros q Hq. apply Hnamed, elem_of_app. by left. }
  apply Hc''; try done.
  - apply (distinct_ids_same w); [apply same_ids_step|done].
  - intros q Hq. apply Hnamed, elem_of_app. by right.
Qed.

Lemma listeners_inv_constructor state location σ next :
  listeners_inv (constructor state location σ next).
Proof.
  split.
  - intros k d Hk. cbn in Hk. by rewrite lookup_empty in Hk.
  - intros p Hp. by apply elem_of_nil in Hp.
Qed.

(** ** Single calls *)

(** C2.  [showInitialDebugActions] holds exactly when the debug service is
    inactive or the configured toolbar location is not "docked"; so it holds
    whenever the state is [Inactive], whatever the toolbar location, and
    whenever the location is not "docked", whatever the state. *)
Theorem showInitialDebugActions_iff (w : World) :
  (showInitialDebugActions w = true ↔
     debugService_state w = Inactive ∨ toolBarLocation w ≠ "docked")
  ∧ (debugService_state w = Inactive → showInitialDebugActions w = true)
  ∧ (toolBarLocation w ≠ "docked" → showInitialDebugActions w = true).
Proof.
  assert (H : showInitialDebugActions w = true ↔
     debugService_state w = Inactive ∨ toolBarLocation w ≠ "docked").
  { unfold showInitialDebugActions. cbn.
    rewrite orb_true_iff, !bool_decide_eq_true. done. }
  split; [exact H|]. split; intros; apply H; auto.
Qed.

(** C4.  A state-change notification ends the stored progress runner, if
    there is one, first; then shows and stores a new indeterminate indicator
    exactly when the new state is [Initializing]; then refreshes the title
    area exactly when the toolbar location is "docked". *)
Theorem onDebugServiceStateChange_spec (w : World) (state : State) :
  let w' := exec (onDebugServiceStateChange state) w in
  let r := {| runner_obj := nextObj w; runner_infinite := true |} in
  trace w' =
    trace w
    ++ match progressRunner w with Some old => [ProgressDone old] | None => [] end
    ++ (if decide (state = Initializing) then [ProgressShow true r] else [])
    ++ (if decide (toolBarLocation w = "docked") then [UpdateTitleArea] else [])
  ∧ progressRunner w' = (if decide (state = Initializing) then Some r else progressRunner w).
Proof.
  unfold onDebugServiceStateChange, runner_done, progressService_show, updateTitleArea.
  run_monad.
  destruct (progressRunner w) as [old|] eqn:Hr; cbn;
    destruct (decide (state = Initializing)) as [Hs|Hs];
    rewrite ?(bool_decide_eq_true_2 _ Hs), ?(bool_decide_eq_false_2 _ Hs); cbn;
    destruct (decide (toolBarLocation w = "docked")) as [Hl|Hl];
    rewrite ?(bool_decide_eq_true_2 _ Hl), ?(bool_decide_eq_false_2 _ Hl); cbn;
    rewrite <- ?app_assoc, ?app_nil_r; cbn; auto.
Qed.

(** C9.  [getActionItem] on an action: with the Start action's id, a new
    start-debug action item, which is stored, so that [focus] forwards to
    it; else with the Focus-Session action's id, a new focus-session action
    item; else for a menu item action, a new menu action item; else no item,
    and nothing has happened. *)
Theorem getActionItem_spec (w : World) (action : IAction) :
  let w' := exec (getActionItem action) w in
  let o := nextObj w in
  if decide (action_id action = StartAction_ID) then
    result (getActionItem action) w = Some (StartDebugActionItem o action)
    ∧ startDebugActionItem w' = Some (StartDebugActionItem o action)
    ∧ trace w' = trace w ++ [CreateActionItem (StartDebugActionItem o action)]
    ∧ trace (exec focus w') =
        trace w' ++ [SuperFocus; ItemFocus (StartDebugActionItem o action)]
  else if decide (action_id action = FocusSessionAction_ID) then
    result (getActionItem action) w = Some (FocusSessionActionItem o action)
    ∧ startDebugActionItem w' = startDebugActionItem w
    ∧ trace w' = trace w ++ [CreateActionItem (FocusSessionActionItem o action)]
  else if decide (action_class action = MenuItemAction) then
    result (getActionItem action) w = Some (MenuItemActionItem o action)
    ∧ startDebugActionItem w' = startDebugActionItem w
    ∧ trace w' = trace w ++ [CreateActionItem (MenuItemActionItem o action)]
  else
    result (getActionItem action) w = None ∧ w' = w.
Proof.
  unfold getActionItem, focus. run_monad.
  destruct (decide (action_id action = StartAction_ID)) as [H1|H1];
    rewrite ?(bool_decide_eq_true_2 _ H1), ?(bool_decide_eq_false_2 _ H1); cbn.
  { by rewrite <- app_assoc. }
  destruct (decide (action_id action = FocusSessionAction_ID)) as [H2|H2];
    rewrite ?(bool_decide_eq_true_2 _ H2), ?(bool_decide_eq_false_2 _ H2); cbn; [done|].
  destruct (decide (action_class action = MenuItemAction)) as [H3|H3];
    rewrite ?(bool_decide_eq_true_2 _ H3), ?(bool_decide_eq_false_2 _ H3); cbn; done.
Qed.

(** ** The sizing of the breakpoints panel *)

#[local] Instance same_geometry_refl : Reflexive same_geometry.
Proof. by intros w. Qed.

#[local] Instance same_geometry_trans : Transitive same_geometry.
Proof.
  intros w1 w2 w3 (? & ? & H) (? & ? & H').
  do 2 (split; [congruence|]). intros p.
  destruct (H p) as (? & ? & ? & ?), (H' p) as (? & ? & ? & ?).
  repeat split; congruence.
Qed.

#[local] Instance listeners_kept_refl : Reflexive listeners_kept.
Proof. by intros w p t. Qed.

#[local] Instance listeners_kept_trans : Transitive listeners_kept.
Proof. intros w1 w2 w3 H H' p t Ht. by apply H', H. Qed.

Lemma sized_geometry (w w' : World) (bp : loc) :
  same_geometry w w' → sized w bp → sized w' bp.
Proof.
  intros (Hp & _ & Hh) Hs.
  assert (all_other_collapsed w' bp ↔ all_other_collapsed w bp) as Hiff.
  { unfold all_other_collapsed. rewrite Hp.
    split; intros H v Hv Hne; specialize (H v Hv Hne);
      destruct (Hh v) as (_ & He & _); congruence. }
  unfold sized. rewrite Hiff. destruct (Hh bp) as (_ & _ & -> & ->). exact Hs.
Qed.

(** Subscribing to a sibling changes nothing the rule reads. *)
Lemma addPanels_each_sibling (a : PanelToAdd) (w : World) :
  panel_id (heap w (panel a)) ≠ BREAKPOINTS_VIEW_ID →
  let w' := exec (addPanels_each a) w in
  same_geometry w w' ∧ nextObj w ∈ onDidChange (heap w' (panel a)).
Proof.
  intros Hne. cbn zeta. rewrite addPanels_each_eq. cbn zeta.
  rewrite bool_decide_eq_false_2 by done. split.
  - repeat split; try done; cbn; rewrite alter_at; by destruct (decide _).
  - cbn. rewrite alter_at, decide_True by done. cbn.
    rewrite elem_of_app, elem_of_cons. auto.
Qed.

Lemma listeners_kept_addPanels_each (a : PanelToAdd) (w : World) :
  listeners_kept w (exec (addPanels_each a) w).
Proof.
  rewrite addPanels_each_eq. cbn zeta. case_bool_decide.
  - intros p t. by rewrite (proj2 (proj2 (proj2 (proj2
      (panels_frame_updateBreakpointsMaxSize _))) p)).
  - intros p t Ht. cbn. rewrite alter_at. destruct (decide _); [|done].
    cbn. rewrite elem_of_app. auto.
Qed.

Lemma same_ids_addPanels_loop (ps : list PanelToAdd) (w : World) :
  same_ids w (exec (forEach ps addPanels_each) w).
Proof.
  apply (forEach_frame same_ids). intros a w' _. rewrite addPanels_each_eq. cbn zeta.
  case_bool_decide.
  - intros p. by rewrite (proj1 (proj2 (proj2 (proj2
      (panels_frame_updateBreakpointsMaxSize _))) p)).
  - intros p. cbn. rewrite alter_at. by destruct (decide _).
Qed.

Lemma addPanels_loop_siblings (ps : list PanelToAdd) (w : World) :
  (∀ a, a ∈ ps → panel_id (heap w (panel a)) ≠ BREAKPOINTS_VIEW_ID) →
  same_geometry w (exec (forEach ps addPanels_each) w).
Proof.
  revert w. induction ps as [|a ps IH]; intros w Hne; [done|].
  rewrite exec_forEach_cons.
  destruct (addPanels_each_sibling a w) as [Hg _]; [apply Hne; by left|].
  etrans; [exact Hg|]. apply IH. intros b Hb.
  destruct Hg as (_ & _ & Hh). rewrite (proj1 (Hh (panel b))). apply Hne. by right.
Qed.

(** A batch with a breakpoints panel splits at the last one. *)
Lemma last_breakpoints (σ : loc → ViewletPanel) (ps : list PanelToAdd) :
  Exists (λ a, panel_id (σ (panel a)) = BREAKPOINTS_VIEW_ID) ps →
  ∃ l1 a l2, ps = l1 ++ a :: l2
    ∧ panel_id (σ (panel a)) = BREAKPOINTS_VIEW_ID
    ∧ ∀ b, b ∈ l2 → panel_id (σ (panel b)) ≠ BREAKPOINTS_VIEW_ID.
Proof.
  induction ps as [|a ps IH]; intros Hex; [by apply Exists_nil in Hex|].
  destruct (decide (Exists (λ a, panel_id (σ (panel a)) = BREAKPOINTS_VIEW_ID) ps))
    as [Hps|Hps].
  - destruct (IH Hps) as (l1 & b & l2 & -> & ? & ?). by exists (a :: l1), b, l2.
  - apply Exists_cons in Hex as [Ha|?]; [|done].
    exists [], a, ps. repeat split; try done.
    intros b Hb Hid. apply Hps, list.Exists_exists. eauto.
Qed.

(** Attaching a batch that has a breakpoints panel: the last such panel is
    the stored one, it is attached, and the rule holds of it. *)
Lemma addPanels_breakpoints (ps : list PanelToAdd) (w : World) :
  Exists (λ a, panel_id (heap w (panel a)) = BREAKPOINTS_VIEW_ID) ps →
  let w' := exec (addPanels ps) w in
  ∃ bp, breakpointView w' = Some bp ∧ bp ∈ panels w' ∧ bp ∈ panel <$> ps
        ∧ panel_id (heap w' bp) = BREAKPOINTS_VIEW_ID ∧ sized w' bp.
Proof.
  intros Hex. cbn zeta.
  destruct (last_breakpoints _ _ Hex) as (l1 & a & l2 & -> & Ha & Hl2).
  rewrite addPanels_eq.
  destruct (super_addPanels_eq (l1 ++ a :: l2) w) as (l & -> & Hl).
  rewrite exec_forEach_app, exec_forEach_cons.
  set (w0 := set_panels (λ _, l) w).
  set (w1 := exec (forEach l1 addPanels_each) w0).
  assert (Hids1 : same_ids w w1).
  { trans w0; [done|]. apply same_ids_addPanels_loop. }
  set (w2 := exec (addPanels_each a) w1).
  assert (Hw2 : w2 = exec updateBreakpointsMaxSize
                       (set_breakpointView (Some (panel a)) w1)).
  { unfold w2. rewrite addPanels_each_eq. cbn zeta.
    by rewrite bool_decide_eq_true_2 by (by rewrite Hids1). }
  pose proof (panels_frame_updateBreakpointsMaxSize
                (set_breakpointView (Some (panel a)) w1)) as Hf2.
  rewrite <- Hw2 in Hf2. destruct Hf2 as (Hp2 & _ & Hb2 & Hh2). cbn in Hp2, Hb2, Hh2.
  assert (Hs2 : sized w2 (panel a)).
  { rewrite Hw2. by apply updateBreakpointsMaxSize_sized. }
  destruct (addPanels_loop_siblings l2 w2) as (Hp3 & Hb3 & Hh3).
  { intros b Hb. rewrite (proj1 (Hh2 _)), Hids1. by apply Hl2. }
  exists (panel a). split; [congruence|]. split; [|split; [|split]].
  - rewrite Hp3, Hp2.
    assert (panels w1 = panels w0) as ->.
    { unfold w1. clear. generalize w0. induction l1 as [|b l1 IH]; intros w'; [done|].
      rewrite exec_forEach_cons, IH, addPanels_each_eq. cbn zeta.
      case_bool_decide; [|done].
      apply (panels_frame_updateBreakpointsMaxSize (set_breakpointView _ w')). }
    cbn. apply Hl. right. rewrite fmap_app, fmap_cons, elem_of_app, elem_of_cons. auto.
  - rewrite fmap_app, fmap_cons, elem_of_app, elem_of_cons. auto.
  - rewrite (proj1 (Hh3 _)), (proj1 (Hh2 _)), Hids1. done.
  - by apply (sized_geometry w2); [split|].
Qed.

(** After [addPanels], each sibling of the batch has a listener in place. *)
Lemma addPanels_subscribes (ps : list PanelToAdd) (a : PanelToAdd) (w : World) :
  a ∈ ps → panel_id (heap w (panel a)) ≠ BREAKPOINTS_VIEW_ID →
  onDidChange (heap (exec (addPanels ps) w) (panel a)) ≠ [].
Proof.
  intros Ha Hne. rewrite addPanels_eq.
  destruct (super_addPanels_eq ps w) as (l & -> & _).
  apply list_elem_of_split in Ha as (l1 & l2 & ->).
  rewrite exec_forEach_app, exec_forEach_cons.
  set (w1 := exec (forEach l1 addPanels_each) (set_panels (λ _, l) w)).
  assert (Hids1 : same_ids w w1).
  { trans (set_panels (λ _, l) w); [done|]. apply same_ids_addPanels_loop. }
  destruct (addPanels_each_sibling a w1) as [_ Hin]; [by rewrite Hids1|].
  assert (listeners_kept (exec (addPanels_each a) w1)
            (exec (forEach l2 addPanels_each) (exec (addPanels_each a) w1))) as Hk.
  { apply (forEach_frame listeners_kept). intros. apply listeners_kept_addPanels_each. }
  apply Hk in Hin. intros Hnil. rewrite Hnil in Hin. by apply elem_of_nil in Hin.
Qed.

(** The changed event of a panel with a listener in place runs the
    recomputation. *)
Lemma fire_onDidChange_eq (p : loc) (w : World) :
  exec (fire_onDidChange p) w =
  exec (forEach (onDidChange (heap w p)) (λ _, updateBreakpointsMaxSize)) w.
Proof. unfold fire_onDidChange. by rewrite exec_bind. Qed.

Lemma recomputations_sized (ls : list nat) (bp : loc) (w : World) :
  ls ≠ [] → breakpointView w = Some bp →
  sized (exec (forEach ls (λ _, updateBreakpointsMaxSize)) w) bp.
Proof.
  destruct ls as [|t ls]; [done|]. intros _.
  revert t w. induction ls as [|t' ls IH]; intros t w Hbp.
  - rewrite exec_forEach_cons. by apply updateBreakpointsMaxSize_sized.
  - rewrite exec_forEach_cons. apply IH.
    by rewrite (proj1 (proj2 (proj2 (panels_frame_updateBreakpointsMaxSize w)))).
Qed.

Lemma fire_onDidChange_sized (p bp : loc) (w : World) :
  onDidChange (heap w p) ≠ [] → breakpointView w = Some bp →
  sized (exec (fire_onDidChange p) w) bp.
Proof. intros Hls Hbp. rewrite fire_onDidChange_eq. by apply recomputations_sized. Qed.

Lemma setExpanded_sized (p bp : loc) (b : bool) (w : World) :
  onDidChange (heap w p) ≠ [] → breakpointView w = Some bp →
  sized (exec (setExpanded p b) w) bp.
Proof.
  intros Hls Hbp. unfold setExpanded. rewrite exec_bind.
  apply fire_onDidChange_sized; [|done].
  unfold exec, modify. cbn. rewrite alter_at, decide_True by done. done.
Qed.

(** ** Panels of one id *)

Lemma siblings_apart_spec (σ : loc → ViewletPanel) (l : list loc) :
  siblings_apart σ l ↔
  ∀ p q, p ∈ l → q ∈ l → panel_id (σ p) ≠ BREAKPOINTS_VIEW_ID →
         panel_id (σ p) = panel_id (σ q) → p = q.
Proof.
  unfold siblings_apart. rewrite list.Forall_forall. split.
  - intros H p q Hp Hq Hne. specialize (H p Hp Hne).
    rewrite list.Forall_forall in H. by apply H.
  - intros H p Hp Hne. apply list.Forall_forall. intros q Hq. by apply H.
Qed.

Lemma apart_removePanels_spec (w : World) (ps : list loc) :
  apart w (call_removePanels ps) ↔
  ∀ p q, p ∈ panels w → p ∉ ps → q ∈ ps →
         panel_id (heap w p) ≠ BREAKPOINTS_VIEW_ID →
         panel_id (heap w p) ≠ panel_id (heap w q).
Proof.
  cbn. rewrite list.Forall_forall. split.
  - intros H p q Hp Hnp Hq Hne. specialize (H p Hp Hnp Hne).
    rewrite list.Forall_forall in H. by apply H.
  - intros H p Hp Hnp Hne. apply list.Forall_forall. intros q Hq. by apply H.
Qed.

(** One call that keeps the panels of one id apart keeps every attached
    sibling's entry. *)
Lemma apart_step (c : Call) (w : World) :
  entries_ok w [] → covered w [] → siblings_apart (heap w) (panels w) → apart w c →
  covered (exec (step c) w) []
  ∧ siblings_apart (heap (exec (step c) w)) (panels (exec (step c) w)).
Proof.
  intros He Hc Hs Hap.
  assert ((∀ ps, c ≠ call_addPanels ps) → (∀ ps, c ≠ call_removePanels ps) →
          covered (exec (step c) w) []
          ∧ siblings_apart (heap (exec (step c) w)) (panels (exec (step c) w)))
    as Hother.
  { intros Ha Hr. pose proof (panels_frame_step c w Ha Hr) as Hf.
    split; [by apply (covered_frame _ _ _ Hf)|].
    destruct Hf as (Hp & _ & _ & Hh). rewrite Hp. apply siblings_apart_spec.
    intros p q Hp' Hq'. rewrite !(proj1 (Hh _)).
    by apply (proj1 (siblings_apart_spec _ _) Hs). }
  destruct c; try (by apply Hother); cbn [step].
  - destruct (listeners_inv_addPanels ps w He) as (_ & Hp' & Hc').
    split; [by apply Hc'|].
    apply siblings_apart_spec. intros p q Hp Hq.
    rewrite !(same_ids_addPanels ps w).
    apply (proj1 (siblings_apart_spec _ _) Hap); rewrite elem_of_app; by apply Hp'.
  - destruct (listeners_inv_removePanels ps w He) as (_ & Hp' & Hc').
    split; [apply Hc'; [by apply apart_removePanels_spec|done]|].
    apply siblings_apart_spec. intros p q Hp Hq.
    rewrite !(same_ids_removePanels ps w).
    apply (proj1 (siblings_apart_spec _ _) Hs); by apply Hp'.
Qed.

Lemma apart_run (cs : list Call) (w : World) :
  entries_ok w [] → covered w [] → siblings_apart (heap w) (panels w) →
  apart_along cs w →
  entries_ok (run cs w) [] ∧ covered (run cs w) []
  ∧ siblings_apart (heap (run cs w)) (panels (run cs w)).
Proof.
  revert w. induction cs as [|c cs IH]; intros w He Hc Hs Hap; [done|].
  destruct Hap as [Hap Hrest].
  change (run (c :: cs) w) with (run cs (exec (step c) w)).
  destruct (apart_step c w He Hc Hs Hap) as [Hc' Hs'].
  apply IH; try done. apply (listeners_step c w [] He).
Qed.

(** With the panels of one id kept apart, the entry under the id of an
    attached sibling is a live subscription to that very panel. *)
Lemma own_entry (w : World) (p : loc) :
  entries_ok w [] → covered w [] → siblings_apart (heap w) (panels w) →
  p ∈ panels w → panel_id (heap w p) ≠ BREAKPOINTS_VIEW_ID →
  ∃ t, panelListeners w !! panel_id (heap w p) = Some (ListenerHandle p t)
       ∧ t ∈ onDidChange (heap w p).
Proof.
  intros He Hc Hs Hp Hne.
  destruct (Hc p Hp Hne) as [[d Hk]|Hin]; [|by apply elem_of_nil in Hin].
  destruct (He _ _ Hk) as (p' & t & -> & Hid & _ & Ht & [Hp'|Hp']);
    [|by apply elem_of_nil in Hp'].
  assert (p = p') as <- by (by apply (proj1 (siblings_apart_spec _ _) Hs)).
  by exists t.
Qed.

Lemma apart_run_constructor state location σ next (cs : list Call) :
  apart_along cs (constructor state location σ next) →
  let w := run cs (constructor state location σ next) in
  entries_ok w [] ∧ covered w [] ∧ siblings_apart (heap w) (panels w).
Proof.
  intros Hap. destruct (listeners_inv_constructor state location σ next) as [He0 Hc0].
  apply apart_run; try done. apply Forall_nil.
Qed.

(** ** What [addPanels] and [removePanels] do to the map *)

Lemma addPanels_each_fields (a : PanelToAdd) (w : World) :
  trace (exec (addPanels_each a) w) = trace w
  ∧ (nextObj w ≤ nextObj (exec (addPanels_each a) w))%nat.
Proof.
  rewrite addPanels_each_eq. cbn zeta. case_bool_decide.
  - rewrite updateBreakpointsMaxSize_eq. by cbn.
  - cbn. split; [done|lia].
Qed.

Lemma addPanels_loop_inserts (σ : loc → ViewletPanel) (ps : list PanelToAdd) (w : World) :
  (∀ p, panel_id (heap w p) = panel_id (σ p)) →
  let w' := exec (forEach ps addPanels_each) w in
  (∀ a, a ∈ ps → panel_id (σ (panel a)) ≠ BREAKPOINTS_VIEW_ID →
     ∃ b t, b ∈ ps ∧ panel_id (σ (panel b)) = panel_id (σ (panel a))
            ∧ panelListeners w' !! panel_id (σ (panel a))
              = Some (ListenerHandle (panel b) t)
            ∧ (nextObj w ≤ t)%nat ∧ t ∈ onDidChange (heap w' (panel b)))
  ∧ (∀ k, (∀ a, a ∈ ps → panel_id (σ (panel a)) ≠ BREAKPOINTS_VIEW_ID →
                panel_id (σ (panel a)) ≠ k) →
          panelListeners w' !! k = panelListeners w !! k)
  ∧ trace w' = trace w ∧ (nextObj w ≤ nextObj w')%nat.
Proof.
  revert w. induction ps as [|a ps IH]; intros w Hids.
  { cbn zeta. split; [intros a Ha; by apply elem_of_nil in Ha|done]. }
  cbn zeta. rewrite exec_forEach_cons.
  set (w1 := exec (addPanels_each a) w).
  assert (∀ p, panel_id (heap w1 p) = panel_id (σ p)) as Hids1.
  { intros p. rewrite <- Hids.
    pose proof (same_ids_addPanels_loop [a] w p) as H.
    by rewrite exec_forEach_cons in H. }
  destruct (addPanels_each_fields a w) as [Ht1 Hn1]. fold w1 in Ht1, Hn1.
  destruct (IH w1 Hids1) as (Hin & Hout & Ht & Hn).
  set (w' := exec (forEach ps addPanels_each) w1) in *.
  split; [|split; [|split; [congruence|lia]]].
  - intros c Hc Hne.
    destruct (decide (Exists (λ b, panel_id (σ (panel b)) = panel_id (σ (panel c))) ps))
      as [Hex|Hex].
    + apply list.Exists_exists in Hex as (b' & Hb' & Hid').
      destruct (Hin b' Hb') as (b & t & Hb & Hid & Hk & Hle & Hl); [congruence|].
      exists b, t. split; [by right|]. split; [congruence|].
      split; [by rewrite <- Hid'|]. split; [lia|done].
    + assert (c = a) as ->.
      { apply elem_of_cons in Hc as [?|Hc]; [done|].
        destruct Hex. apply list.Exists_exists. by exists c. }
      exists a, (nextObj w). split; [by left|]. split; [done|].
      rewrite Hout.
      * destruct (addPanels_each_sibling a w) as [_ Hl]; [by rewrite Hids|].
        fold w1 in Hl. unfold w1 at 1.
        rewrite addPanels_each_eq. cbn zeta. rewrite Hids.
        rewrite bool_decide_eq_false_2 by done. cbn. rewrite lookup_insert_eq.
        split; [done|]. split; [done|].
        revert Hl. apply (forEach_frame listeners_kept).
        intros. apply listeners_kept_addPanels_each.
      * intros b Hb _ Heq. apply Hex. apply list.Exists_exists. by exists b.
  - intros k Hk. rewrite Hout by (intros b Hb; apply Hk; by right).
    unfold w1. rewrite addPanels_each_eq. cbn zeta. rewrite Hids.
    case_bool_decide as Hbp.
    + by rewrite (proj1 (proj2 (panels_frame_updateBreakpointsMaxSize _))).
    + cbn. rewrite lookup_insert_ne; [done|]. apply Hk; [by left|done].
Qed.

Lemma addPanels_inserts (ps : list PanelToAdd) (w : World) :
  let w' := exec (addPanels ps) w in
  (∀ a, a ∈ ps → panel_id (heap w (panel a)) ≠ BREAKPOINTS_VIEW_ID →
     ∃ b t, b ∈ ps ∧ panel_id (heap w (panel b)) = panel_id (heap w (panel a))
            ∧ panelListeners w' !! panel_id (heap w (panel a))
              = Some (ListenerHandle (panel b) t)
            ∧ (nextObj w ≤ t)%nat ∧ t ∈ onDidChange (heap w' (panel b)))
  ∧ (∀ k, (∀ a, a ∈ ps → panel_id (heap w (panel a)) ≠ BREAKPOINTS_VIEW_ID →
                panel_id (heap w (panel a)) ≠ k) →
          panelListeners w' !! k = panelListeners w !! k)
  ∧ trace w' = trace w.
Proof.
  cbn zeta. rewrite addPanels_eq. destruct (super_addPanels_eq ps w) as (l & -> & _).
  destruct (addPanels_loop_inserts (heap w) ps (set_panels (λ _, l) w))
    as (Hin & Hout & Ht & _); done.
Qed.

Lemma removePanels_each_fields (p : loc) (w : World) :
  let w' := exec (removePanels_each p) w in
  panelListeners w' = delete (panel_id (heap w p)) (panelListeners w)
  ∧ trace w' = trace w ++ match panelListeners w !! panel_id (heap w p) with
                          | Some d => [Dispose d]
                          | None => []
                          end
  ∧ (∀ q t, t ∉ onDidChange (heap w q) → t ∉ onDidChange (heap w' q))
  ∧ (∀ q t, panelListeners w !! panel_id (heap w p) = Some (ListenerHandle q t) →
            t ∉ onDidChange (heap w' q)).
Proof.
  cbn zeta. rewrite removePanels_each_eq. cbn zeta.
  destruct (panelListeners w !! panel_id (heap w p)) as [d|] eqn:Hd.
  - split; [by destruct d|]. split; [by destruct d|]. split.
    + intros q t Ht. destruct d; try done. cbn. rewrite alter_at.
      destruct (decide _); [|done]. cbn. rewrite list_elem_of_filter. tauto.
    + intros q t [= ->]. cbn. rewrite alter_at, decide_True by done. cbn.
      rewrite list_elem_of_filter. tauto.
  - split; [done|]. split; [by rewrite app_nil_r|]. done.
Qed.

Lemma removePanels_loop_disposes (σ : loc → ViewletPanel) (ps : list loc) (w : World) :
  (∀ p, panel_id (heap w p) = panel_id (σ p)) →
  let w' := exec (forEach ps removePanels_each) w in
  (∀ k, panelListeners w' !! k =
        if decide (k ∈ (λ p, panel_id (σ p)) <$> ps) then None else panelListeners w !! k)
  ∧ (∀ e, e ∈ trace w' ↔
          e ∈ trace w
          ∨ ∃ p d, p ∈ ps ∧ panelListeners w !! panel_id (σ p) = Some d ∧ e = Dispose d)
  ∧ (∀ q t, t ∉ onDidChange (heap w q)
            ∨ (∃ p, p ∈ ps
                 ∧ panelListeners w !! panel_id (σ p) = Some (ListenerHandle q t)) →
            t ∉ onDidChange (heap w' q)).
Proof.
  revert w. induction ps as [|p ps IH]; intros w Hids.
  { cbn zeta. split; [done|]. split.
    - intros e. split; [by left|]. intros [?|(p & d & Hp & _)]; [done|].
      by apply elem_of_nil in Hp.
    - intros q t [?|(p & Hp & _)]; [done|]. by apply elem_of_nil in Hp. }
  cbn zeta. rewrite exec_forEach_cons.
  set (w1 := exec (removePanels_each p) w).
  assert (∀ q, panel_id (heap w1 q) = panel_id (σ q)) as Hids1.
  { intros q. rewrite <- Hids. unfold w1. rewrite removePanels_each_eq. cbn.
    destruct (panelListeners w !! _) as [d|]; [|done]. apply same_ids_released. }
  destruct (removePanels_each_fields p w) as (Hm1 & Ht1 & Hkeep & Hoff).
  fold w1 in Hm1, Ht1, Hkeep, Hoff. rewrite Hids in Hm1, Ht1, Hoff.
  destruct (IH w1 Hids1) as (Hmap & Htr & Hgone).
  set (w' := exec (forEach ps removePanels_each) w1) in *.
  split; [|split].
  - intros k. rewrite Hmap, Hm1, fmap_cons.
    destruct (decide (k = panel_id (σ p))) as [->|Hne].
    + rewrite lookup_delete_eq, (decide_True (P := _ ∈ _ :: _)) by (by left).
      by destruct (decide _).
    + rewrite lookup_delete_ne by done.
      destruct (decide (k ∈ _ <$> ps)) as [Hin|Hin].
      * by rewrite decide_True by (by right).
      * rewrite decide_False; [done|]. intros Hk.
        apply elem_of_cons in Hk as [?|?]; done.
  - intros e. rewrite Htr, Ht1, Hm1, elem_of_app. split.
    + intros [[He|He]|(q & d & Hq & Hk & ->)].
      * by left.
      * right. destruct (panelListeners w !! panel_id (σ p)) as [d|] eqn:Hd;
          [|by apply elem_of_nil in He].
        apply list_elem_of_singleton in He as ->. exists p, d. split; [by left|done].
      * apply lookup_delete_Some in Hk as [_ Hk]. right. exists q, d.
        split; [by right|done].
    + intros [He|(q & d & Hq & Hk & ->)]; [by left; left|].
      destruct (decide (panel_id (σ q) = panel_id (σ p))) as [Heq|Hne].
      * left. right. rewrite <- Heq, Hk. by apply list_elem_of_singleton.
      * right. exists q, d. apply elem_of_cons in Hq as [->|Hq]; [done|].
        split; [done|]. split; [|done]. by rewrite lookup_delete_ne.
  - intros q t H. apply Hgone. rewrite Hm1.
    destruct H as [H|(r & Hr & Hk)]; [left; by apply Hkeep|].
    destruct (decide (panel_id (σ r) = panel_id (σ p))) as [Heq|Hne].
    + left. apply Hoff. by rewrite <- Heq.
    + right. exists r. apply elem_of_cons in Hr as [->|Hr]; [done|].
      split; [done|]. by rewrite lookup_delete_ne.
Qed.

Lemma removePanels_disposes (ps : list loc) (w : World) :
  let w' := exec (removePanels ps) w in
  (∀ p, p ∈ ps → panelListeners w' !! panel_id (heap w p) = None)
  ∧ (∀ k, (∀ p, p ∈ ps → panel_id (heap w p) ≠ k) →
          panelListeners w' !! k = panelListeners w !! k)
  ∧ (∀ e, e ∈ trace w' ↔
          e ∈ trace w
          ∨ ∃ p d, p ∈ ps ∧ panelListeners w !! panel_id (heap w p) = Some d
                   ∧ e = Dispose d)
  ∧ (∀ p q t, p ∈ ps →
       panelListeners w !! panel_id (heap w p) = Some (ListenerHandle q t) →
       t ∉ onDidChange (heap w' q)).
Proof.
  cbn zeta. rewrite removePanels_eq.
  destruct (super_removePanels_eq ps w) as (l & -> & _).
  destruct (removePanels_loop_disposes (heap w) ps (set_panels (λ _, l) w))
    as (Hmap & Htr & Hgone); [done|].
  split; [|split; [|split]].
  - intros p Hp. rewrite Hmap, decide_True; [done|].
    apply list_elem_of_fmap. by exists p.
  - intros k Hk. rewrite Hmap, decide_False; [done|].
    intros Hin. apply list_elem_of_fmap in Hin as (p & -> & Hp). by apply (Hk p).
  - exact Htr.
  - intros p q t Hp Hk. apply Hgone. right. by exists p.
Qed.

(** C6 (amended).  After any sequence of calls on a viewlet just
    constructed, every entry of the panel-listener map is a live subscription
    to an attached non-breakpoints panel, under that panel's id, and the
    breakpoints id has no entry.  Provided every call has kept the panels of
    one id apart, every attached non-breakpoints panel has, under its id, an
    entry that is a live subscription to that very panel.  [addPanels] leaves
    under the id of each non-breakpoints panel of the batch a subscription it
    has just made to a panel of the batch with that id, and the other entries
    as they were; [removePanels] disposes of exactly the entries under the ids
    of the panels it is given, which takes each listener off its panel, and
    deletes them, leaving the other entries as they were. *)
Theorem panelListeners_one_per_attached_panel state location σ next (cs : list Call) :
  let w := run cs (constructor state location σ next) in
  (∀ k d, panelListeners w !! k = Some d →
     ∃ p t, d = ListenerHandle p t ∧ p ∈ panels w ∧ panel_id (heap w p) = k
            ∧ k ≠ BREAKPOINTS_VIEW_ID ∧ t ∈ onDidChange (heap w p))
  ∧ panelListeners w !! BREAKPOINTS_VIEW_ID = None
  ∧ (apart_along cs (constructor state location σ next) →
     ∀ p, p ∈ panels w → panel_id (heap w p) ≠ BREAKPOINTS_VIEW_ID →
       ∃ t, panelListeners w !! panel_id (heap w p) = Some (ListenerHandle p t)
            ∧ t ∈ onDidChange (heap w p))
  ∧ (∀ ps, let w' := exec (addPanels ps) w in
       (∀ a, a ∈ ps → panel_id (heap w (panel a)) ≠ BREAKPOINTS_VIEW_ID →
          ∃ b t, b ∈ ps ∧ panel_id (heap w (panel b)) = panel_id (heap w (panel a))
                 ∧ panelListeners w' !! panel_id (heap w (panel a))
                   = Some (ListenerHandle (panel b) t)
                 ∧ (nextObj w ≤ t)%nat ∧ t ∈ onDidChange (heap w' (panel b)))
       ∧ (∀ k, (∀ a, a ∈ ps → panel_id (heap w (panel a)) ≠ BREAKPOINTS_VIEW_ID →
                     panel_id (heap w (panel a)) ≠ k) →
               panelListeners w' !! k = panelListeners w !! k)
       ∧ trace w' = trace w)
  ∧ (∀ ps, let w' := exec (removePanels ps) w in
       (∀ p, p ∈ ps → panelListeners w' !! panel_id (heap w p) = None)
       ∧ (∀ k, (∀ p, p ∈ ps → panel_id (heap w p) ≠ k) →
               panelListeners w' !! k = panelListeners w !! k)
       ∧ (∀ e, e ∈ trace w' ↔
               e ∈ trace w
               ∨ ∃ p d, p ∈ ps ∧ panelListeners w !! panel_id (heap w p) = Some d
                        ∧ e = Dispose d)
       ∧ (∀ p q t, p ∈ ps →
            panelListeners w !! panel_id (heap w p) = Some (ListenerHandle q t) →
            t ∉ onDidChange (heap w' q))).
Proof.
  intros w.
  destruct (listeners_inv_constructor state location σ next) as [He0 Hc0].
  destruct (listeners_run cs _ [] He0) as (He & _). fold w in He.
  assert (Hentries : ∀ k d, panelListeners w !! k = Some d →
       ∃ p t, d = ListenerHandle p t ∧ p ∈ panels w ∧ panel_id (heap w p) = k
              ∧ k ≠ BREAKPOINTS_VIEW_ID ∧ t ∈ onDidChange (heap w p)).
  { intros k d Hk. destruct (He k d Hk) as (p & t & ? & ? & ? & ? & [Hin|Hin]).
    - by exists p, t.
    - by apply elem_of_nil in Hin. }
  split; [done|]. split; [|split; [|split]].
  - destruct (panelListeners w !! BREAKPOINTS_VIEW_ID) as [d|] eqn:Hk; [|done].
    by destruct (Hentries _ _ Hk) as (p & t & _ & _ & _ & ? & _).
  - intros Hap p Hp Hne.
    destruct (apart_run_constructor state location σ next cs Hap) as (_ & Hc & Hs).
    by apply own_entry.
  - intros ps. apply addPanels_inserts.
  - intros ps. apply removePanels_disposes.
Qed.

(** ** One listener for each panel *)

Lemma single_frame (w w' : World) : panels_frame w w' → single w → single w'.
Proof.
  intros (_ & Hl & _ & Hh) Hs p. destruct (Hh p) as [-> ->]. rewrite Hl. apply Hs.
Qed.

Lemma single_addPanels_each (a : PanelToAdd) (w : World) :
  single w →
  (panel_id (heap w (panel a)) ≠ BREAKPOINTS_VIEW_ID →
   panelListeners w !! panel_id (heap w (panel a)) = None) →
  single (exec (addPanels_each a) w).
Proof.
  intros Hs Hnone. rewrite addPanels_each_eq. cbn zeta. case_bool_decide as Hbp.
  - apply (single_frame (set_breakpointView (Some (panel a)) w));
      [apply panels_frame_updateBreakpointsMaxSize|exact Hs].
  - specialize (Hnone Hbp). intros q. cbn. rewrite !alter_at.
    destruct (decide (panel a = q)) as [<-|Hne]; cbn.
    + rewrite lookup_insert_eq, decide_True by done. by rewrite Hs, Hnone.
    + destruct (decide (panel_id (heap w (panel a)) = panel_id (heap w q))) as [Heq|Hneq].
      * rewrite <- Heq, lookup_insert_eq, decide_False by done.
        by rewrite Hs, <- Heq, Hnone.
      * rewrite lookup_insert_ne by done. apply Hs.
Qed.

Lemma single_addPanels_loop (σ : loc → ViewletPanel) (ps : list PanelToAdd) (w : World) :
  (∀ p, panel_id (heap w p) = panel_id (σ p)) →
  single w →
  NoDup ((λ p, panel_id (σ p))
           <$> filter (λ p, panel_id (σ p) ≠ BREAKPOINTS_VIEW_ID) (panel <$> ps)) →
  (∀ a, a ∈ ps → panel_id (σ (panel a)) ≠ BREAKPOINTS_VIEW_ID →
        panelListeners w !! panel_id (σ (panel a)) = None) →
  single (exec (forEach ps addPanels_each) w).
Proof.
  revert w. induction ps as [|a ps IH]; intros w Hids Hs Hnd Hnone; [done|].
  rewrite exec_forEach_cons. rewrite fmap_cons, filter_cons in Hnd.
  apply IH.
  - intros p. rewrite <- Hids.
    pose proof (same_ids_addPanels_loop [a] w p) as H.
    by rewrite exec_forEach_cons in H.
  - apply single_addPanels_each; [done|]. rewrite Hids. intros Hne.
    apply Hnone; [by left|done].
  - destruct (decide _); [|done]. rewrite fmap_cons in Hnd.
    by apply list.NoDup_cons in Hnd as [_ ?].
  - intros b Hb Hne. rewrite addPanels_each_eq. cbn zeta. rewrite Hids.
    case_bool_decide as Hbp.
    + rewrite (proj1 (proj2 (panels_frame_updateBreakpointsMaxSize _))). cbn.
      apply Hnone; [by right|done].
    + cbn. rewrite decide_True, fmap_cons in Hnd by done.
      apply list.NoDup_cons in Hnd as [Hnotin _].
      rewrite lookup_insert_ne; [apply Hnone; [by right|done]|].
      intros Heq. apply Hnotin. rewrite Heq.
      apply list_elem_of_fmap. exists (panel b). split; [done|].
      apply list_elem_of_filter. split; [done|]. by apply list_elem_of_fmap_2.
Qed.

Lemma single_removePanels_each (p : loc) (rest : list loc) (w : World) :
  entries_ok w (p :: rest) → single w → single (exec (removePanels_each p) w).
Proof.
  intros He Hs. rewrite removePanels_each_eq. cbn zeta.
  destruct (panelListeners w !! panel_id (heap w p)) as [d|] eqn:Hd.
  - destruct (He _ _ Hd) as (q & t & -> & Hid & _). intros r. cbn. rewrite !alter_at.
    destruct (decide (q = r)) as [<-|Hne]; cbn.
    + rewrite Hid, lookup_delete_eq. rewrite Hs, Hid, Hd, decide_True by done.
      rewrite filter_cons, decide_False, filter_nil; [done|]. intros H. by apply H.
    + destruct (decide (panel_id (heap w r) = panel_id (heap w p))) as [Heq|Hneq].
      * rewrite Heq, lookup_delete_eq. by rewrite Hs, Heq, Hd, decide_False.
      * rewrite lookup_delete_ne by done. apply Hs.
  - intros r. cbn.
    destruct (decide (panel_id (heap w r) = panel_id (heap w p))) as [Heq|Hneq].
    + rewrite Heq, lookup_delete_eq. by rewrite Hs, Heq, Hd.
    + rewrite lookup_delete_ne by done. apply Hs.
Qed.

Lemma single_removePanels_loop (ps : list loc) (w : World) :
  entries_ok w ps → single w → single (exec (forEach ps removePanels_each) w).
Proof.
  revert w. induction ps as [|p ps IH]; intros w He Hs; [done|].
  rewrite exec_forEach_cons.
  destruct (removePanels_each_inv p ps w He) as (He' & _).
  apply IH; [done|]. by apply (single_removePanels_each p ps).
Qed.

Lemma NoDup_fmap_eq {A B} (f : A → B) (l : list A) (x y : A) :
  NoDup (f <$> l) → x ∈ l → y ∈ l → f x = f y → x = y.
Proof.
  induction l as [|z l IH]; intros Hnd Hx Hy Heq; [by apply elem_of_nil in Hx|].
  rewrite fmap_cons in Hnd. apply list.NoDup_cons in Hnd as [Hz Hnd].
  apply elem_of_cons in Hx as [->|Hx], Hy as [->|Hy]; [done| | |by apply IH].
  - destruct Hz. rewrite Heq. by apply list_elem_of_fmap_2.
  - destruct Hz. rewrite <- Heq. by apply list_elem_of_fmap_2.
Qed.

(** A call that attaches no panel twice keeps the panels of one id apart. *)
Lemma once_apart (c : Call) (w : World) :
  siblings_apart (heap w) (panels w) → once w c → apart w c.
Proof.
  destruct c; try done. cbn. intros Hs [Hnd Hfa].
  rewrite list.Forall_forall in Hfa.
  assert (∀ a p, a ∈ panel <$> ps → panel_id (heap w a) ≠ BREAKPOINTS_VIEW_ID →
                 p ∈ panels w → panel_id (heap w a) ≠ panel_id (heap w p)) as Hnew.
  { intros a p Ha Hne Hp.
    assert (Forall (λ p, panel_id (heap w a) ≠ panel_id (heap w p)) (panels w)) as H.
    { apply Hfa. by apply list_elem_of_filter. }
    rewrite list.Forall_forall in H. by apply H. }
  apply siblings_apart_spec. intros p q Hp Hq Hne Heq.
  apply elem_of_app in Hp as [Hp|Hp], Hq as [Hq|Hq].
  - by apply (proj1 (siblings_apart_spec _ _) Hs).
  - destruct (Hnew q p Hq); [congruence|done|done].
  - by destruct (Hnew p q Hp).
  - apply (NoDup_fmap_eq _ _ _ _ Hnd); [| |done];
      apply list_elem_of_filter; split; [done|done|congruence|done].
Qed.

Lemma once_step (c : Call) (w : World) :
  entries_ok w [] → single w → once w c → single (exec (step c) w).
Proof.
  intros He Hs Ho.
  assert ((∀ ps, c ≠ call_addPanels ps) → (∀ ps, c ≠ call_removePanels ps) →
          single (exec (step c) w)) as Hother.
  { intros Ha Hr. apply (single_frame w); [by apply panels_frame_step|done]. }
  destruct c; try (by apply Hother); cbn [step].
  - destruct Ho as [Hnd Hfa]. rewrite list.Forall_forall in Hfa.
    rewrite addPanels_eq. destruct (super_addPanels_eq ps w) as (l & -> & _).
    apply (single_addPanels_loop (heap w)); [done|exact Hs|exact Hnd|].
    intros a Ha Hne. cbn.
    destruct (panelListeners w !! panel_id (heap w (panel a))) as [d|] eqn:Hd; [|done].
    destruct (He _ _ Hd) as (p & t & _ & Hid & _ & _ & [Hp|Hp]);
      [|by apply elem_of_nil in Hp].
    assert (Forall (λ p, panel_id (heap w (panel a)) ≠ panel_id (heap w p)) (panels w)) as H.
    { apply Hfa. apply list_elem_of_filter. split; [done|]. by apply list_elem_of_fmap_2. }
    rewrite list.Forall_forall in H. by destruct (H p Hp).
  - rewrite removePanels_eq. destruct (super_removePanels_eq ps w) as (l & -> & Hl).
    apply single_removePanels_loop; [|exact Hs].
    intros k d Hk. destruct (He k d Hk) as (p & t & ? & ? & ? & ? & [Hin|Hin]).
    + exists p, t. repeat split; try done. cbn. rewrite Hl.
      destruct (decide (p ∈ ps)); auto.
    + by apply elem_of_nil in Hin.
Qed.

Lemma once_run (cs : list Call) (w : World) :
  entries_ok w [] → covered w [] → siblings_apart (heap w) (panels w) → single w →
  once_along cs w →
  entries_ok (run cs w) [] ∧ covered (run cs w) []
  ∧ siblings_apart (heap (run cs w)) (panels (run cs w)) ∧ single (run cs w).
Proof.
  revert w. induction cs as [|c cs IH]; intros w He Hc Hs Hsi Ho; [done|].
  destruct Ho as [Ho Hrest].
  change (run (c :: cs) w) with (run cs (exec (step c) w)).
  destruct (apart_step c w He Hc Hs (once_apart c w Hs Ho)) as [Hc' Hs'].
  apply IH; try done; [apply (listeners_step c w [] He)|by apply once_step].
Qed.

Lemma removePanels_one_eq (p : loc) (w : World) :
  exec (removePanels [p]) w =
  set_panelListeners (delete (panel_id (heap w p)))
    match panelListeners w !! panel_id (heap w p) with
    | Some d => released d (set_panels (filter (λ q, q ≠ p)) w)
    | None => set_panels (filter (λ q, q ≠ p)) w
    end.
Proof.
  rewrite removePanels_eq. unfold super_removePanels.
  rewrite !exec_forEach_cons.
  change (exec (forEach [] ?f) ?v) with v.
  change (exec (modify ?f) ?v) with (f v).
  by rewrite removePanels_each_eq.
Qed.

Lemma removePanels_entry (w : World) (p : loc) :
  let id := panel_id (heap w p) in
  let w1 := exec (removePanels [p]) w in
  let w2 := exec (removePanels [p]) w1 in
  (panelListeners w !! id = None →
     panelListeners w1 = panelListeners w ∧ trace w1 = trace w ∧ heap w1 = heap w)
  ∧ (∀ d, panelListeners w !! id = Some d →
       panelListeners w1 = delete id (panelListeners w)
       ∧ trace w1 = trace w ++ [Dispose d]
       ∧ ∀ q t, d = ListenerHandle q t → t ∉ onDidChange (heap w1 q))
  ∧ panelListeners w1 !! id = None
  ∧ panelListeners w2 = panelListeners w1 ∧ trace w2 = trace w1
  ∧ heap w2 = heap w1 ∧ panels w2 = panels w1.
Proof.
  intros id w1 w2.
  assert (Hone : ∀ w0, exec (removePanels [p]) w0 =
            exec (removePanels_each p) (set_panels (filter (λ q, q ≠ p)) w0)).
  { intros w0. by rewrite removePanels_eq, exec_forEach_cons. }
  assert (Hnone : ∀ w0, panelListeners w0 !! panel_id (heap w0 p) = None →
            let w0' := exec (removePanels [p]) w0 in
            panelListeners w0' = panelListeners w0 ∧ trace w0' = trace w0
            ∧ heap w0' = heap w0 ∧ panels w0' = filter (λ q, q ≠ p) (panels w0)).
  { intros w0 H0. cbn zeta. rewrite Hone, removePanels_each_eq. cbn.
    rewrite H0. cbn. by rewrite delete_id. }
  assert (Hgone : panelListeners w1 !! id = None).
  { unfold w1. rewrite Hone, removePanels_each_eq. cbn. fold id.
    destruct (panelListeners w !! id) as [[]|]; cbn; apply lookup_delete_eq. }
  assert (Hid : panel_id (heap w1 p) = id).
  { apply (same_ids_removePanels [p] w p). }
  split; [|split; [|split]].
  - intros H0. by destruct (Hnone w H0) as (? & ? & ? & _).
  - intros d Hd. unfold w1. rewrite Hone, removePanels_each_eq. cbn. fold id.
    rewrite Hd. split; [by destruct d|]. split; [by destruct d|].
    intros q t ->. cbn. rewrite alter_at, decide_True by done. cbn.
    rewrite list_elem_of_filter. tauto.
  - done.
  - rewrite <- Hid in Hgone. destruct (Hnone w1 Hgone) as (? & ? & ? & Hp).
    repeat split; try done. fold w2 in Hp. rewrite Hp.
    unfold w1. rewrite Hone, removePanels_each_eq. cbn.
    assert (∀ w0, panels match panelListeners w !! panel_id (heap w p) with
                         | Some d => released d w0 | None => w0 end = panels w0) as Hpan.
    { intros w0. by destruct (panelListeners w !! _) as [[]|]. }
    rewrite !Hpan. cbn. rewrite list_filter_filter. apply list_filter_iff. tauto.
Qed.

(** C7 (amended).  [removePanels] of a panel whose id has no entry in the
    panel-listener map leaves the map as it is and disposes of nothing; with
    an entry, it deletes the entry and disposes of it, which takes that
    listener off its panel; and a second call with the same panel changes
    neither the map nor the trace nor any panel.  After calls that have
    attached no panel twice and kept the panels of one id apart, the entry
    under the id of an attached non-breakpoints panel is that panel's one
    listener: a single call disposes of it and leaves the panel with no
    listener and every other panel as it was. *)
Theorem removePanels_idempotent :
  (∀ (w : World) (p : loc),
     let id := panel_id (heap w p) in
     let w1 := exec (removePanels [p]) w in
     let w2 := exec (removePanels [p]) w1 in
     (panelListeners w !! id = None →
        panelListeners w1 = panelListeners w ∧ trace w1 = trace w ∧ heap w1 = heap w)
     ∧ (∀ d, panelListeners w !! id = Some d →
          panelListeners w1 = delete id (panelListeners w)
          ∧ trace w1 = trace w ++ [Dispose d]
          ∧ ∀ q t, d = ListenerHandle q t → t ∉ onDidChange (heap w1 q))
     ∧ panelListeners w1 !! id = None
     ∧ panelListeners w2 = panelListeners w1 ∧ trace w2 = trace w1
     ∧ heap w2 = heap w1 ∧ panels w2 = panels w1)
  ∧ (∀ state location σ next (cs : list Call) (p : loc),
       once_along cs (constructor state location σ next) →
       let w := run cs (constructor state location σ next) in
       let w1 := exec (removePanels [p]) w in
       p ∈ panels w → panel_id (heap w p) ≠ BREAKPOINTS_VIEW_ID →
       ∃ t, panelListeners w !! panel_id (heap w p) = Some (ListenerHandle p t)
            ∧ onDidChange (heap w p) = [t]
            ∧ trace w1 = trace w ++ [Dispose (ListenerHandle p t)]
            ∧ onDidChange (heap w1 p) = []
            ∧ panelListeners w1 !! panel_id (heap w p) = None
            ∧ (p ∉ panels w1)
            ∧ ∀ q, q ≠ p → heap w1 q = heap w q).
Proof.
  split; [apply removePanels_entry|].
  intros state location σ next cs p Ho w w1 Hp Hne.
  destruct (listeners_inv_constructor state location σ next) as [He0 Hc0].
  assert (siblings_apart (heap (constructor state location σ next))
            (panels (constructor state location σ next))) as Hs0 by apply Forall_nil.
  assert (single (constructor state location σ next)) as Hsi0.
  { intros q. cbn. by rewrite lookup_empty. }
  destruct (once_run cs _ He0 Hc0 Hs0 Hsi0 Ho) as (He & Hc & Hs & Hsi).
  fold w in He, Hc, Hs, Hsi.
  destruct (own_entry w p He Hc Hs Hp Hne) as (t & Hk & _).
  exists t. split; [done|].
  assert (onDidChange (heap w p) = [t]) as Hone.
  { by rewrite Hsi, Hk, decide_True. }
  split; [done|].
  unfold w1. rewrite removePanels_one_eq, Hk. cbn.
  split; [done|]. rewrite alter_at, decide_True by done. cbn. rewrite Hone.
  split; [rewrite filter_cons, decide_False, filter_nil; [done|]; intros H; by apply H|].
  split; [apply lookup_delete_eq|]. split.
  - rewrite list_elem_of_filter. intros [H _]. by apply H.
  - intros q Hq. rewrite alter_at. by rewrite decide_False.
Qed.

(** C1 (amended).  With a breakpoints panel stored, the recomputation sets
    its maximum body size to positive infinity when every other attached
    panel is collapsed and to its minimum body size otherwise, and changes
    nothing else.  It runs when [addPanels] attaches a breakpoints panel, and
    on the changed event of every panel that has a listener in place; after
    calls that have kept the panels of one id apart, every attached sibling
    has one.  Attaching only non-breakpoints panels does not run it: the
    stored panel and the sizes of all panels stay as they were. *)
Theorem updateBreakpointsMaxSize_rule :
  (∀ w bp, breakpointView w = Some bp →
     let w' := exec updateBreakpointsMaxSize w in
     (all_other_collapsed w bp → maximumBodySize (heap w' bp) = POSITIVE_INFINITY)
     ∧ (¬ all_other_collapsed w bp →
          maximumBodySize (heap w' bp) = minimumBodySize (heap w bp))
     ∧ sized w' bp
     ∧ (∀ p, heap w' p = if decide (p = bp)
                         then set_maximumBodySize (maximumBodySize (heap w' bp)) (heap w p)
                         else heap w p)
     ∧ panels_frame w w' ∧ trace w' = trace w)
  ∧ (∀ w ps,
       Exists (λ a, panel_id (heap w (panel a)) = BREAKPOINTS_VIEW_ID) ps →
       let w' := exec (addPanels ps) w in
       ∃ bp, breakpointView w' = Some bp ∧ bp ∈ panels w' ∧ bp ∈ panel <$> ps
             ∧ panel_id (heap w' bp) = BREAKPOINTS_VIEW_ID ∧ sized w' bp)
  ∧ (∀ w ps a, a ∈ ps → panel_id (heap w (panel a)) ≠ BREAKPOINTS_VIEW_ID →
       onDidChange (heap (exec (addPanels ps) w) (panel a)) ≠ [])
  ∧ (∀ w p bp, onDidChange (heap w p) ≠ [] → breakpointView w = Some bp →
       sized (exec (fire_onDidChange p) w) bp
       ∧ ∀ b, sized (exec (setExpanded p b) w) bp)
  ∧ (∀ state location σ next (cs : list Call),
       apart_along cs (constructor state location σ next) →
       let w := run cs (constructor state location σ next) in
       ∀ p bp, p ∈ panels w → panel_id (heap w p) ≠ BREAKPOINTS_VIEW_ID →
         breakpointView w = Some bp →
         onDidChange (heap w p) ≠ []
         ∧ sized (exec (fire_onDidChange p) w) bp
         ∧ ∀ b, sized (exec (setExpanded p b) w) bp)
  ∧ (∀ w ps, (∀ a, a ∈ ps → panel_id (heap w (panel a)) ≠ BREAKPOINTS_VIEW_ID) →
       let w' := exec (addPanels ps) w in
       breakpointView w' = breakpointView w
       ∧ ∀ p, panel_id (heap w' p) = panel_id (heap w p)
              ∧ isExpanded (heap w' p) = isExpanded (heap w p)
              ∧ minimumBodySize (heap w' p) = minimumBodySize (heap w p)
              ∧ maximumBodySize (heap w' p) = maximumBodySize (heap w p)).
Proof.
  split; [|split; [|split; [|split; [|split]]]].
  - intros w bp Hbp w'.
    pose proof (updateBreakpointsMaxSize_sized w bp Hbp) as Hs. fold w' in Hs.
    pose proof (panels_frame_updateBreakpointsMaxSize w) as Hf. fold w' in Hf.
    assert (Heq : w' = set_heap (alter (set_maximumBodySize
              (if forallb (λ view, negb (isExpanded (heap w view))
                                   || bool_decide (view = bp)) (panels w)
               then POSITIVE_INFINITY else minimumBodySize (heap w bp))) bp) w).
    { unfold w'. by rewrite updateBreakpointsMaxSize_eq, Hbp. }
    assert (Hmax : maximumBodySize (heap w' bp) =
              if forallb (λ view, negb (isExpanded (heap w view))
                                  || bool_decide (view = bp)) (panels w)
              then POSITIVE_INFINITY else minimumBodySize (heap w bp)).
    { rewrite Heq. cbn. by rewrite alter_at, decide_True. }
    split; [|split; [|split; [done|split; [|split; [done|]]]]].
    + intros Hall. apply allOtherCollapsed_spec in Hall. by rewrite Hmax, Hall.
    + intros Hall. rewrite Hmax. destruct (forallb _ _) eqn:E; [|done].
      by apply allOtherCollapsed_spec in E.
    + intros p. rewrite Hmax. rewrite Heq at 1. cbn. rewrite alter_at.
      destruct (decide (bp = p)) as [->|Hne].
      * by rewrite decide_True.
      * by rewrite decide_False.
    + by rewrite Heq.
  - intros w ps. apply addPanels_breakpoints.
  - intros w ps a. apply addPanels_subscribes.
  - intros w p bp Hls Hbp. split; [by apply fire_onDidChange_sized|].
    intros b. by apply setExpanded_sized.
  - intros state location σ next cs Hap w p bp Hp Hne Hbp.
    destruct (apart_run_constructor state location σ next cs Hap) as (He & Hc & Hs).
    destruct (own_entry _ p He Hc Hs Hp Hne) as (t & _ & Ht). fold w in Ht.
    assert (onDidChange (heap w p) ≠ []) as Hls.
    { intros Hnil. rewrite Hnil in Ht. by apply elem_of_nil in Ht. }
    split; [done|]. split; [by apply fire_onDidChange_sized|].
    intros b. by apply setExpanded_sized.
  - intros w ps Hne. cbn zeta. rewrite addPanels_eq.
    destruct (super_addPanels_eq ps w) as (l & -> & _).
    destruct (addPanels_loop_siblings ps (set_panels (λ _, l) w) Hne) as (_ & Hb & Hh).
    split; [exact Hb|]. intros p. apply Hh.
Qed.

(** *** The stored breakpoints panel *)

Lemma breakpointView_removePanels_loop (ps : list loc) (w : World) :
  breakpointView (exec (forEach ps removePanels_each) w) = breakpointView w.
Proof.
  revert w. induction ps as [|p ps IH]; intros w; [done|].
  rewrite exec_forEach_cons, IH, removePanels_each_eq. cbn.
  by destruct (panelListeners w !! _) as [[]|].
Qed.

Lemma breakpointView_removePanels (ps : list loc) (w : World) :
  breakpointView (exec (removePanels ps) w) = breakpointView w.
Proof.
  rewrite removePanels_eq, breakpointView_removePanels_loop.
  by destruct (super_removePanels_eq ps w) as (l & -> & _).
Qed.

Lemma panels_removePanels (ps : list loc) (w : World) (q : loc) :
  q ∈ panels (exec (removePanels ps) w) ↔ q ∈ panels w ∧ q ∉ ps.
Proof.
  rewrite removePanels_eq.
  destruct (super_removePanels_eq ps w) as (l & -> & Hl). rewrite <- Hl.
  change l with (panels (set_panels (λ _, l) w)) at 2.
  generalize (set_panels (λ _, l) w). clear.
  induction ps as [|p ps IH]; intros w; [done|].
  rewrite exec_forEach_cons, IH, removePanels_each_eq. cbn.
  by destruct (panelListeners w !! _) as [[]|].
Qed.

Lemma attaches_breakpoints_same_ids (w w' : World) (c : Call) :
  same_ids w w' → attaches_breakpoints w' c → attaches_breakpoints w c.
Proof.
  intros Hs. destruct c; try done. cbn.
  rewrite !list.Exists_exists. intros (a & Ha & Hid). exists a. by rewrite <- Hs.
Qed.

Lemma breakpointView_step (c : Call) (w : World) :
  ¬ attaches_breakpoints w c → breakpointView (exec (step c) w) = breakpointView w.
Proof.
  intros Hno.
  assert ((∀ ps, c ≠ call_addPanels ps) → (∀ ps, c ≠ call_removePanels ps) →
          breakpointView (exec (step c) w) = breakpointView w) as Hother.
  { intros Ha Hr. apply (panels_frame_step c w Ha Hr). }
  destruct c; try (by apply Hother); cbn [step].
  - rewrite addPanels_eq. destruct (super_addPanels_eq ps w) as (l & -> & _).
    destruct (addPanels_loop_siblings ps (set_panels (λ _, l) w)) as (_ & Hb & _); [|done].
    intros a Ha Hid. apply Hno. cbn. apply list.Exists_exists. eauto.
  - apply breakpointView_removePanels.
Qed.

Lemma breakpointView_run (cs : list Call) (w : World) :
  Forall (λ c, ¬ attaches_breakpoints w c) cs →
  breakpointView (run cs w) = breakpointView w.
Proof.
  revert w. induction cs as [|c cs IH]; intros w Hno; [done|].
  change (run (c :: cs) w) with (run cs (exec (step c) w)).
  apply list.Forall_cons in Hno as [Hc Hcs].
  rewrite IH; [by apply breakpointView_step|].
  eapply list.Forall_impl; [exact Hcs|]. intros c' Hc' Hatt. apply Hc'.
  by apply (attaches_breakpoints_same_ids _ _ _ (same_ids_step c w)).
Qed.

(** C10 (amended).  [removePanels] leaves the stored breakpoints panel as it
    is, also when it detaches that panel; so until a call attaches a panel of
    the breakpoints id, the detached panel stays the stored one, and a
    recomputation, such as the one that the changed event of a panel with a
    listener in place runs, assigns its maximum body size by the rule.  A
    batch with a panel of the breakpoints id stores a panel of the batch
    instead. *)
Theorem removePanels_keeps_breakpointView :
  (∀ w ps, breakpointView (exec (removePanels ps) w) = breakpointView w)
  ∧ (∀ w ps bp cs,
       breakpointView w = Some bp → bp ∈ ps →
       Forall (λ c, ¬ attaches_breakpoints w c) cs →
       let w1 := run cs (exec (removePanels ps) w) in
       (bp ∉ panels (exec (removePanels ps) w))
       ∧ breakpointView w1 = Some bp
       ∧ sized (exec updateBreakpointsMaxSize w1) bp
       ∧ (∀ p, onDidChange (heap w1 p) ≠ [] →
            sized (exec (fire_onDidChange p) w1) bp))
  ∧ (∀ w ps,
       Exists (λ a, panel_id (heap w (panel a)) = BREAKPOINTS_VIEW_ID) ps →
       ∃ bp', breakpointView (exec (addPanels ps) w) = Some bp'
              ∧ bp' ∈ (panel <$> ps)
              ∧ sized (exec (addPanels ps) w) bp').
Proof.
  split; [|split].
  - intros w ps. apply breakpointView_removePanels.
  - intros w ps bp cs Hbp Hin Hno w1.
    assert (Hbp1 : breakpointView w1 = Some bp).
    { unfold w1. rewrite breakpointView_run, breakpointView_removePanels; [done|].
      eapply list.Forall_impl; [exact Hno|]. intros c Hc Hatt. apply Hc.
      by apply (attaches_breakpoints_same_ids _ _ _ (same_ids_removePanels ps w)). }
    split; [|split; [done|split]].
    + intros Hq. by apply panels_removePanels in Hq as [_ ?].
    + by apply updateBreakpointsMaxSize_sized.
    + intros p Hls. by apply fire_onDidChange_sized.
  - intros w ps Hex.
    destruct (addPanels_breakpoints ps w Hex) as (bp & ? & ? & ? & ? & ?). by exists bp.
Qed.

(** * Further properties *)

(** ** What a call emits *)

#[local] Instance footprint_refl P : Reflexive (footprint P).
Proof. intros w. split; [|done]. exists []. by rewrite app_nil_r. Qed.

#[local] Instance footprint_trans P : Transitive (footprint P).
Proof.
  intros w1 w2 w3 [(es & He & HP) Hn] [(es' & He' & HP') Hn']. split; [|lia].
  exists (es ++ es'). split; [by rewrite He', He, <- app_assoc|by apply Forall_app].
Qed.

Lemma footprint_silent P (w w' : World) :
  trace w' = trace w → (nextObj w ≤ nextObj w')%nat → footprint P w w'.
Proof. intros Ht Hn. split; [|done]. exists []. by rewrite app_nil_r. Qed.

Lemma footprint_one P (w w' : World) (e : Effect) :
  trace w' = trace w ++ [e] → P e → (nextObj w ≤ nextObj w')%nat → footprint P w w'.
Proof. intros Ht He Hn. split; [|done]. exists [e]. split; [done|]. by constructor. Qed.

Lemma footprint_list P (w w' : World) (es : list Effect) :
  trace w' = trace w ++ es → Forall P es → (nextObj w ≤ nextObj w')%nat →
  footprint P w w'.
Proof. intros Ht He Hn. split; [|done]. by exists es. Qed.

Lemma footprint_updateBreakpointsMaxSize P (w : World) :
  footprint P w (exec updateBreakpointsMaxSize w).
Proof.
  rewrite updateBreakpointsMaxSize_eq. destruct (breakpointView w); by apply footprint_silent.
Qed.

Lemma footprint_fire P (p : loc) (w : World) :
  footprint P w (exec (fire_onDidChange p) w).
Proof.
  rewrite fire_onDidChange_eq. apply (forEach_frame (footprint P)).
  intros. apply footprint_updateBreakpointsMaxSize.
Qed.

Lemma footprint_addPanels P (ps : list PanelToAdd) (w : World) :
  footprint P w (exec (addPanels ps) w).
Proof.
  rewrite addPanels_eq. trans (exec (super_addPanels ps) w).
  - destruct (super_addPanels_eq ps w) as (l & -> & _). by apply footprint_silent.
  - apply (forEach_frame (footprint P)). intros a w' _. rewrite addPanels_each_eq. cbn zeta.
    case_bool_decide.
    + etrans; [|apply footprint_updateBreakpointsMaxSize]. by apply footprint_silent.
    + apply footprint_silent; cbn; [done|lia].
Qed.

Lemma footprint_removePanels (ps : list loc) (w : World) :
  footprint (emits (call_removePanels ps)) w (exec (removePanels ps) w).
Proof.
  rewrite removePanels_eq. trans (exec (super_removePanels ps) w).
  - destruct (super_removePanels_eq ps w) as (l & -> & _). by apply footprint_silent.
  - apply (forEach_frame (footprint _)). intros a w' _. rewrite removePanels_each_eq. cbn zeta.
    destruct (panelListeners w' !! _) as [d|]; [|by apply footprint_silent].
    apply (footprint_one _ _ _ (Dispose d)); [by destruct d|by exists ps|by destruct d].
Qed.

Lemma footprint_memoize P key c id label (w : World) :
  P (CreateInstance c (nextObj w)) →
  footprint P w
    (exec (memoize key (a ← createInstance c id label;
                        _register (ActionHandle a);; mret a)) w).
Proof.
  intros HP. unfold exec. destruct (memoized w !! key) as [a|] eqn:Hkey.
  - rewrite (memoize_hit _ _ _ _ Hkey). done.
  - rewrite (memoize_created _ _ _ _ _ Hkey). cbn.
    apply (footprint_one _ _ _ (CreateInstance c (nextObj w))); cbn; [done|done|lia].
Qed.

Lemma footprint_three_getters P (w : World) k1 c1 i1 l1 k2 c2 i2 l2 k3 c3 i3 l3 :
  (∀ c o, P (CreateInstance c o)) →
  let g k c i l := memoize k (a ← createInstance c i l;
                              _register (ActionHandle a);; mret a) in
  footprint P w
    (exec (a ← g k1 c1 i1 l1; b ← g k2 c2 i2 l2; c ← g k3 c3 i3 l3; mret [a; b; c]) w).
Proof.
  intros HP g. rewrite !exec_bind.
  etrans; [apply (footprint_memoize P k1 c1 i1 l1); apply HP|].
  etrans; [apply (footprint_memoize P k2 c2 i2 l2); apply HP|].
  etrans; [apply (footprint_memoize P k3 c3 i3 l3); apply HP|]. done.
Qed.

(** Every call leaves in the trace only effects of its own kind. *)
Lemma footprint_step (c : Call) (w : World) :
  footprint (emits c) w (exec (step c) w).
Proof.
  destruct c; cbn [step].
  - unfold focus. run_monad. destruct (startDebugActionItem w) as [i|]; cbn.
    + apply (footprint_list _ _ _ [SuperFocus; ItemFocus i]);
        [cbn; by rewrite <- app_assoc|by repeat constructor|done].
    + by apply (footprint_one _ _ _ SuperFocus).
  - unfold focusView, getView. run_monad. destruct (head _) as [v|]; cbn.
    + apply (footprint_one _ _ _ (ViewFocus v)); [done|by exists id|done].
    + by apply footprint_silent.
  - rewrite exec_discard. destruct (showInitialDebugActions w) eqn:Hshow.
    + unfold exec. rewrite (getActions_initial _ Hshow).
      apply footprint_three_getters. intros; by left.
    + unfold exec. rewrite (getActions_docked _ Hshow).
      destruct (debugToolbarMenu w); cbn; [by apply footprint_silent|].
      eapply footprint_one; cbn; [done|by left|lia].
  - rewrite exec_discard. destruct (showInitialDebugActions w) eqn:Hshow.
    + unfold exec. rewrite (getSecondaryActions_initial _ Hshow). by apply footprint_silent.
    + unfold exec. rewrite (getSecondaryActions_docked _ Hshow).
      apply footprint_three_getters. intros; by right.
  - unfold getActionItem. run_monad.
    repeat (case_bool_decide; cbn);
      first [by apply footprint_silent
            |eapply footprint_one; cbn; [done|by exists action|lia]].
  - apply footprint_addPanels.
  - apply footprint_removePanels.
  - unfold onDebugServiceStateChange, runner_done, progressService_show, updateTitleArea.
    run_monad.
    destruct (progressRunner w); cbn; repeat (case_bool_decide; cbn);
      first [by apply footprint_silent
            |eapply footprint_list;
             [cbn; rewrite <- ?app_assoc; cbn; reflexivity
             |repeat constructor; cbn; eauto
             |cbn; lia]].
  - unfold updateTitleArea. run_monad.
    apply (footprint_one _ _ _ UpdateTitleArea); [done|right; by left|done].
  - destruct toolBarLocation' as [v|]; [|by apply footprint_silent].
    unfold updateTitleArea. run_monad.
    apply (footprint_one _ _ _ UpdateTitleArea); [done|right; right; by exists v|done].
  - apply footprint_fire.
  - unfold setExpanded. rewrite exec_bind. etrans; [|apply footprint_fire].
    by apply footprint_silent.
Qed.

(** ** The fields a call assigns *)

#[local] Instance same_fields_refl : Reflexive same_fields.
Proof. by intros w. Qed.

#[local] Instance same_fields_trans : Transitive same_fields.
Proof. intros w1 w2 w3 (?&?&?&?) (?&?&?&?). repeat split; congruence. Qed.

Lemma same_fields_updateBreakpointsMaxSize (w : World) :
  same_fields w (exec updateBreakpointsMaxSize w).
Proof. rewrite updateBreakpointsMaxSize_eq. by destruct (breakpointView w). Qed.

Lemma same_fields_fire (p : loc) (w : World) :
  same_fields w (exec (fire_onDidChange p) w).
Proof.
  rewrite fire_onDidChange_eq. apply (forEach_frame same_fields).
  intros. apply same_fields_updateBreakpointsMaxSize.
Qed.

Lemma same_fields_addPanels (ps : list PanelToAdd) (w : World) :
  same_fields w (exec (addPanels ps) w).
Proof.
  rewrite addPanels_eq. trans (exec (super_addPanels ps) w).
  - by destruct (super_addPanels_eq ps w) as (l & -> & _).
  - apply (forEach_frame same_fields). intros a w' _. rewrite addPanels_each_eq. cbn zeta.
    case_bool_decide; [|done].
    apply (same_fields_updateBreakpointsMaxSize (set_breakpointView _ w')).
Qed.

Lemma same_fields_removePanels (ps : list loc) (w : World) :
  same_fields w (exec (removePanels ps) w).
Proof.
  rewrite removePanels_eq. trans (exec (super_removePanels ps) w).
  - by destruct (super_removePanels_eq ps w) as (l & -> & _).
  - apply (forEach_frame same_fields). intros a w' _. rewrite removePanels_each_eq. cbn zeta.
    by destruct (panelListeners w' !! _) as [[]|].
Qed.

Lemma same_fields_memoize key c id label (w : World) :
  same_fields w
    (exec (memoize key (a ← createInstance c id label;
                        _register (ActionHandle a);; mret a)) w).
Proof.
  unfold exec. destruct (memoized w !! key) as [a|] eqn:Hkey.
  - by rewrite (memoize_hit _ _ _ _ Hkey).
  - by rewrite (memoize_created _ _ _ _ _ Hkey).
Qed.

Lemma same_fields_three_getters (w : World) k1 c1 i1 l1 k2 c2 i2 l2 k3 c3 i3 l3 :
  let g k c i l := memoize k (a ← createInstance c i l;
                              _register (ActionHandle a);; mret a) in
  same_fields w
    (exec (a ← g k1 c1 i1 l1; b ← g k2 c2 i2 l2; c ← g k3 c3 i3 l3; mret [a; b; c]) w).
Proof.
  intros g. rewrite !exec_bind.
  etrans; [apply (same_fields_memoize k1 c1 i1 l1)|].
  etrans; [apply (same_fields_memoize k2 c2 i2 l2)|].
  etrans; [apply (same_fields_memoize k3 c3 i3 l3)|]. done.
Qed.

Lemma same_fields_getActions (w : World) : same_fields w (exec getActions w).
Proof.
  destruct (showInitialDebugActions w) eqn:Hshow; unfold exec.
  - rewrite (getActions_initial _ Hshow). apply same_fields_three_getters.
  - rewrite (getActions_docked _ Hshow). by destruct (debugToolbarMenu w).
Qed.

Lemma same_fields_getSecondaryActions (w : World) :
  same_fields w (exec getSecondaryActions w).
Proof.
  destruct (showInitialDebugActions w) eqn:Hshow; unfold exec.
  - by rewrite (getSecondaryActions_initial _ Hshow).
  - rewrite (getSecondaryActions_docked _ Hshow). apply same_fields_three_getters.
Qed.

(** Only [getActionItem] assigns the start-debug action item, only a
    debug state change the progress runner and the debug state, only a
    configuration change the toolbar location. *)
Lemma fields_step (c : Call) (w : World) :
  ((∀ a, c ≠ call_getActionItem a) →
     startDebugActionItem (exec (step c) w) = startDebugActionItem w)
  ∧ ((∀ s, c ≠ debugStateChanged s) →
       progressRunner (exec (step c) w) = progressRunner w
       ∧ debugService_state (exec (step c) w) = debugService_state w)
  ∧ ((∀ v, c ≠ configurationChanged v) →
       toolBarLocation (exec (step c) w) = toolBarLocation w).
Proof.
  assert (same_fields w (exec (step c) w) →
    ((∀ a, c ≠ call_getActionItem a) →
       startDebugActionItem (exec (step c) w) = startDebugActionItem w)
    ∧ ((∀ s, c ≠ debugStateChanged s) →
         progressRunner (exec (step c) w) = progressRunner w
         ∧ debugService_state (exec (step c) w) = debugService_state w)
    ∧ ((∀ v, c ≠ configurationChanged v) →
         toolBarLocation (exec (step c) w) = toolBarLocation w)) as Hsame.
  { intros (?&?&?&?). done. }
  destruct c;
    [apply Hsame..| |apply Hsame|apply Hsame| |apply Hsame| |apply Hsame|apply Hsame];
    cbn [step]; rewrite ?exec_discard.
  - unfold focus. run_monad. by destruct (startDebugActionItem w).
  - unfold focusView, getView. run_monad. by destruct (head _).
  - apply same_fields_getActions.
  - apply same_fields_getSecondaryActions.
  - split; [intros H; by destruct (H action)|].
    unfold getActionItem. run_monad. by repeat (case_bool_decide; cbn).
  - apply same_fields_addPanels.
  - apply same_fields_removePanels.
  - split; [|split; [intros H; by destruct (H state)|]]; intros _;
      unfold onDebugServiceStateChange, runner_done, progressService_show, updateTitleArea;
      run_monad;
      by destruct (progressRunner w); cbn; repeat (case_bool_decide; cbn).
  - done.
  - split; [|split; [|intros H; by destruct (H toolBarLocation')]]; intros _;
      by destruct toolBarLocation'.
  - apply same_fields_fire.
  - unfold setExpanded. rewrite exec_bind. etrans; [|apply same_fields_fire]. done.
Qed.

(** ** The progress indicator *)

Lemma showing_snoc (t : list Effect) (e : Effect) :
  showing (t ++ [e]) =
  match e with
  | ProgressShow _ r => showing t ++ [r]
  | ProgressDone r => filter (λ r', r' ≠ r) (showing t)
  | _ => showing t
  end.
Proof. unfold showing. by rewrite foldl_app. Qed.

Lemma showing_app_other (c : Call) (t es : list Effect) :
  (∀ s, c ≠ debugStateChanged s) → Forall (emits c) es →
  showing (t ++ es) = showing t.
Proof.
  intros Hc. induction es as [|e es IH] using rev_ind; intros Hes.
  - by rewrite app_nil_r.
  - rewrite list.Forall_app, list.Forall_singleton in Hes. destruct Hes as [Hes He].
    rewrite app_assoc, showing_snoc, (IH Hes).
    destruct e; try done; destruct He as [s ->]; by destruct (Hc s).
Qed.

(** A state change as the debug service notifies it: its trace and what it
    stores. *)
Lemma debugStateChanged_eq (s : State) (w : World) :
  let w' := exec (step (debugStateChanged s)) w in
  let r := {| runner_obj := nextObj w; runner_infinite := true |} in
  trace w' =
    ((trace w
      ++ match progressRunner w with Some old => [ProgressDone old] | None => [] end)
     ++ (if decide (s = Initializing) then [ProgressShow true r] else []))
    ++ (if decide (toolBarLocation w = "docked") then [UpdateTitleArea] else [])
  ∧ progressRunner w' = (if decide (s = Initializing) then Some r else progressRunner w)
  ∧ debugService_state w' = s.
Proof.
  cbn [step]. unfold onDebugServiceStateChange, runner_done, progressService_show,
    updateTitleArea.
  run_monad.
  destruct (progressRunner w) as [old|] eqn:Hr; cbn;
    destruct (decide (s = Initializing)) as [Hs|Hs];
    rewrite ?(bool_decide_eq_true_2 _ Hs), ?(bool_decide_eq_false_2 _ Hs); cbn;
    destruct (decide (toolBarLocation w = "docked")) as [Hl|Hl];
    rewrite ?(bool_decide_eq_true_2 _ Hl), ?(bool_decide_eq_false_2 _ Hl); cbn;
    rewrite ?app_nil_r; auto.
Qed.

Lemma showing_debugStateChanged (s : State) (w : World) :
  progress_inv w →
  showing (trace (exec (step (debugStateChanged s)) w)) =
  if decide (s = Initializing)
  then [{| runner_obj := nextObj w; runner_infinite := true |}] else [].
Proof.
  intros Hinv. destruct (debugStateChanged_eq s w) as (-> & _ & _).
  assert (showing (trace w ++ match progressRunner w with
                              | Some old => [ProgressDone old] | None => [] end) = [])
    as Hdone.
  { unfold progress_inv in Hinv. destruct (progressRunner w) as [old|].
    - rewrite showing_snoc. destruct (showing (trace w)) as [|r [|r' l]]; [done| |done].
      destruct Hinv as (Hr & _). injection Hr as ->.
      rewrite filter_cons_False; [done|]. by intros H.
    - rewrite app_nil_r. destruct (showing (trace w)) as [|r [|r' l]]; [done| |done].
      by destruct Hinv. }
  assert (∀ t, showing (t ++ (if decide (toolBarLocation w = "docked")
                              then [UpdateTitleArea] else [])) = showing t) as Htitle.
  { intros t. destruct (decide _); [by rewrite showing_snoc|by rewrite app_nil_r]. }
  rewrite Htitle. destruct (decide (s = Initializing)).
  - by rewrite showing_snoc, Hdone.
  - by rewrite app_nil_r.
Qed.

Lemma progress_inv_step (c : Call) (w : World) :
  progress_inv w → progress_inv (exec (step c) w).
Proof.
  intros Hinv.
  assert ((∀ s, c ≠ debugStateChanged s) → progress_inv (exec (step c) w)) as Hother.
  { intros Hc. destruct (footprint_step c w) as [(es & Ht & Hes) _].
    destruct (fields_step c w) as (_ & Hf & _). destruct (Hf Hc) as [Hr Hs].
    unfold progress_inv. by rewrite Ht, (showing_app_other c), Hr, Hs. }
  destruct c; try (by apply Hother).
  unfold progress_inv. rewrite (showing_debugStateChanged _ _ Hinv).
  destruct (debugStateChanged_eq state w) as (_ & Hr & Hs).
  destruct (decide (state = Initializing)) as [->|]; [|done].
  by rewrite Hr, Hs.
Qed.

Lemma progress_inv_run (cs : list Call) (w : World) :
  progress_inv w → progress_inv (run cs w).
Proof.
  revert w. induction cs as [|c cs IH]; intros w Hinv; [done|].
  change (run (c :: cs) w) with (run cs (exec (step c) w)).
  by apply IH, progress_inv_step.
Qed.

(** X1.  Whatever has been called on a viewlet since its construction, at
    most one progress indicator is showing; one that is showing is the stored
    runner, is indeterminate, and shows while the debug service is
    initializing; and a state change leaves one showing exactly when the new
    state is [Initializing]. *)
Theorem progress_shows_while_initializing state location σ next (cs : list Call) :
  let w := run cs (constructor state location σ next) in
  (length (showing (trace w)) ≤ 1)%nat
  ∧ (∀ r, r ∈ showing (trace w) →
       progressRunner w = Some r ∧ debugService_state w = Initializing
       ∧ runner_infinite r = true)
  ∧ (∀ s, showing (trace (exec (step (debugStateChanged s)) w)) =
          if decide (s = Initializing)
          then [{| runner_obj := nextObj w; runner_infinite := true |}] else []).
Proof.
  intros w.
  assert (progress_inv w) as Hinv by (by apply progress_inv_run).
  split; [|split].
  - unfold progress_inv in Hinv.
    destruct (showing (trace w)) as [|r [|r' l]]; cbn; [lia|lia|done].
  - intros r Hr. unfold progress_inv in Hinv.
    destruct (showing (trace w)) as [|r0 [|r' l]]; [by apply elem_of_nil in Hr| |done].
    by apply list_elem_of_singleton in Hr as ->.
  - intros s. by apply showing_debugStateChanged.
Qed.

(** ** Focus *)

Lemma start_items_other (c : Call) (es : list Effect) :
  (∀ a, c ≠ call_getActionItem a) → Forall (emits c) es → start_items es = [].
Proof.
  intros Hc. induction 1 as [|e es He _ IH]; [done|].
  unfold start_items in *. cbn. rewrite IH.
  destruct e; try done. destruct He as [a ->]. by destruct (Hc a).
Qed.

Lemma focus_inv_step (c : Call) (w : World) :
  focus_inv w → focus_inv (exec (step c) w).
Proof.
  intros [Hlast Hall].
  assert ((∀ a, c ≠ call_getActionItem a) → focus_inv (exec (step c) w)) as Hother.
  { intros Hc. destruct (footprint_step c w) as [(es & Ht & Hes) _].
    destruct (fields_step c w) as (Hf & _). unfold focus_inv.
    rewrite Ht, (Hf Hc). unfold start_items in *. rewrite omap_app.
    fold (start_items es). rewrite (start_items_other c es Hc Hes), app_nil_r. done. }
  destruct c; try (by apply Hother). cbn [step]. rewrite exec_discard.
  unfold focus_inv, getActionItem. run_monad. unfold start_items in *.
  case_bool_decide as H1; cbn.
  { rewrite omap_app. cbn. rewrite last_snoc. split; [done|].
    apply list.Forall_app. split; [done|]. apply list.Forall_singleton. eauto. }
  case_bool_decide as H2; cbn; [by rewrite omap_app, app_nil_r|].
  case_bool_decide as H3; cbn; [by rewrite omap_app, app_nil_r|done].
Qed.

Lemma focus_inv_run (cs : list Call) (w : World) :
  focus_inv w → focus_inv (run cs w).
Proof.
  revert w. induction cs as [|c cs IH]; intros w Hinv; [done|].
  change (run (c :: cs) w) with (run cs (exec (step c) w)).
  by apply IH, focus_inv_step.
Qed.

(** X2.  Whatever has been called on a viewlet since its construction,
    [focus] focuses the viewlet and then forwards to the start-debug action
    item that [getActionItem] created last, if it has created one, and to
    nothing else; that item is for an action with the Start action's id. *)
Theorem focus_forwards_to_latest_start_item state location σ next (cs : list Call) :
  let w := run cs (constructor state location σ next) in
  startDebugActionItem w = list.last (start_items (trace w))
  ∧ trace (exec focus w) =
      trace w ++ SuperFocus :: match list.last (start_items (trace w)) with
                               | Some i => [ItemFocus i]
                               | None => []
                               end
  ∧ (∀ i, startDebugActionItem w = Some i →
       ∃ o a, i = StartDebugActionItem o a ∧ action_id a = StartAction_ID).
Proof.
  intros w.
  assert (focus_inv w) as [Hlast Hall].
  { apply focus_inv_run. split; [done|]. apply Forall_nil. }
  split; [done|]. split.
  - rewrite <- Hlast. unfold focus. run_monad.
    destruct (startDebugActionItem w); cbn; [by rewrite <- app_assoc|done].
  - intros i Hi. rewrite Hlast in Hi. apply last_Some_elem_of in Hi.
    rewrite list.Forall_forall in Hall. by apply Hall.
Qed.

(** X3.  Each call adds to the trace only effects of its own kind: the
    progress service is used only by a debug state change and the title area
    refreshed only by the three events the constructor subscribes to, actions
    and the menu are created only by the two action lists, action items only
    by [getActionItem], focus is forwarded only by [focus] and [focusView],
    and nothing but [removePanels] disposes of anything.  So the trace of a
    sequence of calls is made of one such segment for each call, in order. *)
Theorem effects_have_their_source :
  (∀ (c : Call) (w : World),
     ∃ es, trace (exec (step c) w) = trace w ++ es ∧ Forall (emits c) es)
  ∧ (∀ (cs : list Call) (w : World),
       ∃ segments, trace (run cs w) = trace w ++ concat segments
                   ∧ Forall2 (λ c es, Forall (emits c) es) cs segments).
Proof.
  split; [intros c w; apply footprint_step|].
  induction cs as [|c cs IH]; intros w.
  { exists []. split; [by rewrite app_nil_r|constructor]. }
  change (run (c :: cs) w) with (run cs (exec (step c) w)).
  destruct (footprint_step c w) as [(es & Ht & Hes) _].
  destruct (IH (exec (step c) w)) as (segments & Hrun & Hall).
  exists (es :: segments). split; [|by constructor].
  by rewrite Hrun, Ht, <- app_assoc.
Qed.

(** ** The action lists, again *)

Lemma memoize_stores key c id label (w : World) :
  let m := memoize key (a ← createInstance c id label;
                        _register (ActionHandle a);; mret a) in
  memoized (exec m w) !! key = Some (result m w)
  ∧ (∀ key' a, memoized w !! key' = Some a → memoized (exec m w) !! key' = Some a)
  ∧ debugToolbarMenu (exec m w) = debugToolbarMenu w.
Proof.
  intros m. unfold exec, result, m.
  destruct (memoized w !! key) as [a|] eqn:Hkey.
  - by rewrite (memoize_hit _ _ _ _ Hkey).
  - rewrite (memoize_created _ _ _ _ _ Hkey). cbn.
    split; [by rewrite lookup_insert_eq|]. split; [|done].
    intros key' a Ha. rewrite lookup_insert_ne; [done|congruence].
Qed.

Lemma showInitialDebugActions_same_fields (w w' : World) :
  same_fields w w' → showInitialDebugActions w' = showInitialDebugActions w.
Proof. intros (_ & _ & Hs & Hl). unfold showInitialDebugActions. by rewrite Hs, Hl. Qed.

(** Three getters read in a row, and what they leave stored. *)
Lemma three_getters_store (w : World) k1 c1 i1 l1 k2 c2 i2 l2 k3 c3 i3 l3 :
  let g k c i l := memoize k (a ← createInstance c i l;
                              _register (ActionHandle a);; mret a) in
  let m := a ← g k1 c1 i1 l1; b ← g k2 c2 i2 l2; c ← g k3 c3 i3 l3; mret [a; b; c] in
  (∃ a b c, result m w = [a; b; c]
     ∧ memoized (exec m w) !! k1 = Some a
     ∧ memoized (exec m w) !! k2 = Some b
     ∧ memoized (exec m w) !! k3 = Some c)
  ∧ (∀ key a, memoized w !! key = Some a → memoized (exec m w) !! key = Some a)
  ∧ debugToolbarMenu (exec m w) = debugToolbarMenu w.
Proof.
  intros g m.
  destruct (memoize_stores k1 c1 i1 l1 w) as (Hm1 & Hst1 & Hmenu1).
  fold (g k1 c1 i1 l1) in Hm1, Hst1, Hmenu1. set (w1 := exec (g k1 c1 i1 l1) w) in *.
  destruct (memoize_stores k2 c2 i2 l2 w1) as (Hm2 & Hst2 & Hmenu2).
  fold (g k2 c2 i2 l2) in Hm2, Hst2, Hmenu2. set (w2 := exec (g k2 c2 i2 l2) w1) in *.
  destruct (memoize_stores k3 c3 i3 l3 w2) as (Hm3 & Hst3 & Hmenu3).
  fold (g k3 c3 i3 l3) in Hm3, Hst3, Hmenu3. set (w3 := exec (g k3 c3 i3 l3) w2) in *.
  assert (He : exec m w = w3) by (unfold m; by rewrite !exec_bind).
  assert (Hr : result m w = [result (g k1 c1 i1 l1) w; result (g k2 c2 i2 l2) w1;
                             result (g k3 c3 i3 l3) w2])
    by (unfold m; by rewrite !result_bind).
  rewrite He, Hr. split; [|split; [by auto|congruence]].
  eexists _, _, _. split; [done|]. auto.
Qed.

(** Read when all three are stored, they are the stored ones. *)
Lemma three_getters_stored (w : World) k1 c1 i1 l1 k2 c2 i2 l2 k3 c3 i3 l3 a b c :
  memoized w !! k1 = Some a → memoized w !! k2 = Some b → memoized w !! k3 = Some c →
  let g k c i l := memoize k (a ← createInstance c i l;
                              _register (ActionHandle a);; mret a) in
  (a ← g k1 c1 i1 l1; b ← g k2 c2 i2 l2; c ← g k3 c3 i3 l3; mret [a; b; c]) w
  = ([a; b; c], w).
Proof.
  intros H1 H2 H3 g. unfold mbind, M_bind, g.
  by rewrite (memoize_hit _ _ _ _ H1), (memoize_hit _ _ _ _ H2), (memoize_hit _ _ _ _ H3).
Qed.

Lemma getActions_initial_stores (w : World) :
  showInitialDebugActions w = true →
  (∃ a b c, result getActions w = [a; b; c]
     ∧ memoized (exec getActions w) !! "startAction" = Some a
     ∧ memoized (exec getActions w) !! "configureAction" = Some b
     ∧ memoized (exec getActions w) !! "toggleReplAction" = Some c)
  ∧ (∀ key a, memoized w !! key = Some a →
       memoized (exec getActions w) !! key = Some a).
Proof.
  intros Hshow. unfold result, exec. rewrite (getActions_initial _ Hshow).
  destruct (three_getters_store w "startAction" StartAction StartAction_ID
              StartAction_LABEL "configureAction" ConfigureAction ConfigureAction_ID
              ConfigureAction_LABEL "toggleReplAction" ToggleReplAction
              ToggleReplAction_ID (nls_localize "debugConsoleAction" "Debug Console"))
    as (H & Hst & _).
  split; [exact H|exact Hst].
Qed.

Lemma getActions_initial_stored (w : World) a b c :
  showInitialDebugActions w = true →
  memoized w !! "startAction" = Some a → memoized w !! "configureAction" = Some b →
  memoized w !! "toggleReplAction" = Some c →
  getActions w = ([a; b; c], w).
Proof.
  intros Hshow Ha Hb Hc. rewrite (getActions_initial _ Hshow).
  exact (three_getters_stored w _ StartAction StartAction_ID StartAction_LABEL
           _ ConfigureAction ConfigureAction_ID ConfigureAction_LABEL
           _ ToggleReplAction ToggleReplAction_ID
           (nls_localize "debugConsoleAction" "Debug Console") a b c Ha Hb Hc).
Qed.

Lemma getSecondaryActions_docked_stores (w : World) :
  showInitialDebugActions w = false →
  (∃ a b c, result getSecondaryActions w = [a; b; c]
     ∧ memoized (exec getSecondaryActions w) !! "selectAndStartAction" = Some a
     ∧ memoized (exec getSecondaryActions w) !! "configureAction" = Some b
     ∧ memoized (exec getSecondaryActions w) !! "toggleReplAction" = Some c)
  ∧ (∀ key a, memoized w !! key = Some a →
       memoized (exec getSecondaryActions w) !! key = Some a).
Proof.
  intros Hshow. unfold result, exec. rewrite (getSecondaryActions_docked _ Hshow).
  destruct (three_getters_store w "selectAndStartAction" SelectAndStartAction
              SelectAndStartAction_ID
              (nls_localize "startAdditionalSession" "Start Additional Session")
              "configureAction" ConfigureAction ConfigureAction_ID
              ConfigureAction_LABEL "toggleReplAction" ToggleReplAction
              ToggleReplAction_ID (nls_localize "debugConsoleAction" "Debug Console"))
    as (H & Hst & _).
  split; [exact H|exact Hst].
Qed.

Lemma getSecondaryActions_docked_stored (w : World) a b c :
  showInitialDebugActions w = false →
  memoized w !! "selectAndStartAction" = Some a →
  memoized w !! "configureAction" = Some b →
  memoized w !! "toggleReplAction" = Some c →
  getSecondaryActions w = ([a; b; c], w).
Proof.
  intros Hshow Ha Hb Hc. rewrite (getSecondaryActions_docked _ Hshow).
  exact (three_getters_stored w _ SelectAndStartAction SelectAndStartAction_ID
           (nls_localize "startAdditionalSession" "Start Additional Session")
           _ ConfigureAction ConfigureAction_ID ConfigureAction_LABEL
           _ ToggleReplAction ToggleReplAction_ID
           (nls_localize "debugConsoleAction" "Debug Console") a b c Ha Hb Hc).
Qed.

Lemma action_lists_again (w : World) :
  getActions (exec getActions w) = (result getActions w, exec getActions w)
  ∧ getSecondaryActions (exec getSecondaryActions w)
    = (result getSecondaryActions w, exec getSecondaryActions w).
Proof.
  split.
  - pose proof (showInitialDebugActions_same_fields _ _ (same_fields_getActions w)) as Hsame.
    destruct (showInitialDebugActions w) eqn:Hshow.
    + destruct (getActions_initial_stores w Hshow) as ((a & b & c & -> & Ha & Hb & Hc) & _).
      by apply getActions_initial_stored.
    + rewrite (getActions_docked _ Hsame). unfold exec, result.
      rewrite (getActions_docked _ Hshow).
      destruct (debugToolbarMenu w) eqn:Hmenu; cbn; by rewrite ?Hmenu.
  - pose proof (showInitialDebugActions_same_fields _ _
                  (same_fields_getSecondaryActions w)) as Hsame.
    destruct (showInitialDebugActions w) eqn:Hshow.
    + rewrite (getSecondaryActions_initial _ Hsame). unfold exec, result.
      by rewrite (getSecondaryActions_initial _ Hshow).
    + destruct (getSecondaryActions_docked_stores w Hshow)
        as ((a & b & c & -> & Ha & Hb & Hc) & _).
      by apply getSecondaryActions_docked_stored.
Qed.

(** X4.  Reading an action list a second time in a row leaves the viewlet
    exactly as the first read left it: nothing is created, stored or
    registered again.  The lists built here, the primary one in initial mode
    and the secondary one always, are returned again with the same
    instances. *)
Theorem action_lists_idempotent (w : World) :
  exec getActions (exec getActions w) = exec getActions w
  ∧ exec getSecondaryActions (exec getSecondaryActions w) = exec getSecondaryActions w
  ∧ (showInitialDebugActions w = true →
     result getActions (exec getActions w) = result getActions w)
  ∧ result getSecondaryActions (exec getSecondaryActions w)
    = result getSecondaryActions w.
Proof.
  destruct (action_lists_again w) as [Ha Hs].
  split; [unfold exec at 1; by rewrite Ha|].
  split; [unfold exec at 1; by rewrite Hs|].
  split; [intros _; unfold result at 1; by rewrite Ha|unfold result at 1; by rewrite Hs].
Qed.

Lemma memoized_kept_step (c : Call) (w : World) key a :
  memoized w !! key = Some a → memoized (exec (step c) w) !! key = Some a.
Proof.
  intros Ha.
  assert (c ≠ call_getActions → c ≠ call_getSecondaryActions →
          memoized (exec (step c) w) !! key = Some a) as Hother.
  { intros H1 H2. by rewrite (proj1 (owned_frame_step c w H1 H2)). }
  destruct c; try (by apply Hother); cbn [step]; rewrite exec_discard.
  - destruct (showInitialDebugActions w) eqn:Hshow.
    + by apply (getActions_initial_stores w Hshow).
    + unfold exec. rewrite (getActions_docked _ Hshow). by destruct (debugToolbarMenu w).
  - destruct (showInitialDebugActions w) eqn:Hshow.
    + unfold exec. by rewrite (getSecondaryActions_initial _ Hshow).
    + by apply (getSecondaryActions_docked_stores w Hshow).
Qed.

Lemma memoized_kept_run (cs : list Call) (w : World) key a :
  memoized w !! key = Some a → memoized (run cs w) !! key = Some a.
Proof.
  revert w. induction cs as [|c cs IH]; intros w Ha; [done|].
  change (run (c :: cs) w) with (run cs (exec (step c) w)).
  by apply IH, memoized_kept_step.
Qed.

(** X5.  The two action lists of one viewlet share their Configure and
    ToggleDebugConsole actions: the instances the primary list has in
    initial mode are the ones the secondary list has outside it, whatever is
    called in between, and the other way round. *)
Theorem action_lists_share_instances (w : World) (cs : list Call) :
  (showInitialDebugActions w = true →
   showInitialDebugActions (run cs (exec getActions w)) = false →
   ∃ a b c s, result getActions w = [a; b; c]
     ∧ result getSecondaryActions (run cs (exec getActions w)) = [s; b; c])
  ∧ (showInitialDebugActions w = false →
     showInitialDebugActions (run cs (exec getSecondaryActions w)) = true →
     ∃ s b c a, result getSecondaryActions w = [s; b; c]
       ∧ result getActions (run cs (exec getSecondaryActions w)) = [a; b; c]).
Proof.
  split; intros Hshow Hshow'.
  - destruct (getActions_initial_stores w Hshow) as ((a & b & c & Hr & _ & Hb & Hc) & _).
    destruct (getSecondaryActions_docked_stores _ Hshow')
      as ((s & b' & c' & Hr' & _ & Hb' & Hc') & Hkept).
    apply (memoized_kept_run cs), Hkept in Hb, Hc.
    exists a, b, c, s. split; [done|]. rewrite Hr'. congruence.
  - destruct (getSecondaryActions_docked_stores w Hshow)
      as ((s & b & c & Hr & _ & Hb & Hc) & _).
    destruct (getActions_initial_stores _ Hshow')
      as ((a & b' & c' & Hr' & _ & Hb' & Hc') & Hkept).
    apply (memoized_kept_run cs), Hkept in Hb, Hc.
    exists s, b, c, a. split; [done|]. rewrite Hr'. congruence.
Qed.

(** ** What the viewlet disposes *)

#[local] Instance disposal_frame_refl : Reflexive disposal_frame.
Proof. by intros w. Qed.

#[local] Instance disposal_frame_trans : Transitive disposal_frame.
Proof. intros w1 w2 w3 [? ?] [? ?]. split; [by etrans|lia]. Qed.

Lemma disposal_frame_owned (w w' : World) : owned_frame w w' → disposal_frame w w'.
Proof.
  intros (_ & _ & Hd & Hi & Hm). unfold disposal_frame, owned_total.
  by rewrite Hd, !Hi, Hm.
Qed.

Lemma owned_total_instance (g : string * ActionClass * string) (t : list Effect) o :
  g ∈ memoized_getters →
  owned_total (t ++ [CreateInstance g.1.2 o]) = S (owned_total t).
Proof.
  rewrite elem_of_memoized_getters. unfold owned_total.
  intros [-> | [-> | [-> | ->]]]; cbn;
    rewrite !instances_snoc, menus_snoc; cbn; rewrite !length_app;
    repeat case_decide; try done; cbn; lia.
Qed.

Lemma disposal_frame_memoize key c id label (w : World) :
  (key, c, id) ∈ memoized_getters →
  disposal_frame w
    (exec (memoize key (a ← createInstance c id label;
                        _register (ActionHandle a);; mret a)) w).
Proof.
  intros Hin. unfold exec. destruct (memoized w !! key) as [a|] eqn:Hkey.
  - by rewrite (memoize_hit _ _ _ _ Hkey).
  - rewrite (memoize_created _ _ _ _ _ Hkey). cbn. split; cbn.
    + by apply prefix_app_r.
    + rewrite (owned_total_instance _ _ _ Hin), length_app. cbn. lia.
Qed.

Lemma disposal_frame_step (c : Call) (w : World) :
  disposal_frame w (exec (step c) w).
Proof.
  assert (c ≠ call_getActions → c ≠ call_getSecondaryActions →
          disposal_frame w (exec (step c) w)) as Hother.
  { intros H1 H2. by apply disposal_frame_owned, owned_frame_step. }
  destruct c; try (by apply Hother); cbn [step]; rewrite exec_discard.
  - destruct (showInitialDebugActions w) eqn:Hshow; unfold exec.
    + rewrite (getActions_initial _ Hshow).
      change (disposal_frame w (exec (a ← startAction; b ← configureAction;
                                      c ← toggleReplAction; mret [a; b; c]) w)).
      rewrite !exec_bind. unfold startAction, configureAction, toggleReplAction.
      etrans; [apply (disposal_frame_memoize _ _ _ StartAction_LABEL _ in_getters_start)|].
      etrans; [apply (disposal_frame_memoize _ _ _ ConfigureAction_LABEL _
                        in_getters_configure)|].
      etrans; [apply (disposal_frame_memoize _ _ _
                        (nls_localize "debugConsoleAction" "Debug Console") _
                        in_getters_toggleRepl)|]. done.
    + rewrite (getActions_docked _ Hshow).
      destruct (debugToolbarMenu w); cbn; [done|]. split; cbn.
      * by apply prefix_app_r.
      * unfold owned_total. rewrite !instances_snoc, menus_snoc, !length_app. cbn. lia.
  - destruct (showInitialDebugActions w) eqn:Hshow; unfold exec.
    + by rewrite (getSecondaryActions_initial _ Hshow).
    + rewrite (getSecondaryActions_docked _ Hshow).
      change (disposal_frame w (exec (a ← selectAndStartAction; b ← configureAction;
                                      c ← toggleReplAction; mret [a; b; c]) w)).
      rewrite !exec_bind.
      unfold selectAndStartAction, configureAction, toggleReplAction.
      etrans; [apply (disposal_frame_memoize _ _ _
                        (nls_localize "startAdditionalSession" "Start Additional Session")
                        _ in_getters_selectAndStart)|].
      etrans; [apply (disposal_frame_memoize _ _ _ ConfigureAction_LABEL _
                        in_getters_configure)|].
      etrans; [apply (disposal_frame_memoize _ _ _
                        (nls_localize "debugConsoleAction" "Debug Console") _
                        in_getters_toggleRepl)|]. done.
Qed.

Lemma disposal_frame_run (cs : list Call) (w : World) :
  disposal_frame w (run cs w).
Proof.
  revert w. induction cs as [|c cs IH]; intros w; [done|].
  change (run (c :: cs) w) with (run cs (exec (step c) w)).
  etrans; [apply disposal_frame_step|apply IH].
Qed.

(** X6.  Whatever was registered for disposal before, by the base class at
    construction or by the viewlet: what is registered after any calls starts
    with it and has one more entry for each action and menu the calls have
    created; the viewlet creates five of them at most, so the calls add five
    entries at most, however often the action lists are read. *)
Theorem toDispose_bounded (w : World) (cs : list Call) :
  owned_inv w →
  let w' := run cs w in
  toDispose w `prefix_of` toDispose w'
  ∧ (length (toDispose w') + owned_total (trace w)
     = length (toDispose w) + owned_total (trace w'))%nat
  ∧ (owned_total (trace w') ≤ 5)%nat
  ∧ (length (toDispose w') ≤ length (toDispose w) + 5)%nat.
Proof.
  intros Hinv w'.
  destruct (disposal_frame_run cs w) as [Hpre Hlen]. fold w' in Hpre, Hlen.
  destruct (owned_inv_run cs _ Hinv) as ([Hmemo Hmenu] & _). fold w' in Hmemo, Hmenu.
  split; [done|]. split; [done|].
  rewrite list.Forall_forall in Hmemo.
  assert (∀ g, g ∈ memoized_getters → (length (instances g.1.2 (trace w')) ≤ 1)%nat) as Hg.
  { intros g Hin. specialize (Hmemo g Hin). unfold memo_inv in Hmemo.
    destruct (memoized w' !! g.1.1); [destruct Hmemo as (_ & _ & -> & _)|rewrite Hmemo];
      cbn; lia. }
  assert ((length (menus (trace w')) ≤ 1)%nat) as Hm.
  { unfold menu_inv in Hmenu.
    destruct (debugToolbarMenu w'); [destruct Hmenu as (_ & -> & _)|rewrite Hmenu];
      cbn; lia. }
  pose proof (Hg _ in_getters_start). pose proof (Hg _ in_getters_configure).
  pose proof (Hg _ in_getters_toggleRepl). pose proof (Hg _ in_getters_selectAndStart).
  assert ((owned_total (trace w') ≤ 5)%nat) as Hfive.
  { unfold owned_total. cbn in *. lia. }
  split; [done|]. lia.
Qed.

(** ** The stored breakpoints panel, again *)

Lemma breakpointView_addPanels_loop (σ : loc → ViewletPanel) (ps : list PanelToAdd)
    (w : World) :
  (∀ p, panel_id (heap w p) = panel_id (σ p)) →
  breakpointView (exec (forEach ps addPanels_each) w) =
  match list.last (filter (λ p, panel_id (σ p) = BREAKPOINTS_VIEW_ID) (panel <$> ps)) with
  | Some b => Some b
  | None => breakpointView w
  end.
Proof.
  revert w. induction ps as [|a ps IH]; intros w Hids; [done|].
  rewrite exec_forEach_cons, IH.
  - rewrite fmap_cons, filter_cons, addPanels_each_eq. cbn zeta. rewrite Hids.
    destruct (decide (panel_id (σ (panel a)) = BREAKPOINTS_VIEW_ID)) as [Hbp|Hbp].
    + rewrite bool_decide_eq_true_2, last_cons by done.
      rewrite (proj1 (proj2 (proj2 (panels_frame_updateBreakpointsMaxSize _)))). cbn.
      by destruct (list.last _).
    + by rewrite bool_decide_eq_false_2 by done.
  - intros p. rewrite <- Hids.
    pose proof (same_ids_addPanels_loop [a] w p) as H.
    by rewrite exec_forEach_cons in H.
Qed.

Lemma breakpointView_step_eq (σ : loc → ViewletPanel) (c : Call) (w : World) :
  (∀ p, panel_id (heap w p) = panel_id (σ p)) →
  breakpointView (exec (step c) w) =
  match list.last (breakpoints_attached σ c) with
  | Some b => Some b
  | None => breakpointView w
  end.
Proof.
  intros Hids.
  assert ((∀ ps, c ≠ call_addPanels ps) → (∀ ps, c ≠ call_removePanels ps) →
          breakpointView (exec (step c) w) = breakpointView w) as Hother.
  { intros Ha Hr. apply (panels_frame_step c w Ha Hr). }
  destruct c; try (by apply Hother); cbn [step breakpoints_attached].
  - rewrite addPanels_eq. destruct (super_addPanels_eq ps w) as (l & -> & _).
    by rewrite (breakpointView_addPanels_loop σ).
  - apply breakpointView_removePanels.
Qed.

Lemma breakpointView_run_eq (σ : loc → ViewletPanel) (cs : list Call) (w : World) :
  (∀ p, panel_id (heap w p) = panel_id (σ p)) →
  breakpointView (run cs w) =
  match list.last (cs ≫= breakpoints_attached σ) with
  | Some b => Some b
  | None => breakpointView w
  end.
Proof.
  revert w. induction cs as [|c cs IH]; intros w Hids; [done|].
  change (run (c :: cs) w) with (run cs (exec (step c) w)).
  rewrite IH, bind_cons, last_app, (breakpointView_step_eq σ) by
    (try done; intros p; rewrite <- Hids; apply same_ids_step).
  by destruct (list.last (cs ≫= _)).
Qed.

(** X7.  The stored breakpoints panel is the panel of the breakpoints id
    that [addPanels] was given last, and none before the first; no other
    call, [removePanels] included, changes it. *)
Theorem breakpointView_is_last_attached state location σ next (cs : list Call) :
  breakpointView (run cs (constructor state location σ next))
  = list.last (cs ≫= breakpoints_attached σ).
Proof.
  rewrite (breakpointView_run_eq σ) by done. by destruct (list.last _).
Qed.

(** ** What the viewlet writes to a panel *)

Lemma heap_memoize key c id label (w : World) :
  heap (exec (memoize key (a ← createInstance c id label;
                           _register (ActionHandle a);; mret a)) w) = heap w.
Proof.
  unfold exec. destruct (memoized w !! key) as [a|] eqn:Hkey.
  - by rewrite (memoize_hit _ _ _ _ Hkey).
  - by rewrite (memoize_created _ _ _ _ _ Hkey).
Qed.

Lemma heap_three_getters (w : World) k1 c1 i1 l1 k2 c2 i2 l2 k3 c3 i3 l3 :
  let g k c i l := memoize k (a ← createInstance c i l;
                              _register (ActionHandle a);; mret a) in
  heap (exec (a ← g k1 c1 i1 l1; b ← g k2 c2 i2 l2; c ← g k3 c3 i3 l3; mret [a; b; c]) w)
  = heap w.
Proof.
  intros g. rewrite !exec_bind.
  change (exec (mret ?x) ?w') with w'.
  unfold g. by rewrite !heap_memoize.
Qed.

(** Only the panel events and the two panel methods reach the panels. *)
Lemma heap_step (c : Call) (w : World) :
  (∀ ps, c ≠ call_addPanels ps) → (∀ ps, c ≠ call_removePanels ps) →
  (∀ p, c ≠ panelChanged p) → (∀ p b, c ≠ panelSetExpanded p b) →
  heap (exec (step c) w) = heap w.
Proof.
  intros Ha Hr Hc He.
  destruct c; try (by destruct (Ha ps)); try (by destruct (Hr ps));
    try (by destruct (Hc p)); try (by destruct (He p b));
    cbn [step]; rewrite ?exec_discard; try done.
  - unfold focus. run_monad. by destruct (startDebugActionItem w).
  - unfold focusView, getView. run_monad. by destruct (head _).
  - destruct (showInitialDebugActions w) eqn:Hshow; unfold exec.
    + rewrite (getActions_initial _ Hshow). apply heap_three_getters.
    + rewrite (getActions_docked _ Hshow). by destruct (debugToolbarMenu w).
  - destruct (showInitialDebugActions w) eqn:Hshow; unfold exec.
    + by rewrite (getSecondaryActions_initial _ Hshow).
    + rewrite (getSecondaryActions_docked _ Hshow). apply heap_three_getters.
  - unfold getActionItem. run_monad. by repeat (case_bool_decide; cbn).
  - unfold onDebugServiceStateChange, runner_done, progressService_show, updateTitleArea.
    run_monad. by destruct (progressRunner w); cbn; repeat (case_bool_decide; cbn).
  - by destruct toolBarLocation'.
Qed.

#[local] Instance writes_refl B E : Reflexive (writes B E).
Proof. by intros w p. Qed.

#[local] Instance writes_trans B E : Transitive (writes B E).
Proof.
  intros w1 w2 w3 H H' p.
  destruct (H p) as (Hi & Hm & He & Hx), (H' p) as (Hi' & Hm' & He' & Hx').
  split; [congruence|]. split; [congruence|].
  split; intros Hp; [rewrite He', He|rewrite Hx', Hx]; done.
Qed.

Lemma writes_mono (B E B' E' : list loc) (w w' : World) :
  B ⊆ B' → E ⊆ E' → writes B E w w' → writes B' E' w w'.
Proof.
  intros HS HE H p. destruct (H p) as (Hi & Hm & He & Hx).
  split; [done|]. split; [done|]. split; intros Hp; [apply He|apply Hx]; auto.
Qed.

Lemma writes_updateBreakpointsMaxSize (w : World) :
  writes (option_list (breakpointView w)) [] w (exec updateBreakpointsMaxSize w).
Proof.
  rewrite updateBreakpointsMaxSize_eq. destruct (breakpointView w) as [bp|]; [|done].
  intros p. cbn. rewrite alter_at. destruct (decide (bp = p)) as [->|Hne]; [|done].
  do 3 (split; [done|]). intros Hp. destruct Hp. by left.
Qed.

Lemma writes_recomputations (ls : list nat) (w : World) :
  writes (option_list (breakpointView w)) [] w
    (exec (forEach ls (λ _, updateBreakpointsMaxSize)) w).
Proof.
  revert w. induction ls as [|t ls IH]; intros w; [done|].
  rewrite exec_forEach_cons. etrans; [apply writes_updateBreakpointsMaxSize|].
  specialize (IH (exec updateBreakpointsMaxSize w)).
  by rewrite (proj1 (proj2 (proj2 (panels_frame_updateBreakpointsMaxSize w)))) in IH.
Qed.

Lemma writes_setExpanded (p : loc) (b : bool) (w : World) :
  writes (option_list (breakpointView w)) [p] w (exec (setExpanded p b) w).
Proof.
  unfold setExpanded. rewrite exec_bind, fire_onDidChange_eq.
  trans (exec (modify (set_heap (alter (set_isExpanded b) p))) w).
  - intros q. unfold exec, modify. cbn. rewrite alter_at.
    destruct (decide (p = q)) as [->|Hne]; [|done].
    do 2 (split; [done|]). split; [|done]. intros Hq. destruct Hq. by left.
  - eapply writes_mono; [| |apply writes_recomputations]; [done|].
    intros q Hq. by apply elem_of_nil in Hq.
Qed.

Lemma writes_addPanels_loop (σ : loc → ViewletPanel) (ps : list PanelToAdd) (w : World) :
  (∀ p, panel_id (heap w p) = panel_id (σ p)) →
  writes (filter (λ p, panel_id (σ p) = BREAKPOINTS_VIEW_ID) (panel <$> ps)) [] w
    (exec (forEach ps addPanels_each) w).
Proof.
  revert w. induction ps as [|a ps IH]; intros w Hids; [done|].
  rewrite exec_forEach_cons.
  assert (∀ p, panel_id (heap (exec (addPanels_each a) w) p) = panel_id (σ p)) as Hids'.
  { intros p. rewrite <- Hids.
    pose proof (same_ids_addPanels_loop [a] w p) as H.
    by rewrite exec_forEach_cons in H. }
  specialize (IH _ Hids'). rewrite fmap_cons, filter_cons.
  etrans; [|eapply writes_mono; [| |exact IH]; [|done]].
  - rewrite addPanels_each_eq. cbn zeta. rewrite Hids. case_bool_decide as Hbp.
    + rewrite decide_True by done.
      eapply writes_mono;
        [| |apply (writes_updateBreakpointsMaxSize (set_breakpointView _ w))]; [|done].
      cbn. intros q Hq. apply list_elem_of_singleton in Hq as ->. by left.
    + intros q. cbn. rewrite alter_at. by destruct (decide _).
  - destruct (decide _); [|done]. intros q Hq. by right.
Qed.

Lemma writes_removePanels_loop (ps : list loc) (w : World) :
  writes [] [] w (exec (forEach ps removePanels_each) w).
Proof.
  apply (forEach_frame (writes [] [])). intros p w' _.
  rewrite removePanels_each_eq. cbn zeta.
  destruct (panelListeners w' !! _) as [[]|]; try done.
  intros q. cbn. rewrite alter_at. by destruct (decide _).
Qed.

Lemma writes_step (σ : loc → ViewletPanel) (c : Call) (w : World) :
  (∀ p, panel_id (heap w p) = panel_id (σ p)) →
  writes (option_list (breakpointView w) ++ breakpoints_attached σ c) (expanded_by c)
    w (exec (step c) w).
Proof.
  intros Hids.
  assert (∀ B E, writes [] [] w (exec (step c) w) → writes B E w (exec (step c) w)) as Hnone.
  { intros B E. apply writes_mono; intros q Hq; by apply elem_of_nil in Hq. }
  assert ((∀ ps, c ≠ call_addPanels ps) → (∀ ps, c ≠ call_removePanels ps) →
          (∀ p, c ≠ panelChanged p) → (∀ p b, c ≠ panelSetExpanded p b) →
          writes (option_list (breakpointView w) ++ breakpoints_attached σ c)
            (expanded_by c) w (exec (step c) w)) as Hother.
  { intros Ha Hr Hc He. apply Hnone. intros p. by rewrite heap_step. }
  destruct c; try (by apply Hother); cbn [step breakpoints_attached expanded_by].
  - rewrite addPanels_eq. destruct (super_addPanels_eq ps w) as (l & -> & _).
    eapply writes_mono; [| |apply (writes_addPanels_loop σ ps (set_panels _ w) Hids)];
      [|done].
    intros q Hq. apply elem_of_app. by right.
  - apply Hnone. cbn [step]. rewrite removePanels_eq.
    destruct (super_removePanels_eq ps w) as (l & -> & _).
    apply (writes_removePanels_loop ps (set_panels _ w)).
  - rewrite fire_onDidChange_eq, app_nil_r. apply writes_recomputations.
  - rewrite app_nil_r. apply writes_setExpanded.
Qed.

Lemma writes_run (σ : loc → ViewletPanel) (cs : list Call) (w : World) (B : list loc) :
  (∀ p, panel_id (heap w p) = panel_id (σ p)) →
  (∀ b, breakpointView w = Some b → b ∈ B) →
  writes (B ++ cs ≫= breakpoints_attached σ) (cs ≫= expanded_by) w (run cs w).
Proof.
  revert w B. induction cs as [|c cs IH]; intros w B Hids Hbv; [done|].
  change (run (c :: cs) w) with (run cs (exec (step c) w)).
  rewrite !bind_cons.
  trans (exec (step c) w).
  - eapply writes_mono; [| |apply (writes_step σ c w Hids)].
    + intros q. rewrite !elem_of_app. intros [Hq|Hq]; [|by auto].
      left. apply Hbv. destruct (breakpointView w); [|by apply elem_of_nil in Hq].
      by apply list_elem_of_singleton in Hq as ->.
    + intros q Hq. apply elem_of_app. by left.
  - eapply writes_mono; [| |apply (IH _ (B ++ breakpoints_attached σ c))].
    + intros q. rewrite !elem_of_app. tauto.
    + intros q Hq. apply elem_of_app. by right.
    + intros p. rewrite <- Hids. apply same_ids_step.
    + intros b. rewrite (breakpointView_step_eq σ) by done.
      destruct (list.last (breakpoints_attached σ c)) as [b'|] eqn:Hlast.
      * intros [= ->]. apply elem_of_app. right.
        apply last_Some in Hlast as [l' ->]. apply elem_of_app. right. by left.
      * intros Hb. apply elem_of_app. left. by apply Hbv.
Qed.

(** X8.  Whatever is called, the viewlet never changes the id or the
    minimum body size of a panel; it changes the maximum body size only of
    panels of the breakpoints id that [addPanels] was given, and nothing but
    an expansion of the panel itself changes whether a panel is expanded. *)
Theorem panels_written_sparingly state location σ next (cs : list Call) (p : loc) :
  let w := run cs (constructor state location σ next) in
  panel_id (heap w p) = panel_id (σ p)
  ∧ minimumBodySize (heap w p) = minimumBodySize (σ p)
  ∧ (p ∉ cs ≫= expanded_by → isExpanded (heap w p) = isExpanded (σ p))
  ∧ (p ∉ cs ≫= breakpoints_attached σ → maximumBodySize (heap w p) = maximumBodySize (σ p)).
Proof.
  intros w.
  by destruct (writes_run σ cs (constructor state location σ next) []
                (λ _, eq_refl) (λ _, ltac:(done)) p) as (Hi & Hm & He & Hx).
Qed.

(** ** The sizing rule between two changes of the panels *)

Lemma sized_expansion (p bp : loc) (b : bool) (w : World) :
  (p ∈ panels w → p = bp) → sized w bp →
  sized (set_heap (alter (set_isExpanded b) p) w) bp.
Proof.
  intros Hp Hs.
  assert (all_other_collapsed (set_heap (alter (set_isExpanded b) p) w) bp
          ↔ all_other_collapsed w bp) as Hiff.
  { unfold all_other_collapsed. cbn.
    split; intros H v Hv Hne; specialize (H v Hv Hne);
      rewrite alter_at in *; (destruct (decide (p = v)) as [->|]; [|done]);
      by destruct Hne; apply Hp. }
  unfold sized. rewrite Hiff. cbn. rewrite alter_at.
  by destruct (decide (p = bp)).
Qed.

(** With distinct ids, an attached panel without a listener is the stored
    breakpoints panel. *)
Lemma unheard_is_breakpoints (w : World) (l : list loc) (p bp : loc) :
  entries_ok w [] → covered w [] → distinct_ids (heap w) l → panels w ⊆ l →
  bp ∈ l → panel_id (heap w bp) = BREAKPOINTS_VIEW_ID →
  onDidChange (heap w p) = [] → p ∈ panels w → p = bp.
Proof.
  intros He Hc Hd Hsub Hbpl Hbpid Hnil Hp.
  destruct (decide (panel_id (heap w p) = BREAKPOINTS_VIEW_ID)) as [Hid|Hid].
  { apply Hd; [by apply Hsub|done|congruence]. }
  destruct (Hc p Hp Hid) as [[d Hk]|Hin]; [|by apply elem_of_nil in Hin].
  destruct (He _ _ Hk) as (p' & t & _ & Hid' & _ & Ht & [Hp'|Hp']);
    [|by apply elem_of_nil in Hp'].
  assert (p' = p) as -> by (apply Hd; [by apply Hsub|by apply Hsub|done]).
  rewrite Hnil in Ht. by apply elem_of_nil in Ht.
Qed.

Lemma sized_step (c : Call) (w : World) (l : list loc) (bp : loc) :
  keeps_panels c →
  entries_ok w [] → covered w [] → distinct_ids (heap w) l → panels w ⊆ l →
  bp ∈ l → panel_id (heap w bp) = BREAKPOINTS_VIEW_ID →
  breakpointView w = Some bp → sized w bp → sized (exec (step c) w) bp.
Proof.
  intros Hk He Hc Hd Hsub Hbpl Hbpid Hbv Hs.
  assert ((∀ ps, c ≠ call_addPanels ps) → (∀ ps, c ≠ call_removePanels ps) →
          (∀ p, c ≠ panelChanged p) → (∀ p b, c ≠ panelSetExpanded p b) →
          sized (exec (step c) w) bp) as Hother.
  { intros Ha Hr Hch Hex. apply (sized_geometry w); [|done].
    destruct (panels_frame_step c w Ha Hr) as (Hp & _ & Hb & _).
    split; [done|]. split; [done|]. intros p. by rewrite heap_step. }
  destruct c; try (by apply Hother); try done; cbn [step].
  - destruct (decide (onDidChange (heap w p) = [])) as [Hnil|Hnil].
    + by rewrite fire_onDidChange_eq, Hnil.
    + by apply fire_onDidChange_sized.
  - destruct (decide (onDidChange (heap w p) = [])) as [Hnil|Hnil].
    + unfold setExpanded. rewrite exec_bind, fire_onDidChange_eq.
      unfold exec at 2 3, modify. cbn. rewrite alter_at, decide_True by done. cbn.
      rewrite Hnil. apply sized_expansion; [|done].
      by apply (unheard_is_breakpoints w l).
    + by apply setExpanded_sized.
Qed.

Lemma sized_run (cs : list Call) (w : World) (l : list loc) (bp : loc) :
  Forall keeps_panels cs →
  entries_ok w [] → covered w [] → distinct_ids (heap w) l → panels w ⊆ l →
  bp ∈ l → panel_id (heap w bp) = BREAKPOINTS_VIEW_ID →
  breakpointView w = Some bp → sized w bp →
  sized (run cs w) bp ∧ breakpointView (run cs w) = Some bp
  ∧ panels (run cs w) = panels w.
Proof.
  revert w. induction cs as [|c cs IH]; intros w Hk He Hc Hd Hsub Hbpl Hbpid Hbv Hs;
    [done|].
  apply list.Forall_cons in Hk as [Hk Hks].
  change (run (c :: cs) w) with (run cs (exec (step c) w)).
  assert (named c = []) as Hnamed by (by destruct c).
  assert (panels_frame w (exec (step c) w)) as (Hp & _ & Hb & Hh).
  { apply panels_frame_step; intros ps ->; done. }
  destruct (listeners_step c w l He) as (He' & Hc').
  destruct Hc' as [Hc' Hsub']; try done.
  { rewrite Hnamed. intros q Hq. by apply elem_of_nil in Hq. }
  destruct (IH (exec (step c) w)) as (Hs' & Hb' & Hp'); try done.
  - apply (distinct_ids_same w); [apply same_ids_step|done].
  - by rewrite (proj1 (Hh bp)).
  - congruence.
  - by apply (sized_step c w l).
  - split; [done|]. split; [done|]. congruence.
Qed.

(** X9.  Where the panels named in the calls have pairwise distinct ids:
    once the sizing rule holds of the stored breakpoints panel, it goes on
    holding through every call that is not [addPanels] or [removePanels],
    expansions and collapses of any panel included; and those calls change
    neither the stored panel nor the attached panels. *)
Theorem sizing_kept_while_panels_stay state location σ next (cs cs' : list Call)
    (bp : loc) :
  distinct_ids σ (cs ≫= named) →
  Forall keeps_panels cs' →
  breakpointView (run cs (constructor state location σ next)) = Some bp →
  sized (run cs (constructor state location σ next)) bp →
  sized (run (cs ++ cs') (constructor state location σ next)) bp
  ∧ breakpointView (run (cs ++ cs') (constructor state location σ next)) = Some bp
  ∧ panels (run (cs ++ cs') (constructor state location σ next))
    = panels (run cs (constructor state location σ next)).
Proof.
  intros Hd Hk Hbv Hs. unfold run at 1 2 3. rewrite foldl_app.
  fold (run cs (constructor state location σ next)).
  set (w := run cs (constructor state location σ next)) in *.
  change (foldl _ w cs') with (run cs' w).
  destruct (listeners_inv_constructor state location σ next) as [He0 Hc0].
  destruct (listeners_run cs _ (cs ≫= named) He0) as (He & Hc). fold w in He, Hc.
  destruct Hc as [Hc Hsub]; try done.
  { intros q Hq. by apply elem_of_nil in Hq. }
  assert (∀ q, panel_id (heap w q) = panel_id (σ q)) as Hids.
  { intros q. apply (same_ids_run cs (constructor state location σ next)). }
  assert (bp ∈ cs ≫= breakpoints_attached σ) as Hbp.
  { unfold w in Hbv. rewrite (breakpointView_run_eq σ) in Hbv by done.
    destruct (list.last _) as [b|] eqn:Hlast; [|done].
    injection Hbv as ->. apply last_Some in Hlast as [l' ->].
    apply elem_of_app. right. by left. }
  apply list_elem_of_bind in Hbp as (c & Hbp & Hc').
  destruct c; try (by apply elem_of_nil in Hbp). cbn in Hbp.
  apply list_elem_of_filter in Hbp as [Hid Hin].
  apply (sized_run cs' w (cs ≫= named)); try done.
  - intros p q Hp Hq. rewrite !Hids. by apply Hd.
  - apply list_elem_of_bind. by exists (call_addPanels ps).
  - by rewrite Hids.
Qed.

(** ** Attaching a sibling and detaching it again *)

Lemma tokens_fresh_addPanels_loop (ps : list PanelToAdd) (w : World) :
  tokens_fresh w → tokens_fresh (exec (forEach ps addPanels_each) w).
Proof.
  revert w. induction ps as [|a ps IH]; intros w Hf; [done|].
  rewrite exec_forEach_cons. apply IH. rewrite addPanels_each_eq. cbn zeta.
  case_bool_decide.
  - intros p t.
    rewrite (proj2 (proj2 (proj2 (proj2 (panels_frame_updateBreakpointsMaxSize _))) p)).
    intros Ht. apply Hf in Ht.
    pose proof (proj2 (footprint_updateBreakpointsMaxSize (λ _, True)
                         (set_breakpointView (Some (panel a)) w))) as Hn.
    change (nextObj (set_breakpointView _ w)) with (nextObj w) in Hn. lia.
  - intros p t. cbn. rewrite alter_at. destruct (decide _); cbn.
    + rewrite elem_of_app, list_elem_of_singleton. intros [Ht| ->]; [apply Hf in Ht|]; lia.
    + intros Ht. apply Hf in Ht. lia.
Qed.

Lemma tokens_fresh_removePanels_loop (ps : list loc) (w : World) :
  tokens_fresh w → tokens_fresh (exec (forEach ps removePanels_each) w).
Proof.
  revert w. induction ps as [|a ps IH]; intros w Hf; [done|].
  rewrite exec_forEach_cons. apply IH. rewrite removePanels_each_eq. cbn zeta.
  destruct (panelListeners w !! _) as [[]|]; try done.
  intros q t. cbn. rewrite alter_at. destruct (decide _); cbn; [|apply Hf].
  rewrite list_elem_of_filter. intros [_ Ht]. by apply Hf in Ht.
Qed.

Lemma tokens_fresh_step (c : Call) (w : World) :
  tokens_fresh w → tokens_fresh (exec (step c) w).
Proof.
  intros Hf.
  assert ((∀ ps, c ≠ call_addPanels ps) → (∀ ps, c ≠ call_removePanels ps) →
          tokens_fresh (exec (step c) w)) as Hother.
  { intros Ha Hr p t.
    rewrite (proj2 (proj2 (proj2 (proj2 (panels_frame_step c w Ha Hr))) p)).
    intros Ht. apply Hf in Ht. pose proof (proj2 (footprint_step c w)). lia. }
  destruct c; try (by apply Hother); cbn [step].
  - rewrite addPanels_eq. destruct (super_addPanels_eq ps w) as (l & -> & _).
    by apply tokens_fresh_addPanels_loop.
  - rewrite removePanels_eq. destruct (super_removePanels_eq ps w) as (l & -> & _).
    by apply tokens_fresh_removePanels_loop.
Qed.

Lemma tokens_fresh_run (cs : list Call) (w : World) :
  tokens_fresh w → tokens_fresh (run cs w).
Proof.
  revert w. induction cs as [|c cs IH]; intros w Hf; [done|].
  change (run (c :: cs) w) with (run cs (exec (step c) w)).
  by apply IH, tokens_fresh_step.
Qed.

Lemma filter_fresh (t : nat) (l : list nat) :
  t ∉ l → filter (λ t', t' ≠ t) (l ++ [t]) = l.
Proof.
  induction l as [|x l IH]; intros Ht.
  - rewrite app_nil_l, filter_cons, decide_False; [done|]. intros H. by apply H.
  - apply not_elem_of_cons in Ht as [Hne Ht].
    rewrite <- app_comm_cons, filter_cons, decide_True by done. by rewrite IH.
Qed.

Lemma filter_splice_in (i : nat) (p : loc) (l : list loc) :
  filter (λ q, q ≠ p) (splice_in i p l) = filter (λ q, q ≠ p) l.
Proof.
  unfold splice_in. rewrite list.filter_app, filter_cons, decide_False by (intros H; by apply H).
  by rewrite <- list.filter_app, take_drop.
Qed.

Lemma addPanels_sibling_eq (a : PanelToAdd) (w : World) :
  panel_id (heap w (panel a)) ≠ BREAKPOINTS_VIEW_ID →
  exec (addPanels [a]) w =
  set_panelListeners
    (insert (panel_id (heap w (panel a))) (ListenerHandle (panel a) (nextObj w)))
    (set_heap (alter (set_onDidChange (λ l, l ++ [nextObj w])) (panel a))
       (set_nextObj (S (nextObj w))
          (set_panels (λ l, splice_in (default (length l) (index a)) (panel a) l) w))).
Proof.
  intros Hne. rewrite addPanels_eq. unfold super_addPanels.
  rewrite !exec_forEach_cons.
  change (exec (forEach [] ?f) ?v) with v.
  change (exec (modify ?f) ?v) with (f v).
  rewrite addPanels_each_eq. cbn zeta. cbn [heap set_panels].
  by rewrite bool_decide_eq_false_2.
Qed.

(** X10.  After any calls on a viewlet just constructed, attaching a panel
    that has not the breakpoints id and detaching it again leaves the panel
    list without that panel, the listener map without an entry under its id,
    and the stored breakpoints panel and every panel as they were; the one
    effect is the disposal of the listener just subscribed. *)
Theorem attach_detach_round_trip state location σ next (cs : list Call)
    (a : PanelToAdd) :
  panel_id (σ (panel a)) ≠ BREAKPOINTS_VIEW_ID →
  let w := run cs (constructor state location σ next) in
  let w' := run [call_addPanels [a]; call_removePanels [panel a]] w in
  panels w' = filter (λ q, q ≠ panel a) (panels w)
  ∧ panelListeners w' = delete (panel_id (σ (panel a))) (panelListeners w)
  ∧ breakpointView w' = breakpointView w
  ∧ (∀ q, heap w' q = heap w q)
  ∧ trace w' = trace w ++ [Dispose (ListenerHandle (panel a) (nextObj w))].
Proof.
  intros Hne w w'.
  assert (panel_id (heap w (panel a)) = panel_id (σ (panel a))) as Hid.
  { apply (same_ids_run cs (constructor state location σ next)). }
  assert (nextObj w ∉ onDidChange (heap w (panel a))) as Hfresh.
  { intros Ht. apply (tokens_fresh_run cs (constructor state location σ next)) in Ht.
    - fold w in Ht. lia.
    - intros p t Ht'. by apply elem_of_nil in Ht'. }
  unfold w'. clear w'. change (run [?c1; ?c2] ?v) with (exec (step c2) (exec (step c1) v)).
  cbn [step]. rewrite addPanels_sibling_eq by (by rewrite Hid).
  rewrite removePanels_one_eq.
  cbn [heap panelListeners set_panels set_panelListeners set_heap set_nextObj].
  rewrite alter_at, decide_True by done. cbn [panel_id set_onDidChange].
  rewrite lookup_insert_eq. cbn.
  rewrite filter_splice_in, delete_insert_eq, Hid.
  do 3 (split; [done|]). split; [|done].
  intros q. rewrite !alter_at. destruct (decide (panel a = q)) as [<-|]; [|done].
  revert Hfresh. destruct (heap w (panel a)) as [i e mn mx l]. intros Hfresh.
  unfold set_onDidChange. cbn [panel_id isExpanded minimumBodySize maximumBodySize onDidChange] in *.
  by rewrite filter_fresh.
Qed.

(** ** Disposal of the panel listeners *)

Lemma disposed_snoc (t : list Effect) (d : IDisposable) :
  disposed (t ++ [Dispose d]) = disposed t ++ [d].
Proof. unfold disposed. by rewrite omap_app. Qed.

Lemma disposed_others (c : Call) (es : list Effect) :
  (∀ ps, c ≠ call_removePanels ps) → Forall (emits c) es → disposed es = [].
Proof.
  intros Hc. induction 1 as [|e es He _ IH]; [done|].
  unfold disposed in *. cbn. rewrite IH.
  destruct e; try done. destruct He as [ps ->]. by destruct (Hc ps).
Qed.

Lemma dispose_inv_weaken (w w' : World) :
  trace w' = trace w → panelListeners w' = panelListeners w →
  (nextObj w ≤ nextObj w')%nat → dispose_inv w → dispose_inv w'.
Proof.
  intros Ht Hm Hn (Hnd & Hd & Hl). unfold dispose_inv. rewrite Ht, Hm.
  split; [done|]. split.
  - intros d Hin. destruct (Hd d Hin) as (p & t & -> & ?). exists p, t. split; [done|lia].
  - intros k d Hk. destruct (Hl k d Hk) as ((p & t & -> & ?) & ? & ?).
    split; [|done]. exists p, t. split; [done|lia].
Qed.

Lemma dispose_inv_addPanels_each (a : PanelToAdd) (w : World) :
  dispose_inv w → dispose_inv (exec (addPanels_each a) w).
Proof.
  intros Hinv. rewrite addPanels_each_eq. cbn zeta. case_bool_decide.
  - eapply dispose_inv_weaken; [| | |exact Hinv];
      rewrite updateBreakpointsMaxSize_eq; by cbn.
  - destruct Hinv as (Hnd & Hd & Hl). split; [done|]. split.
    + intros d Hin. destruct (Hd d Hin) as (p & t & -> & ?).
      exists p, t. split; [done|cbn; lia].
    + intros k d. cbn.
      destruct (decide (k = panel_id (heap w (panel a)))) as [->|Hne].
      * rewrite lookup_insert_eq. intros [= <-]. split; [|split].
        -- eexists _, _. split; [done|lia].
        -- intros Hin. destruct (Hd _ Hin) as (p & t & [= <- <-] & ?). lia.
        -- intros k'. destruct (decide (k' = panel_id (heap w (panel a)))) as [->|Hne'];
             [done|].
           rewrite lookup_insert_ne by done. intros Hk'.
           destruct (Hl _ _ Hk') as ((p & t & [= <- <-] & ?) & _). lia.
      * rewrite lookup_insert_ne by done. intros Hk.
        destruct (Hl k d Hk) as ((p & t & -> & ?) & Hnot & Hkey). split; [|split].
        -- exists p, t. split; [done|lia].
        -- done.
        -- intros k'. destruct (decide (k' = panel_id (heap w (panel a)))) as [->|Hne'].
           ++ rewrite lookup_insert_eq. intros [= <- <-]. lia.
           ++ rewrite lookup_insert_ne by done. apply Hkey.
Qed.

Lemma dispose_inv_removePanels_each (p : loc) (w : World) :
  dispose_inv w → dispose_inv (exec (removePanels_each p) w).
Proof.
  intros (Hnd & Hd & Hl). rewrite removePanels_each_eq. cbn zeta.
  set (id := panel_id (heap w p)).
  assert (∀ w', trace w' = trace w → panelListeners w' = panelListeners w →
                nextObj w' = nextObj w →
                dispose_inv (set_panelListeners (delete id) w')) as Hsame.
  { intros w' Ht Hm Hn. unfold dispose_inv. cbn. rewrite Ht, Hm, Hn.
    split; [done|]. split; [done|]. intros k d Hk.
    apply lookup_delete_Some in Hk as [Hne Hk].
    destruct (Hl k d Hk) as (? & ? & Hkey). split; [done|]. split; [done|].
    intros k' Hk'. apply lookup_delete_Some in Hk' as [_ Hk']. by apply Hkey. }
  destruct (panelListeners w !! id) as [d|] eqn:Hid; [|by apply Hsame].
  destruct (Hl id d Hid) as ((q & t & -> & Hlt) & Hnot & Hkey).
  unfold dispose_inv. cbn. rewrite disposed_snoc.
  split; [|split].
  - apply list.NoDup_app. split; [done|]. split; [|apply NoDup_singleton].
    intros d Hin Hd'. apply list_elem_of_singleton in Hd' as ->. done.
  - intros d. rewrite elem_of_app, list_elem_of_singleton. intros [Hin| ->]; [by apply Hd|].
    by exists q, t.
  - intros k d Hk. apply lookup_delete_Some in Hk as [Hne Hk].
    destruct (Hl k d Hk) as (? & Hnot' & Hkey'). split; [done|]. split.
    + rewrite elem_of_app, list_elem_of_singleton. intros [Hin| ->]; [done|].
      destruct Hne. by apply Hkey'.
    + intros k' Hk'. apply lookup_delete_Some in Hk' as [_ Hk']. by apply Hkey'.
Qed.

Lemma dispose_inv_step (c : Call) (w : World) :
  dispose_inv w → dispose_inv (exec (step c) w).
Proof.
  intros Hinv.
  assert ((∀ ps, c ≠ call_addPanels ps) → (∀ ps, c ≠ call_removePanels ps) →
          dispose_inv (exec (step c) w)) as Hother.
  { intros Ha Hr. destruct (footprint_step c w) as ((es & Ht & Hes) & Hn).
    destruct Hinv as (Hnd & Hd & Hl). unfold dispose_inv.
    assert (disposed (trace (exec (step c) w)) = disposed (trace w)) as ->.
    { rewrite Ht. unfold disposed. rewrite omap_app.
      fold (disposed es). rewrite (disposed_others c es Hr Hes). apply app_nil_r. }
    rewrite (proj1 (proj2 (panels_frame_step c w Ha Hr))).
    split; [done|]. split.
    - intros d Hin. destruct (Hd d Hin) as (p & t & -> & ?). exists p, t. split; [done|lia].
    - intros k d Hk. destruct (Hl k d Hk) as ((p & t & -> & ?) & ? & ?).
      split; [|done]. exists p, t. split; [done|lia]. }
  destruct c; try (by apply Hother); cbn [step].
  - rewrite addPanels_eq. destruct (super_addPanels_eq ps w) as (l & -> & _).
    assert (dispose_inv (set_panels (λ _, l) w)) as Hinv' by done.
    revert Hinv'. generalize (set_panels (λ _, l) w). clear.
    induction ps as [|a ps IH]; intros w Hinv; [done|].
    rewrite exec_forEach_cons. by apply IH, dispose_inv_addPanels_each.
  - rewrite removePanels_eq. destruct (super_removePanels_eq ps w) as (l & -> & _).
    assert (dispose_inv (set_panels (λ _, l) w)) as Hinv' by done.
    revert Hinv'. generalize (set_panels (λ _, l) w). clear.
    induction ps as [|a ps IH]; intros w Hinv; [done|].
    rewrite exec_forEach_cons. by apply IH, dispose_inv_removePanels_each.
Qed.

Lemma dispose_inv_run (cs : list Call) (w : World) :
  dispose_inv w → dispose_inv (run cs w).
Proof.
  revert w. induction cs as [|c cs IH]; intros w Hinv; [done|].
  change (run (c :: cs) w) with (run cs (exec (step c) w)).
  by apply IH, dispose_inv_step.
Qed.

Lemma dispose_inv_constructor state location σ next :
  dispose_inv (constructor state location σ next).
Proof.
  split; [apply NoDup_nil_2|]. split.
  - intros d Hd. by apply elem_of_nil in Hd.
  - intros k d Hk. cbn in Hk. by rewrite lookup_empty in Hk.
Qed.

(** X11.  After any calls on a viewlet just constructed, no listener handle
    has been disposed of twice, everything [removePanels] disposed of is a
    panel-listener handle, and no handle still in the listener map has been
    disposed of. *)
Theorem listeners_disposed_once state location σ next (cs : list Call) :
  let w := run cs (constructor state location σ next) in
  NoDup (disposed (trace w))
  ∧ (∀ d, d ∈ disposed (trace w) → ∃ p t, d = ListenerHandle p t)
  ∧ (∀ k d, panelListeners w !! k = Some d → d ∉ disposed (trace w)).
Proof.
  intros w.
  assert (dispose_inv w) as (Hnd & Hd & Hl).
  { apply dispose_inv_run, dispose_inv_constructor. }
  split; [done|]. split.
  - intros d Hin. destruct (Hd d Hin) as (p & t & -> & _). by exists p, t.
  - intros k d Hk. by destruct (Hl k d Hk) as (_ & ? & _).
Qed.

End Properties.

(** * The properties at work *)

(** ** Breakpoints sizing *)

(** The spec's scenario: attached beside an expanded sibling, the breakpoints
    panel is clamped to its minimum; collapsing the sibling unbounds it. *)
Lemma updateBreakpointsMaxSize_rule_witness :
  maximumBodySize (heap two_panels 0) = Finite 120
  ∧ maximumBodySize
      (heap (exec (setExpanded 1 false)
               (run (imports := example_imports) [call_addPanels [attach 0; attach 1]]
                    (constructor Inactive "docked" example_panels 0))) 0)
    = POSITIVE_INFINITY.
Proof.
  destruct (updateBreakpointsMaxSize_rule (imports := example_imports))
    as (_ & Hattach & _ & _ & Hevent & _).
  split.
  - unfold two_panels.
    destruct (Hattach (example_viewlet Inactive "docked") [attach 0; attach 1])
      as (bp & Hbp & _ & _ & _ & _ & Hclamped).
    { apply Exists_cons_hd. reflexivity. }
    assert (bp = 0) as ->.
    { vm_compute in Hbp. by injection Hbp. }
    rewrite Hclamped; [by vm_compute|].
    intros Hall.
    assert (isExpanded (heap (exec (addPanels (imports := example_imports)
                                      [attach 0; attach 1])
                                   (example_viewlet Inactive "docked")) 1) = false)
      as Hfalse.
    { apply Hall; [|done].
      replace (panels (exec (addPanels (imports := example_imports)
                                 [attach 0; attach 1])
                            (example_viewlet Inactive "docked")))
        with [0; 1] by (by vm_compute).
      rewrite !elem_of_cons; auto. }
    by vm_compute in Hfalse.
  - destruct (Hevent Inactive "docked" example_panels 0
                [call_addPanels [attach 0; attach 1]]) with (p := 1) (bp := 0)
      as (_ & _ & Hset).
    + apply (bool_decide_unpack _). by vm_compute.
    + replace (panels (run [call_addPanels [attach 0; attach 1]]
                           (constructor Inactive "docked" example_panels 0)))
        with [0; 1] by (by vm_compute).
      rewrite !elem_of_cons. auto.
    + by vm_compute.
    + by vm_compute.
    + destruct (Hset false) as [Hunbounded _]. apply Hunbounded.
      intros v Hv Hne. revert Hv.
      replace (panels (exec (setExpanded 1 false)
                         (run [call_addPanels [attach 0; attach 1]]
                              (constructor Inactive "docked" example_panels 0))))
        with [0; 1] by (by vm_compute).
      rewrite !elem_of_cons, elem_of_nil.
      intros [->|[->|[]]]; [by destruct Hne|by vm_compute].
Defined.

(** Attaching a sibling after the breakpoints panel runs no recomputation:
    the breakpoints panel stays unbounded beside an expanded sibling, where
    the rule clamps it to its minimum.  And with two attached siblings of one
    id, detaching the first disposes of the listener of the second: when that
    one is collapsed, nothing is recomputed, and the breakpoints panel stays
    clamped where the rule unbounds it.  The same happens to an attached
    sibling when a panel of its id that is not attached is detached. *)
Lemma recomputation_missed :
  (breakpointView sibling_attached_later = Some 0
   ∧ panels sibling_attached_later = [0; 1]
   ∧ isExpanded (heap sibling_attached_later 1) = true
   ∧ maximumBodySize (heap sibling_attached_later 0) = POSITIVE_INFINITY
   ∧ maximumBodySize (heap (exec updateBreakpointsMaxSize sibling_attached_later) 0)
     = Finite 120
   ∧ ¬ sized sibling_attached_later 0)
  ∧ (let w := run (imports := example_imports) shared_id_beside_breakpoints
                  (example_viewlet Inactive "docked") in
     let w' := exec (setExpanded 5 false) w in
     breakpointView w = Some 0
     ∧ panels w = [0; 5]
     ∧ panel_id (heap w 5) ≠ BREAKPOINTS_VIEW_ID (Imports := example_imports)
     ∧ onDidChange (heap w 5) = []
     ∧ panels w' = [0; 5]
     ∧ isExpanded (heap w' 5) = false
     ∧ maximumBodySize (heap w' 0) = Finite 120
     ∧ maximumBodySize (heap (exec updateBreakpointsMaxSize w') 0) = POSITIVE_INFINITY
     ∧ ¬ sized w' 0
     ∧ ¬ apart_along (imports := example_imports) shared_id_beside_breakpoints
           (example_viewlet Inactive "docked"))
  ∧ (let w := run (imports := example_imports) twin_detached_beside_breakpoints
                  (example_viewlet Inactive "docked") in
     let w' := exec (setExpanded 4 false) w in
     breakpointView w = Some 0
     ∧ panels w = [0; 4]
     ∧ panel_id (heap w 4) ≠ BREAKPOINTS_VIEW_ID (Imports := example_imports)
     ∧ onDidChange (heap w 4) = []
     ∧ panels w' = [0; 4]
     ∧ isExpanded (heap w' 4) = false
     ∧ maximumBodySize (heap w' 0) = Finite 120
     ∧ maximumBodySize (heap (exec updateBreakpointsMaxSize w') 0) = POSITIVE_INFINITY
     ∧ ¬ sized w' 0
     ∧ ¬ apart_along (imports := example_imports) twin_detached_beside_breakpoints
           (example_viewlet Inactive "docked")).
Proof.
  split; [|split].
  - do 5 (split; [by vm_compute|]).
    intros [_ Hclamp].
    assert (maximumBodySize (heap sibling_attached_later 0)
            = minimumBodySize (heap sibling_attached_later 0)) as Heq.
    { apply Hclamp. intros Hall.
      assert (isExpanded (heap sibling_attached_later 1) = false) as Hfalse.
      { apply Hall; [|done].
        replace (panels sibling_attached_later) with [0; 1] by (by vm_compute).
        rewrite !elem_of_cons; auto. }
      by vm_compute in Hfalse. }
    by vm_compute in Heq.
  - cbn zeta. do 8 (split; [by vm_compute|]). split.
    + intros [Hunbounded _].
      assert (maximumBodySize
                (heap (exec (setExpanded 5 false)
                         (run (imports := example_imports) shared_id_beside_breakpoints
                              (example_viewlet Inactive "docked"))) 0)
              = POSITIVE_INFINITY) as Heq.
      { apply Hunbounded. intros v Hv Hne. revert Hv.
        replace (panels (exec (setExpanded 5 false)
                           (run (imports := example_imports) shared_id_beside_breakpoints
                                (example_viewlet Inactive "docked"))))
          with [0; 5] by (by vm_compute).
        rewrite !elem_of_cons, elem_of_nil.
        intros [->|[->|[]]]; [by destruct Hne|by vm_compute]. }
      by vm_compute in Heq.
    + intros H. apply (bool_decide_pack _) in H. by vm_compute in H.
  - cbn zeta. do 8 (split; [by vm_compute|]). split.
    + intros [Hunbounded _].
      assert (maximumBodySize
                (heap (exec (setExpanded 4 false)
                         (run (imports := example_imports)
                              twin_detached_beside_breakpoints
                              (example_viewlet Inactive "docked"))) 0)
              = POSITIVE_INFINITY) as Heq.
      { apply Hunbounded. intros v Hv Hne. revert Hv.
        replace (panels (exec (setExpanded 4 false)
                           (run (imports := example_imports)
                                twin_detached_beside_breakpoints
                                (example_viewlet Inactive "docked"))))
          with [0; 4] by (by vm_compute).
        rewrite !elem_of_cons, elem_of_nil.
        intros [->|[->|[]]]; [by destruct Hne|by vm_compute]. }
      by vm_compute in Heq.
    + intros H. apply (bool_decide_pack _) in H. by vm_compute in H.
Qed.

(** ** The initial actions *)

Lemma showInitialDebugActions_iff_witness :
  showInitialDebugActions (example_viewlet Inactive "docked") = true
  ∧ showInitialDebugActions (example_viewlet Running "floating") = true.
Proof.
  split.
  - apply (proj1 (proj2 (showInitialDebugActions_iff (example_viewlet Inactive "docked")))).
    reflexivity.
  - apply (proj2 (proj2 (showInitialDebugActions_iff (example_viewlet Running "floating")))).
    cbn. discriminate.
Defined.

(** ** Memoized instances *)

Lemma session_trace :
  instances ConfigureAction
    (trace (run (imports := example_imports) session_calls
                (example_viewlet Inactive "docked"))) = [1].
Proof. by vm_compute. Qed.

(** Over a debug session in which Configure is read four times, the one
    Configure action created is among what the viewlet disposes. *)
Lemma created_at_most_once_witness :
  ∃ a, action_class a = ConfigureAction ∧ action_obj a = 1
       ∧ ActionHandle a
         ∈ toDispose (run (imports := example_imports) session_calls
                          (example_viewlet Inactive "docked")).
Proof.
  destruct (created_at_most_once (imports := example_imports)
              Inactive "docked" example_panels 0 session_calls)
    as (_ & Hregistered & _).
  apply (Hregistered ConfigureAction 1).
  - rewrite !elem_of_cons. auto.
  - fold (example_viewlet Inactive "docked"). rewrite session_trace.
    apply list_elem_of_singleton. reflexivity.
Defined.

(** ** The listener map *)

(** A panel is detached and another panel of its id attached in its place:
    the new panel has the entry, a live subscription to it. *)
Lemma panelListeners_one_per_attached_panel_witness :
  ∃ t, panelListeners (run (imports := example_imports) detach_then_recreate
                           (example_viewlet Inactive "docked"))
         !! "workbench.debug.callStackView" = Some (ListenerHandle 5 t)
       ∧ t ∈ onDidChange (heap (run (imports := example_imports)
                                    detach_then_recreate
                                    (example_viewlet Inactive "docked")) 5).
Proof.
  destruct (panelListeners_one_per_attached_panel (imports := example_imports)
              Inactive "docked" example_panels 0 detach_then_recreate)
    as (_ & _ & Hattached & _).
  apply (λ H, Hattached H 5).
  - apply (bool_decide_unpack _). by vm_compute.
  - fold (example_viewlet Inactive "docked").
    replace (panels (run detach_then_recreate (example_viewlet Inactive "docked")))
      with [0; 5] by (by vm_compute).
    rewrite !elem_of_cons. auto.
  - by vm_compute.
Defined.

(** Two attached panels share an id; detaching one of them deletes the
    entry and disposes of the listener of the other, which stays attached
    without an entry and without a listener.  And detaching a panel that is
    not attached takes the entry and the listener of the attached panel of
    its id. *)
Lemma shared_id_loses_entry :
  (panels shared_id_detached = [5]
   ∧ panel_id (heap shared_id_detached 5) = "workbench.debug.callStackView"
   ∧ panel_id (heap shared_id_detached 5) ≠ BREAKPOINTS_VIEW_ID (Imports := example_imports)
   ∧ panelListeners shared_id_detached !! "workbench.debug.callStackView" = None
   ∧ onDidChange (heap shared_id_detached 5) = []
   ∧ onDidChange (heap shared_id_detached 4) = [0]
   ∧ ¬ apart_along (imports := example_imports) shared_id_calls
         (example_viewlet Inactive "docked"))
  ∧ (let w := run (imports := example_imports) twin_detached
                  (example_viewlet Inactive "docked") in
     panels w = [4]
     ∧ panel_id (heap w 4) ≠ BREAKPOINTS_VIEW_ID (Imports := example_imports)
     ∧ panelListeners w !! "workbench.debug.callStackView" = None
     ∧ onDidChange (heap w 4) = []
     ∧ ¬ apart_along (imports := example_imports) twin_detached
           (example_viewlet Inactive "docked")).
Proof.
  split.
  - do 6 (split; [by vm_compute|]).
    intros H. apply (bool_decide_pack _) in H. by vm_compute in H.
  - cbn zeta. do 4 (split; [by vm_compute|]).
    intros H. apply (bool_decide_pack _) in H. by vm_compute in H.
Qed.

(** Detaching the collapsed sibling of [two_panels], which has no entry, and
    the expanded one, which has: its one listener is disposed of. *)
Lemma removePanels_idempotent_witness :
  (panelListeners (exec (removePanels [2]) two_panels) = panelListeners two_panels
   ∧ trace (exec (removePanels [2]) two_panels) = trace two_panels
   ∧ heap (exec (removePanels [2]) two_panels) = heap two_panels)
  ∧ (panelListeners (exec (removePanels [1]) two_panels)
     = delete "workbench.debug.variablesView" (panelListeners two_panels)
     ∧ trace (exec (removePanels [1]) two_panels)
       = trace two_panels ++ [Dispose (ListenerHandle 1 0)]
     ∧ 0 ∉ onDidChange (heap (exec (removePanels [1]) two_panels) 1))
  ∧ onDidChange
      (heap (exec (removePanels [1])
               (run (imports := example_imports) [call_addPanels [attach 0; attach 1]]
                    (example_viewlet Inactive "docked"))) 1) = [].
Proof.
  destruct (removePanels_idempotent (imports := example_imports)) as [Hcall Hrun].
  split; [|split].
  - apply (Hcall two_panels 2). by vm_compute.
  - destruct (Hcall two_panels 1) as (_ & Hentry & _).
    destruct (Hentry (ListenerHandle 1 0)) as (Hmap & Htrace & Hoff); [by vm_compute|].
    split; [exact Hmap|]. split; [exact Htrace|]. by apply Hoff.
  - destruct (Hrun Inactive "docked" example_panels 0
                [call_addPanels [attach 0; attach 1]] 1)
      as (t & _ & _ & _ & Hnone & _).
    + apply (bool_decide_unpack _). by vm_compute.
    + replace (panels (run [call_addPanels [attach 0; attach 1]]
                           (constructor Inactive "docked" example_panels 0)))
        with [0; 1] by (by vm_compute).
      rewrite !elem_of_cons. auto.
    + by vm_compute.
    + exact Hnone.
Defined.

(** With two attached panels of one id, detaching the first disposes of the
    listener of the second and leaves the first with its own.  A panel
    attached twice and detached once keeps the listener of its first
    attachment.  And detaching a panel that is not attached disposes of the
    listener of the attached panel of its id. *)
Lemma removed_panel_keeps_its_listener :
  (trace shared_id_detached = [Dispose (ListenerHandle 5 1)]
   ∧ panels shared_id_detached = [5]
   ∧ onDidChange (heap shared_id_detached 4) = [0]
   ∧ onDidChange (heap shared_id_detached 5) = []
   ∧ ¬ once_along (imports := example_imports) shared_id_calls
         (example_viewlet Inactive "docked"))
  ∧ (let w := run (imports := example_imports) attached_twice
                  (example_viewlet Inactive "docked") in
     trace w = [Dispose (ListenerHandle 1 1)]
     ∧ panels w = []
     ∧ onDidChange (heap w 1) = [0]
     ∧ ¬ once_along (imports := example_imports) attached_twice
           (example_viewlet Inactive "docked"))
  ∧ (let w := run (imports := example_imports) twin_detached
                  (example_viewlet Inactive "docked") in
     trace w = [Dispose (ListenerHandle 4 0)]
     ∧ panels w = [4]
     ∧ onDidChange (heap w 4) = []
     ∧ ¬ once_along (imports := example_imports) twin_detached
           (example_viewlet Inactive "docked")).
Proof.
  split; [|split].
  - do 4 (split; [by vm_compute|]).
    intros H. apply (bool_decide_pack _) in H. by vm_compute in H.
  - cbn zeta. do 3 (split; [by vm_compute|]).
    intros H. apply (bool_decide_pack _) in H. by vm_compute in H.
  - cbn zeta. do 3 (split; [by vm_compute|]).
    intros H. apply (bool_decide_pack _) in H. by vm_compute in H.
Qed.

(** ** The stored breakpoints panel *)

(** The breakpoints panel of [two_panels] is detached and its sibling then
    collapsed: the sibling's changed event unbounds the detached panel. *)
Lemma removePanels_keeps_breakpointView_witness :
  breakpointView (run (imports := example_imports) [panelSetExpanded 1 false]
                      (exec (removePanels [0]) two_panels)) = Some 0
  ∧ sized (exec (fire_onDidChange 1)
                (run (imports := example_imports) [panelSetExpanded 1 false]
                     (exec (removePanels [0]) two_panels))) 0.
Proof.
  destruct (removePanels_keeps_breakpointView (imports := example_imports))
    as (_ & Hkept & _).
  destruct (Hkept two_panels [0] 0 [panelSetExpanded 1 false])
    as (_ & Hstored & _ & Hevent).
  - by vm_compute.
  - rewrite list_elem_of_singleton. reflexivity.
  - apply Forall_cons; [|apply Forall_nil]. intros [].
  - split; [exact Hstored|]. apply Hevent. by vm_compute.
Defined.

(** After both panels are detached, a second breakpoints panel is attached:
    the recomputation the attach runs unbounds the new panel, and the
    detached one keeps the clamped size that a recomputation for it would
    replace by infinity. *)
Lemma later_attach_sizes_the_new_panel :
  breakpointView all_detached = Some 0
  ∧ panels all_detached = []
  ∧ maximumBodySize (heap (exec updateBreakpointsMaxSize all_detached) 0)
    = POSITIVE_INFINITY
  ∧ breakpointView (exec (addPanels (imports := example_imports) [attach 3])
                         all_detached) = Some 3
  ∧ maximumBodySize
      (heap (exec (addPanels (imports := example_imports) [attach 3]) all_detached) 3)
    = POSITIVE_INFINITY
  ∧ heap (exec (addPanels (imports := example_imports) [attach 3]) all_detached) 0
    = heap all_detached 0
  ∧ maximumBodySize
      (heap (exec (addPanels (imports := example_imports) [attach 3]) all_detached) 0)
    = Finite 120.
Proof. do 6 (split; [by vm_compute|]). by vm_compute. Qed.

(** ** Further properties *)

(** A viewlet whose base class has registered one handle of its own: a
    session adds no more than five entries to it and the three
    subscriptions. *)
Lemma toDispose_bounded_witness :
  (length (toDispose
             (run (imports := example_imports) session_calls
                  (set_toDispose (λ l, ListenerHandle 9 0 :: l)
                     (example_viewlet Inactive "docked")))) ≤ 4 + 5)%nat.
Proof.
  destruct (toDispose_bounded (imports := example_imports)
              (set_toDispose (λ l, ListenerHandle 9 0 :: l)
                 (example_viewlet Inactive "docked")) session_calls)
    as (_ & _ & _ & Hle).
  - split; [|done]. unfold memoized_getters, memo_inv. cbn. repeat constructor.
  - exact Hle.
Defined.

(** The primary list read before a session and the secondary list read in it
    have the same Configure and Debug Console actions. *)
Lemma action_lists_share_instances_witness :
  ∃ a b c s,
    result (getActions (imports := example_imports)) (example_viewlet Inactive "docked")
    = [a; b; c]
    ∧ result (getSecondaryActions (imports := example_imports))
        (run (imports := example_imports) [debugStateChanged Running]
           (exec (getActions (imports := example_imports))
                 (example_viewlet Inactive "docked")))
      = [s; b; c].
Proof.
  apply (proj1 (action_lists_share_instances (imports := example_imports)
                  (example_viewlet Inactive "docked") [debugStateChanged Running]));
    by vm_compute.
Defined.

(** The breakpoints panel attached beside the variables panel: collapsing
    and expanding the sibling, with other calls in between, keeps the rule. *)
Lemma sizing_kept_while_panels_stay_witness :
  sized (run (imports := example_imports)
           ([call_addPanels [attach 1; attach 0]]
            ++ [panelSetExpanded 1 false; call_getActions; panelChanged 2;
                panelSetExpanded 1 true])
           (example_viewlet Inactive "docked")) 0.
Proof.
  apply (sizing_kept_while_panels_stay (imports := example_imports)
           Inactive "docked" example_panels 0).
  - intros p q Hp Hq. cbn in Hp, Hq.
    rewrite !elem_of_cons, elem_of_nil in Hp, Hq.
    destruct Hp as [-> | [-> | []]], Hq as [-> | [-> | []]];
      cbn; intros Heq; first [reflexivity|discriminate Heq].
  - repeat (constructor; [exact I|]). constructor.
  - by vm_compute.
  - split; intros Hall.
    + specialize (Hall 1). vm_compute in Hall.
      discriminate Hall; [apply list_elem_of_In; vm_compute; auto|discriminate].
    + by vm_compute.
Defined.

(** With the breakpoints panel attached, the variables panel is attached and
    detached again: the breakpoints panel is the one panel left. *)
Lemma attach_detach_round_trip_witness :
  panels (run (imports := example_imports)
            [call_addPanels [attach 1]; call_removePanels [1]]
            (run (imports := example_imports) [call_addPanels [attach 0]]
                 (example_viewlet Inactive "docked"))) = [0].
Proof.
  destruct (attach_detach_round_trip (imports := example_imports)
              Inactive "docked" example_panels 0 [call_addPanels [attach 0]] (attach 1))
    as (Hpanels & _); [done|].
  etrans; [exact Hpanels|by vm_compute].
Defined.
